(** * EGP Transactions SDK: the shared request/response engine

    A shallow embedding of [src/core/httpClient.ts] ([HttpClient]),
    [src/core/utils.ts] ([formatQueryParams]), [src/core/errors.ts] (the error
    classes) and of [WalletsAPI.create] from [src/resources/wallets.ts],
    followed by the properties of the engine that the specification states.

    JavaScript values are a tree type; the host primitives the engine calls
    but does not define ([new URL], [JSON.stringify], the local-time rendering
    of a [Date], the network) are parameters of the model; the effects of a
    call (console warnings, the [fetch] call, reads of the response body) are
    recorded in a trace threaded through a small state and exception monad. *)

From Stdlib Require Import ZArith List String Ascii Bool Lia DecimalString.
Import ListNotations.

Local Open Scope string_scope.
Local Open Scope list_scope.
Local Open Scope Z_scope.

Set Warnings "-register-all".

(* ================================================================= *)
(** ** Strings *)

Definition ascii_in (lo hi : nat) (c : ascii) : bool :=
  (Nat.leb lo (nat_of_ascii c) && Nat.leb (nat_of_ascii c) hi)%bool.

(** ASCII lower-casing, as the Headers class applies to header names. *)
Definition lower_ascii (c : ascii) : ascii :=
  if ascii_in 65 90 c then ascii_of_nat (nat_of_ascii c + 32) else c.

Fixpoint toLowerCase (s : string) : string :=
  match s with
  | EmptyString => EmptyString
  | String c r => String (lower_ascii c) (toLowerCase r)
  end.

(** [s.startsWith(p)] *)
Definition startsWith (p s : string) : bool := String.prefix p s.

(** [s.includes(p)] *)
Fixpoint includes (p s : string) : bool :=
  (String.prefix p s ||
   match s with
   | EmptyString => false
   | String _ r => includes p r
   end)%bool.

(** [s.replace(/\/$/, '')]: one trailing slash, if any, is removed. *)
Fixpoint strip_trailing_slash (s : string) : string :=
  match s with
  | EmptyString => EmptyString
  | String c EmptyString => if Ascii.eqb c "/" then EmptyString else s
  | String c r => String c (strip_trailing_slash r)
  end.

(** Decimal rendering of an integer, [String(n)] for an integer-valued
    number in the safe range. *)
Definition Z_to_string (n : Z) : string := NilZero.string_of_int (Z.to_int n).

Fixpoint zeros (k : nat) : string :=
  match k with O => EmptyString | S k' => String "0" (zeros k') end.

(** Non-negative [n] in decimal, left-padded with zeros to width [w]. *)
Definition pad (w : nat) (n : Z) : string :=
  let d := Z_to_string n in
  (zeros (w - String.length d) ++ d)%string.

Fixpoint join (sep : string) (l : list string) : string :=
  match l with
  | [] => EmptyString
  | [x] => x
  | x :: r => (x ++ sep ++ join sep r)%string
  end.

(* ================================================================= *)
(** ** Date.prototype.toISOString *)

Definition msPerDay : Z := 86400000.

(** Civil date (year, month, day) of a day number counted from 1970-01-01,
    proleptic Gregorian calendar. *)
Definition civil_from_days (days : Z) : Z * Z * Z :=
  let z := days + 719468 in
  let era := z / 146097 in
  let doe := z - era * 146097 in
  let yoe := (doe - doe / 1460 + doe / 36524 - doe / 146096) / 365 in
  let y := yoe + era * 400 in
  let doy := doe - (365 * yoe + yoe / 4 - yoe / 100) in
  let mp := (5 * doy + 2) / 153 in
  let d := doy - (153 * mp + 2) / 5 + 1 in
  let m := if mp <? 10 then mp + 3 else mp - 9 in
  (if m <=? 2 then y + 1 else y, m, d).

Definition iso_year (y : Z) : string :=
  if ((0 <=? y) && (y <=? 9999))%bool then pad 4 y
  else ((if (y <? 0)%Z then "-" else "+") ++ pad 6 (Z.abs y))%string.

(** [new Date(t).toISOString()] for a valid time value [t] (milliseconds
    since the epoch, UTC): [YYYY-MM-DDTHH:mm:ss.sssZ]. *)
Definition toISOString (t : Z) : string :=
  let '(y, m, d) := civil_from_days (t / msPerDay) in
  let ms := t mod msPerDay in
  (iso_year y ++ "-" ++ pad 2 m ++ "-" ++ pad 2 d ++ "T"
   ++ pad 2 (ms / 3600000) ++ ":" ++ pad 2 (ms / 60000 mod 60) ++ ":"
   ++ pad 2 (ms / 1000 mod 60) ++ "." ++ pad 3 (ms mod 1000) ++ "Z")%string.

(* ================================================================= *)
(** ** Plain records ([Record<string, T>]) *)

(** A plain JavaScript object is the list of its own enumerable properties
    in enumeration order; assignment [o[k] = v] replaces the value of an
    existing key in place and adds a new key last. *)
Definition Rec (T : Type) : Type := list (string * T).

Definition keys {T} (o : Rec T) : list string := map fst o.

Fixpoint rec_get {T} (k : string) (o : Rec T) : option T :=
  match o with
  | [] => None
  | (k', v) :: r => if String.eqb k' k then Some v else rec_get k r
  end.

Definition hasOwn {T} (k : string) (o : Rec T) : bool :=
  match rec_get k o with Some _ => true | None => false end.

Fixpoint rec_set {T} (k : string) (v : T) (o : Rec T) : Rec T :=
  match o with
  | [] => [(k, v)]
  | (k', v') :: r =>
      if String.eqb k' k then (k', v) :: r else (k', v') :: rec_set k v r
  end.

(** [{ ...a, ...b }] *)
Definition spread {T} (a b : Rec T) : Rec T :=
  fold_left (fun o kv => rec_set (fst kv) (snd kv) o) b
    (fold_left (fun o kv => rec_set (fst kv) (snd kv) o) a []).

(* ================================================================= *)
(** ** The Headers class of the Fetch standard *)

Module Headers.

(** Header names are kept lower-cased; the values appended under one name
    are kept combined, joined by a comma and a space, as [get] reports
    them. *)
Definition t : Type := list (string * string).

Definition is_tchar (c : ascii) : bool :=
  (ascii_in 48 57 c || ascii_in 65 90 c || ascii_in 97 122 c
   || existsb (Ascii.eqb c) (list_ascii_of_string "!#$%&'*+-.^_`|~"))%bool.

Definition valid_name (n : string) : bool :=
  (negb (String.eqb n "") && forallb is_tchar (list_ascii_of_string n))%bool.

Definition is_http_ws (c : ascii) : bool :=
  existsb (Nat.eqb (nat_of_ascii c)) [9; 10; 13; 32]%nat.

Fixpoint strip_leading (s : string) : string :=
  match s with
  | String c r => if is_http_ws c then strip_leading r else s
  | EmptyString => EmptyString
  end.

Fixpoint strip_trailing (s : string) : string :=
  match s with
  | EmptyString => EmptyString
  | String c r =>
      match strip_trailing r with
      | EmptyString => if is_http_ws c then EmptyString else String c EmptyString
      | r' => String c r'
      end
  end.

(** Leading and trailing HTTP whitespace is removed from a value before it
    is checked and stored. *)
Definition normalize (v : string) : string := strip_trailing (strip_leading v).

Definition valid_value (v : string) : bool :=
  forallb (fun c => negb (existsb (Nat.eqb (nat_of_ascii c)) [0; 10; 13]%nat))
    (list_ascii_of_string v).

Definition get (n : string) (h : t) : option string := rec_get (toLowerCase n) h.

Definition has (n : string) (h : t) : bool := hasOwn (toLowerCase n) h.

Definition delete (n : string) (h : t) : t :=
  filter (fun kv => negb (String.eqb (fst kv) (toLowerCase n))) h.

(** [set] and [append] throw a TypeError ([None]) on a name that is not a
    token or on a value with a NUL, CR or LF byte. *)
Definition set (n v : string) (h : t) : option t :=
  let v' := normalize v in
  if (valid_name n && valid_value v')%bool
  then Some (rec_set (toLowerCase n) v' h) else None.

Definition append (n v : string) (h : t) : option t :=
  let v' := normalize v in
  if (valid_name n && valid_value v')%bool
  then Some (match get n h with
             | Some old => rec_set (toLowerCase n) (old ++ ", " ++ v')%string h
             | None => rec_set (toLowerCase n) v' h
             end)
  else None.

(** [new Headers(init)] for a record [init]: each entry is appended. *)
Fixpoint fill (init : Rec string) (h : t) : option t :=
  match init with
  | [] => Some h
  | (n, v) :: r => match append n v h with
                   | Some h' => fill r h'
                   | None => None
                   end
  end.

Definition new (init : Rec string) : option t := fill init [].

End Headers.

(* ================================================================= *)
(** ** JavaScript values *)

(** The three body classes that [request] passes through unserialized. *)
Inductive BodyClass := FormData | URLSearchParams | Blob.

(** Values that reach the engine: request bodies, query-parameter values,
    parsed JSON.  Numbers are the integer-valued doubles and NaN; a [JDate]
    holds a valid time value in milliseconds since the epoch; a [JObj] is a
    plain object with data properties only (no property is callable). *)
Inductive JSValue :=
| JUndefined
| JNull
| JBool (b : bool)
| JNum (n : Z)
| JNaN
| JStr (s : string)
| JDate (t : Z)
| JArr (xs : list JSValue)
| JObj (props : list (string * JSValue))
| JHost (c : BodyClass) (content : string).

(** ToBoolean *)
Definition truthy (v : JSValue) : bool :=
  match v with
  | JUndefined | JNull | JBool false | JNaN => false
  | JNum n => negb (n =? 0)
  | JStr s => negb (String.eqb s "")
  | _ => true
  end.

(** Truthiness of an optional string or number field of a configuration
    ([undefined] when absent). *)
Definition truthy_str (o : option string) : bool :=
  match o with Some s => negb (String.eqb s "") | None => false end.

Definition truthy_num (o : option Z) : bool :=
  match o with Some n => negb (n =? 0) | None => false end.

(** [a || b] *)
Definition js_or (a b : JSValue) : JSValue := if truthy a then a else b.

(** [v != null] *)
Definition not_nullish (v : JSValue) : bool :=
  match v with JUndefined | JNull => false | _ => true end.

(** Reading a property that no prototype defines ([message], [error],
    [success]): the own property of a plain object, [undefined] on any
    other value; on [null] and [undefined] this is the optional chain
    [v?.k]. *)
Definition prop (k : string) (v : JSValue) : JSValue :=
  match v with
  | JObj ps => match rec_get k ps with Some x => x | None => JUndefined end
  | _ => JUndefined
  end.

Definition class_name (c : BodyClass) : string :=
  match c with
  | FormData => "FormData" | URLSearchParams => "URLSearchParams" | Blob => "Blob"
  end.

Definition opt_bind {A B} (o : option A) (f : A -> option B) : option B :=
  match o with Some a => f a | None => None end.

(** [Number.isSafeInteger(n)] *)
Definition is_safe_integer (n : Z) : bool := Z.abs n <=? 9007199254740991.

(** The text of an integer-valued number: its decimal digits when it is a
    safe integer; beyond that the digits are rounded and, from 1e21, in
    exponent notation, as the host's [Number.prototype.toString], [nts],
    gives them. *)
Definition Number_text (nts : Z -> string) (n : Z) : string :=
  if is_safe_integer n then Z_to_string n else nts n.

(** ToString, as [String(v)] and template literals apply it; [None] is the
    TypeError "Cannot convert object to primitive value".  A plain object
    without an own [toString] inherits the one of [Object.prototype]; an own
    [toString] is a data property here, so it is skipped as not callable,
    and [valueOf] (own and not callable, or inherited and returning the
    object itself) yields no primitive either.  [nts] and [dts] are the
    host's [Number.prototype.toString] and [Date.prototype.toString]. *)
Fixpoint js_String (nts dts : Z -> string) (v : JSValue) : option string :=
  match v with
  | JUndefined => Some "undefined"
  | JNull => Some "null"
  | JBool true => Some "true"
  | JBool false => Some "false"
  | JNum n => Some (Number_text nts n)
  | JNaN => Some "NaN"
  | JStr s => Some s
  | JDate t => Some (dts t)
  | JArr xs =>
      option_map (join ",")
        ((fix elems (l : list JSValue) : option (list string) :=
            match l with
            | [] => Some []
            | x :: r =>
                opt_bind (match x with
                          | JUndefined | JNull => Some ""
                          | _ => js_String nts dts x
                          end)
                  (fun s => option_map (cons s) (elems r))
            end) xs)
  | JObj ps => if hasOwn "toString" ps then None else Some "[object Object]"
  | JHost c _ => Some ("[object " ++ class_name c ++ "]")%string
  end.

(* ================================================================= *)
(** ** Errors ([src/core/errors.ts]) *)

(** An error object that is not one of the SDK's: [instanceof DOMException],
    [name] and [message]. *)
Record HostError := {
  isDOMException : bool;
  name : string;
  message : string
}.

Definition TypeError (msg : string) : HostError :=
  {| isDOMException := false; name := "TypeError"; message := msg |}.

(** The SDK's error classes; [APIError], [AuthenticationError],
    [ValidationError] and [NetworkError] extend [SDKError].  [ZodError] is
    the validation library's own. *)
Inductive JSError :=
| SDKError (msg : string)
| APIError (msg : string) (status : Z) (responseBody : JSValue) (headers : Headers.t)
| AuthenticationError (msg : string)
| ValidationError (msg : string) (issues : option JSValue)
| NetworkError (msg : string) (cause : HostError)
| ZodError (issues : JSValue)
| HostThrow (e : HostError).

(** [e instanceof SDKError] *)
Definition instanceof_SDKError (e : JSError) : bool :=
  match e with
  | SDKError _ | APIError _ _ _ _ | AuthenticationError _
  | ValidationError _ _ | NetworkError _ _ => true
  | ZodError _ | HostThrow _ => false
  end.

(** [e.message] *)
Definition error_message (e : JSError) : string :=
  match e with
  | SDKError m | APIError m _ _ _ | AuthenticationError m
  | ValidationError m _ | NetworkError m _ => m
  | ZodError _ => "Validation failed"
  | HostThrow h => message h
  end.

(* ================================================================= *)
(** ** Configuration, options, requests and responses *)

Inductive Method := GET | POST | PUT | PATCH | DELETE | OPTIONS | HEAD.

(** [HttpClientConfig]; an absent optional field is [None]. *)
Record HttpClientConfig := {
  baseURL : string;
  apiKey : option string;
  authToken : option string;
  organizationId : option string;
  defaultHeaders : option (Rec string);
  timeout : option Z
}.

(** [RequestOptions]; [body] is [JUndefined] when absent and [signal] is a
    reference into the store of abort signals. *)
Record RequestOptions := {
  method : option Method;
  queryParams : option (Rec JSValue);
  body : JSValue;
  headers : option (Rec string);
  signal : option nat;
  expectedStatus : option Z
}.

(** A parsed URL: what [new URL] made of the address, and the pairs of its
    [searchParams]. *)
Record URL := {
  href : string;
  searchParams : list (string * string)
}.

(** The body handed to [fetch]: a value passed through as it is, or the
    text [JSON.stringify] produced. *)
Inductive RequestBody :=
| Passthrough (v : JSValue)
| JsonText (s : string).

(** The arguments of one [fetch] call. *)
Record FetchCall := {
  f_url : URL;
  f_method : Method;
  f_headers : Headers.t;
  f_body : option RequestBody;
  f_signal : option nat
}.

(** A [Response]: [json] and [text] are what awaiting [response.json()] and
    [response.text()] gives, a rejection on the left. *)
Record Response := {
  status : Z;
  statusText : string;
  resp_headers : Headers.t;
  json : HostError + JSValue;
  text : HostError + string
}.

(** [response.ok] *)
Definition ok (r : Response) : bool := ((200 <=? status r) && (status r <=? 299))%bool.

(** The host primitives the engine relies on. [URL_parse] and
    [JSON_stringify] give [None] where the primitive throws;
    [Number_toString] is asked for the integer-valued numbers outside the
    safe range only; [bodiless_message] is the message of the TypeError
    with which [fetch] refuses a body on a GET or HEAD request, a text
    that the Fetch standard leaves to the implementation. *)
Record Host := {
  URL_parse : string -> option URL;
  JSON_stringify : JSValue -> option string;
  Number_toString : Z -> string;
  Date_toString : Z -> string;
  bodiless_message : string
}.

(* ================================================================= *)
(** ** Abort signals *)

(** The listener [onAbort] that [getCombinedSignal] registers: a closure
    over the new controller and the signals it merges. *)
Inductive Listener := onAbort (controller : nat) (validSignals : list nat).

Record AbortSignal := {
  aborted : bool;
  reason : option HostError;
  listeners : list Listener
}.

(** The abort signals alive during a call, a signal being referred to by
    its index; a controller is identified with its signal. *)
Definition Signals : Type := list AbortSignal.

Definition fresh_signal : AbortSignal :=
  {| aborted := false; reason := None; listeners := [] |}.

Fixpoint update (i : nat) (f : AbortSignal -> AbortSignal) (st : Signals) : Signals :=
  match st, i with
  | [], _ => []
  | s :: r, O => f s :: r
  | s :: r, S i' => s :: update i' f r
  end.

Definition is_aborted (i : nat) (st : Signals) : bool :=
  match nth_error st i with Some s => aborted s | None => false end.

Definition reason_of (i : nat) (st : Signals) : option HostError :=
  match nth_error st i with Some s => reason s | None => None end.

(** The reason of an abort without an argument, and the one
    [AbortSignal.timeout] aborts with. *)
Definition AbortError : HostError :=
  {| isDOMException := true; name := "AbortError";
     message := "This operation was aborted" |}.

Definition TimeoutError : HostError :=
  {| isDOMException := true; name := "TimeoutError";
     message := "The operation was aborted due to timeout" |}.

(** Sets the aborted flag and the reason; a signal aborts once. *)
Definition mark_aborted (r : HostError) (s : AbortSignal) : AbortSignal :=
  if aborted s then s
  else {| aborted := true; reason := Some r; listeners := listeners s |}.

Definition same_listener (a b : Listener) : bool :=
  match a, b with onAbort c _, onAbort c' _ => Nat.eqb c c' end.

Definition addEventListener (l : Listener) (s : AbortSignal) : AbortSignal :=
  {| aborted := aborted s; reason := reason s; listeners := listeners s ++ [l] |}.

Definition removeEventListener (l : Listener) (s : AbortSignal) : AbortSignal :=
  {| aborted := aborted s; reason := reason s;
     listeners := filter (fun l' => negb (same_listener l l')) (listeners s) |}.

(** The body of [onAbort]: [controller.abort()], then [cleanup()]. *)
Definition run_listener (l : Listener) (st : Signals) : Signals :=
  match l with
  | onAbort c vs =>
      fold_left (fun st' s => update s (removeEventListener l) st') vs
        (update c (mark_aborted AbortError) st)
  end.

(** Signal [i] is aborted with reason [r] by its owner: the flag is set and
    the [abort] event is dispatched to the listeners registered on it. *)
Definition fire (i : nat) (r : HostError) (st : Signals) : Signals :=
  match nth_error st i with
  | Some s =>
      if aborted s then st
      else fold_left (fun st' l => run_listener l st') (listeners s)
             (update i (mark_aborted r) st)
  | None => st
  end.

(* ================================================================= *)
(** ** Effects *)

Inductive Effect :=
| ConsoleWarn (msg : string)
| Fetch (call : FetchCall)
| ReadJson
| ReadText.

Record World := {
  trace : list Effect;
  signals : Signals
}.

(** How an asynchronous computation ends: with a value, with a thrown
    error (a rejected promise), or never. *)
Inductive Completion (A : Type) : Type :=
| Normal (a : A)
| Throws (e : JSError)
| Pending.

Arguments Normal {A} a.
Arguments Throws {A} e.
Arguments Pending {A}.

Definition Eff (A : Type) : Type := World -> Completion A * World.

Definition ret {A} (a : A) : Eff A := fun w => (Normal a, w).

Definition throw {A} (e : JSError) : Eff A := fun w => (Throws e, w).

Definition bind {A B} (m : Eff A) (k : A -> Eff B) : Eff B :=
  fun w =>
    match m w with
    | (Normal a, w') => k a w'
    | (Throws e, w') => (Throws e, w')
    | (Pending, w') => (Pending, w')
    end.

Notation "x <- m ;; k" := (bind m (fun x => k))
  (at level 61, m at next level, right associativity).
Notation "m ;; k" := (bind m (fun _ => k))
  (at level 61, right associativity).

(** [try { m } catch (e) { h e }] *)
Definition try_catch {A} (m : Eff A) (h : JSError -> Eff A) : Eff A :=
  fun w =>
    match m w with
    | (Throws e, w') => h e w'
    | r => r
    end.

Definition emit (e : Effect) : Eff unit :=
  fun w => (Normal tt, {| trace := trace w ++ [e]; signals := signals w |}).

Definition get_signals : Eff Signals := fun w => (Normal (signals w), w).

Definition put_signals (st : Signals) : Eff unit :=
  fun w => (Normal tt, {| trace := trace w; signals := st |}).

(** A host primitive that throws a TypeError where it gives [None]. *)
Definition host {A} (o : option A) (msg : string) : Eff A :=
  match o with Some a => ret a | None => throw (HostThrow (TypeError msg)) end.

(** A value interpolated in a template literal. *)
Definition interpolate (H : Host) (v : JSValue) : Eff string :=
  host (js_String (Number_toString H) (Date_toString H) v)
    "Cannot convert object to primitive value".

(** [await response.json()] and [await response.text()] *)
Definition read_json (r : Response) : Eff JSValue :=
  emit ReadJson ;;
  match json r with inr v => ret v | inl e => throw (HostThrow e) end.

Definition read_text (r : Response) : Eff JSValue :=
  emit ReadText ;;
  match text r with inr s => ret (JStr s) | inl e => throw (HostThrow e) end.

(* ================================================================= *)
(** ** The network *)

(** What happens while a [fetch] is in flight, in order: the holder of a
    signal's controller aborts it, the timer behind [AbortSignal.timeout]
    runs out, the server answers, or the connection fails. *)
Inductive NetEvent :=
| AbortBy (s : nat) (r : HostError)
| TimerExpires
| Responds (r : Response)
| Fails (e : HostError).

Definition Network : Type := FetchCall -> list NetEvent.

(** The rejection of a [fetch] whose signal is aborted: the signal's
    reason. *)
Definition abort_rejection (sig : option nat) (st : Signals) : option HostError :=
  match sig with
  | Some i =>
      if is_aborted i st
      then Some (match reason_of i st with Some r => r | None => AbortError end)
      else None
  | None => None
  end.

(** The promise of a [fetch] observing [sig] settles at the first event
    that aborts [sig], answers or fails; it stays pending when the events
    run out.  [timer] is the signal of [AbortSignal.timeout], if any. *)
Fixpoint flight (sig timer : option nat) (script : list NetEvent) (st : Signals)
  : option (HostError + Response) * Signals :=
  match abort_rejection sig st with
  | Some e => (Some (inl e), st)
  | None =>
      match script with
      | [] => (None, st)
      | AbortBy s r :: rest => flight sig timer rest (fire s r st)
      | TimerExpires :: rest =>
          flight sig timer rest
            (match timer with Some t => fire t TimeoutError st | None => st end)
      | Responds r :: _ => (Some (inr r), st)
      | Fails e :: _ => (Some (inl e), st)
      end
  end.

(** A body on a GET or HEAD request. *)
Definition body_on_bodiless_method (call : FetchCall) : bool :=
  (match f_method call with GET | HEAD => true | _ => false end
   && match f_body call with Some _ => true | None => false end)%bool.

(** [await fetch(url, init)], the rejection caught as a value.  A body on
    a GET or HEAD request is rejected with a TypeError before anything is
    sent. *)
Definition fetch (H : Host) (net : Network) (call : FetchCall) (timer : option nat)
  : Eff (HostError + Response) :=
  emit (Fetch call) ;;
  if body_on_bodiless_method call
  then ret (inl (TypeError (bodiless_message H)))
  else fun w =>
    match flight (f_signal call) timer (net call) (signals w) with
    | (Some r, st) => (Normal r, {| trace := trace w; signals := st |})
    | (None, st) => (Pending, {| trace := trace w; signals := st |})
    end.

(* ================================================================= *)
(** ** HttpClient ([src/core/httpClient.ts]) *)

Record HttpClient := { config : HttpClientConfig }.

(** The string of a truthy optional string field. *)
Definition as_truthy (o : option string) : option string :=
  match o with
  | Some s => if String.eqb s "" then None else Some s
  | None => None
  end.

Definition or_empty {T} (o : option (Rec T)) : Rec T :=
  match o with Some r => r | None => [] end.

(** [new HttpClient(config)] *)
Definition new_HttpClient (cfg : HttpClientConfig) : Eff HttpClient :=
  if String.eqb (baseURL cfg) "" then
    throw (SDKError "baseURL is required in HttpClientConfig")
  else
    (if (truthy_str (apiKey cfg) && negb (truthy_str (organizationId cfg)))%bool
     then emit (ConsoleWarn "Warning: apiKey provided without organizationId. Most API Key endpoints require X-Organization-ID.")
     else ret tt) ;;
    ret {| config :=
             {| baseURL := strip_trailing_slash (baseURL cfg);
                apiKey := apiKey cfg;
                authToken := authToken cfg;
                organizationId := organizationId cfg;
                defaultHeaders :=
                  Some (spread [("Content-Type", "application/json")]
                          (or_empty (defaultHeaders cfg)));
                timeout := timeout cfg |} |}.

(** [new AbortController()], as the index of its signal. *)
Definition new_AbortController : Eff nat :=
  fun w => (Normal (List.length (signals w)),
            {| trace := trace w; signals := signals w ++ [fresh_signal] |}).

(** [AbortSignal.timeout(ms)]; a negative argument is a TypeError. *)
Definition AbortSignal_timeout (ms : Z) : Eff nat :=
  if ms <? 0 then throw (HostThrow (TypeError "Value is outside the 'unsigned long long' value range"))
  else new_AbortController.

(** [getCombinedSignal(...signals)] *)
Definition getCombinedSignal (sigs : list (option nat)) : Eff (option nat) :=
  let validSignals :=
    flat_map (fun s => match s with Some i => [i] | None => [] end) sigs in
  match validSignals with
  | [] => ret None
  | [s] => ret (Some s)
  | _ =>
      controller <- new_AbortController ;;
      st <- get_signals ;;
      put_signals
        (fold_left
           (fun st' s =>
              if is_aborted s st'
              then update controller (mark_aborted AbortError) st'
              else update s (addEventListener (onAbort controller validSignals)) st')
           validSignals st) ;;
      ret (Some controller)
  end.

(** Construct URL: the loop over [Object.entries(queryParams)]. *)
Fixpoint appendQueryParams (H : Host) (entries : Rec JSValue) (url : URL) : Eff URL :=
  match entries with
  | [] => ret url
  | (key, value) :: rest =>
      if not_nullish value then
        s <- interpolate H value ;;
        appendQueryParams H rest
          {| href := href url; searchParams := searchParams url ++ [(key, s)] |}
      else appendQueryParams H rest url
  end.

(** [this.config.baseURL + (path.startsWith('/') ? path : `/${path}`)] *)
Definition address (this : HttpClient) (path : string) : string :=
  (baseURL (config this) ++ (if startsWith "/" path then path else "/" ++ path))%string.

Definition construct_url (H : Host) (this : HttpClient) (path : string)
    (options : RequestOptions) : Eff URL :=
  url <- host (URL_parse H (address this path)) "Invalid URL" ;;
  match queryParams options with
  | Some qp => appendQueryParams H qp url
  | None => ret url
  end.

Definition set_header (n v : string) (h : Headers.t) : Eff Headers.t :=
  host (Headers.set n v h) "Invalid header".

(** Authentication & Organization *)
Definition authenticate (this : HttpClient) (path : string) (h : Headers.t)
  : Eff Headers.t :=
  match as_truthy (apiKey (config this)) with
  | Some key =>
      h <- set_header "X-API-Key" key h ;;
      h <- match as_truthy (organizationId (config this)) with
           | Some org => set_header "X-Organization-ID" org h
           | None =>
               emit (ConsoleWarn ("Making API Key request without X-Organization-ID header for path: "
                                  ++ path ++ ". This may be required.")%string) ;;
               ret h
           end ;;
      ret (Headers.delete "Authorization" h)
  | None =>
      match as_truthy (authToken (config this)) with
      | Some token =>
          h <- set_header "Authorization" ("Bearer " ++ token)%string h ;;
          match as_truthy (organizationId (config this)) with
          | Some org =>
              if Headers.has "X-Organization-ID" h then ret h
              else set_header "X-Organization-ID" org h
          | None => ret h
          end
      | None => ret h
      end
  end.

(** [body instanceof FormData || typeof body === 'string' ||
     body instanceof URLSearchParams || body instanceof Blob] *)
Definition is_passthrough (b : JSValue) : bool :=
  match b with
  | JHost _ _ | JStr _ => true
  | _ => false
  end.

(** Prepare body *)
Definition prepare_body (H : Host) (b : JSValue) (h : Headers.t)
  : Eff (option RequestBody * Headers.t) :=
  if truthy b then
    if is_passthrough b then
      ret (Some (Passthrough b), Headers.delete "Content-Type" h)
    else
      try_catch
        (s <- host (JSON_stringify H b) "Converting circular structure to JSON" ;;
         h <- (if Headers.has "Content-Type" h then ret h
               else set_header "Content-Type" "application/json" h) ;;
         ret (Some (JsonText s), h))
        (fun _ => throw (SDKError "Failed to stringify request body as JSON"))
  else ret (None, h).

(** [String(this.config.timeout)] *)
Definition timeout_text (this : HttpClient) : string :=
  match timeout (config this) with Some t => Z_to_string t | None => "undefined" end.

(** The [catch] around [fetch]. *)
Definition on_fetch_error (this : HttpClient) (timeoutSignal : option nat)
    (error : HostError) : Eff Response :=
  st <- get_signals ;;
  if (String.eqb (name error) "TimeoutError"
      || (isDOMException error && String.eqb (name error) "AbortError"
          && match timeoutSignal with
             | Some t => is_aborted t st
             | None => false
             end))%bool
  then throw (NetworkError ("Request timed out after " ++ timeout_text this ++ "ms")%string error)
  else if (isDOMException error && String.eqb (name error) "AbortError")%bool
  then throw (SDKError ("Request aborted: " ++ message error)%string)
  else throw (NetworkError ("Network request failed: " ++ message error)%string error).

(** [expectedStatus && response.status === expectedStatus] *)
Definition is_expected (expected : option Z) (r : Response) : bool :=
  match expected with
  | Some e => (negb (e =? 0) && (status r =? e))%bool
  | None => false
  end.

Definition js_typeof (v : JSValue) : string :=
  match v with
  | JUndefined => "undefined"
  | JBool _ => "boolean"
  | JNum _ | JNaN => "number"
  | JStr _ => "string"
  | _ => "object"
  end.

(** Handle error response *)
Definition handle_error_response (H : Host) (expected : option Z) (response : Response)
  : Eff unit :=
  if negb (ok response) then
    if is_expected expected response then ret tt
    else
      errorBody <-
        try_catch
          (match Headers.get "content-type" (resp_headers response) with
           | Some contentType =>
               if (negb (String.eqb contentType "")
                   && includes "application/json" contentType)%bool
               then read_json response
               else read_text response
           | None => read_text response
           end)
          (fun _ => ret JNull) ;;
      let errorMessage :=
        js_or (js_or (prop "message" errorBody) (prop "error" errorBody))
          (if String.eqb (js_typeof errorBody) "string" then errorBody
           else JStr (statusText response)) in
      if ((status response =? 401) || (status response =? 403))%bool then
        m <- interpolate H errorMessage ;;
        throw (AuthenticationError ("Authentication failed: " ++ m)%string)
      else
        m <- interpolate H errorMessage ;;
        throw (APIError ("API request failed with status "
                         ++ Z_to_string (status response) ++ ": " ++ m)%string
                 (status response) errorBody (resp_headers response))
  else ret tt.

(** [res.hasOwnProperty(k)]: the method is looked up on the object first,
    where an own property of that name shadows the inherited one and, being
    data, is not callable. *)
Definition call_hasOwnProperty (res : JSValue) (k : string) : Eff bool :=
  match res with
  | JObj ps =>
      if hasOwn "hasOwnProperty" ps
      then throw (HostThrow (TypeError "res.hasOwnProperty is not a function"))
      else ret (hasOwn k ps)
  | _ => ret false
  end.

(** The type guard [isSuccessWrapper]. *)
Definition isSuccessWrapper (res : JSValue) : Eff bool :=
  if (String.eqb (js_typeof res) "object"
      && match res with JNull => false | _ => true end
      && String.eqb (js_typeof (prop "success" res)) "boolean"
      && match prop "success" res with JBool true => true | _ => false end)%bool
  then call_hasOwnProperty res "data"
  else ret false.

(** [`${expectedStatus ?? '2xx'}`] *)
Definition expected_text (expected : option Z) : string :=
  match expected with Some e => Z_to_string e | None => "2xx" end.

(** Handle successful response *)
Definition handle_success (expected : option Z) (response : Response) : Eff JSValue :=
  try_catch
    (if ((status response =? 204)
         || match Headers.get "Content-Length" (resp_headers response) with
            | Some l => String.eqb l "0"
            | None => false
            end)%bool
     then ret JUndefined
     else
       responseBody <- read_json response ;;
       wrapped <- isSuccessWrapper responseBody ;;
       if wrapped then ret (prop "data" responseBody)
       else if is_expected expected response then ret responseBody
       else if (ok response
                && (negb (truthy_num expected)
                    || match expected with
                       | Some e => status response =? e
                       | None => false
                       end))%bool
       then ret responseBody
       else throw (SDKError ("Unexpected successful response structure or status mismatch. Status: "
                             ++ Z_to_string (status response) ++ ", Expected: "
                             ++ expected_text expected)%string))
    (fun error =>
       if instanceof_SDKError error then throw error
       else throw (SDKError ("Failed to parse response body as JSON or unexpected structure: "
                             ++ error_message error)%string)).

(** The part of [request] before the transport is invoked: the [fetch]
    arguments and the timeout signal. *)
Definition prepare_request (H : Host) (this : HttpClient) (path : string)
    (options : RequestOptions) : Eff (FetchCall * option nat) :=
  let method' := match method options with Some m => m | None => GET end in
  url <- construct_url H this path options ;;
  h <- host (Headers.new (spread (or_empty (defaultHeaders (config this)))
                            (or_empty (headers options))))
         "Invalid header" ;;
  h <- authenticate this path h ;;
  bh <- prepare_body H (body options) h ;;
  controller <- new_AbortController ;;
  timeoutSignal <-
    (if truthy_num (timeout (config this))
     then t <- AbortSignal_timeout (match timeout (config this) with
                                    | Some ms => ms
                                    | None => 0
                                    end) ;;
          ret (Some t)
     else ret None) ;;
  combinedSignal <- getCombinedSignal [signal options; Some controller; timeoutSignal] ;;
  ret ({| f_url := url; f_method := method'; f_headers := snd bh;
          f_body := fst bh; f_signal := combinedSignal |}, timeoutSignal).

(** The part of [request] after the transport has settled. *)
Definition interpret (H : Host) (this : HttpClient) (options : RequestOptions)
    (timeoutSignal : option nat) (settled : HostError + Response) : Eff JSValue :=
  response <- match settled with
              | inr response => ret response
              | inl error => on_fetch_error this timeoutSignal error
              end ;;
  handle_error_response H (expectedStatus options) response ;;
  handle_success (expectedStatus options) response.

(** [HttpClient.request(path, options)] *)
Definition request (H : Host) (net : Network) (this : HttpClient) (path : string)
    (options : RequestOptions) : Eff JSValue :=
  p <- prepare_request H this path options ;;
  settled <- fetch H net (fst p) (snd p) ;;
  interpret H this options (snd p) settled.

(** The response that [request] receives from the transport when started
    in world [w], if it receives one. *)
Definition response_received (H : Host) (net : Network) (this : HttpClient)
    (path : string) (options : RequestOptions) (w : World) : option Response :=
  match (p <- prepare_request H this path options ;; fetch H net (fst p) (snd p)) w with
  | (Normal (inr r), _) => Some r
  | _ => None
  end.

(* ================================================================= *)
(** ** formatQueryParams ([src/core/utils.ts]) *)

(** The loop [for (const key in params)]. *)
Definition formatQueryParams (params : Rec JSValue) : Rec JSValue :=
  fold_left
    (fun formatted key =>
       match rec_get key params with
       | Some (JDate t) => rec_set key (JStr (toISOString t)) formatted
       | Some v => if not_nullish v then rec_set key v formatted else formatted
       | None => formatted
       end)
    (keys params) [].

(* ================================================================= *)
(** ** WalletsAPI ([src/resources/wallets.ts]) *)

(** A schema of the validation library, through its [safeParse]. *)
Inductive SafeParseResult :=
| ParseSuccess (data : JSValue)
| ParseFailure (issues : JSValue).

Record ZodSchema := { safeParse : JSValue -> SafeParseResult }.

(** [schema.parse(v)] throws the library's error on a failure. *)
Definition parse (schema : ZodSchema) (v : JSValue) : Eff JSValue :=
  match safeParse schema v with
  | ParseSuccess d => ret d
  | ParseFailure issues => throw (ZodError issues)
  end.

(** The two schemas [create] imports from [types/wallet.types]. *)
Record WalletSchemas := {
  WalletCreateRequestSchema : ZodSchema;
  WalletSchema : ZodSchema
}.

Module WalletsAPI.

Record t := { httpClient : HttpClient }.

Definition path : string := "/wallets".

(** [WalletsAPI.create(walletData)] *)
Definition create (H : Host) (net : Network) (S : WalletSchemas) (this : t)
    (walletData : JSValue) : Eff JSValue :=
  match safeParse (WalletCreateRequestSchema S) walletData with
  | ParseFailure issues =>
      throw (ValidationError "Invalid wallet creation data" (Some issues))
  | ParseSuccess data =>
      response <- request H net (httpClient this) path
                    {| method := Some POST; queryParams := None; body := data;
                       headers := None; signal := None; expectedStatus := None |} ;;
      parse (WalletSchema S) response
  end.

End WalletsAPI.

(* ================================================================= *)
(** ** Observing a call *)

(** A world with an empty trace and the abort signals [st]. *)
Definition start (st : Signals) : World := {| trace := []; signals := st |}.

(** The reads of a response body in a trace. *)
Definition is_read (e : Effect) : bool :=
  match e with ReadJson | ReadText => true | _ => false end.

(** The success-envelope shape in the specification's words: an object
    with a boolean [success] field equal to true and a payload field
    present. *)
Definition envelope_shape (v : JSValue) : bool :=
  match v with
  | JObj ps =>
      (match rec_get "success" ps with Some (JBool true) => true | _ => false end
       && hasOwn "data" ps)%bool
  | _ => false
  end.

(** An own property named [hasOwnProperty] on a parsed body. *)
Definition shadows_hasOwnProperty (v : JSValue) : bool :=
  match v with
  | JObj ps => hasOwn "hasOwnProperty" ps
  | _ => false
  end.

(** The no-content test of [request]. *)
Definition no_content (r : Response) : bool :=
  ((status r =? 204)
   || match Headers.get "Content-Length" (resp_headers r) with
      | Some l => String.eqb l "0"
      | None => false
      end)%bool.

(* ================================================================= *)
(** ** A host to run the engine on

    A host in the manner of Node.js with the local time zone set to UTC,
    used to evaluate the engine on concrete calls. *)

Module Node.

Definition day_name (d : Z) : string :=
  nth (Z.to_nat d) ["Sun"; "Mon"; "Tue"; "Wed"; "Thu"; "Fri"; "Sat"] "".

Definition month_name (m : Z) : string :=
  nth (Z.to_nat (m - 1))
    ["Jan"; "Feb"; "Mar"; "Apr"; "May"; "Jun";
     "Jul"; "Aug"; "Sep"; "Oct"; "Nov"; "Dec"] "".

(** [Date.prototype.toString] in UTC. *)
Definition toString (t : Z) : string :=
  let days := t / msPerDay in
  let '(y, m, d) := civil_from_days days in
  let ms := t mod msPerDay in
  (day_name ((days + 4) mod 7) ++ " " ++ month_name m ++ " " ++ pad 2 d ++ " "
   ++ (if (y <? 0)%Z then "-" ++ pad 6 (Z.abs y) else pad 4 y) ++ " "
   ++ pad 2 (ms / 3600000) ++ ":" ++ pad 2 (ms / 60000 mod 60) ++ ":"
   ++ pad 2 (ms / 1000 mod 60) ++ " GMT+0000 (Coordinated Universal Time)")%string.

(** Whether the decimal [v] is read as the double [x], an integer of 54
    bits or more: [v] lies within half a unit in the last place of [x],
    the ends included when the significand of [x] is even. *)
Definition reads_as (x v : Z) : bool :=
  let e := Z.log2 x - 52 in
  let m := x / 2 ^ e in
  let below := if m =? 2 ^ 52 then 2 ^ e else 2 ^ (e + 1) in
  let above := 2 ^ (e + 1) in
  if Z.even m
  then ((4 * x - below <=? 4 * v) && (4 * v <=? 4 * x + above))%bool
  else ((4 * x - below <? 4 * v) && (4 * v <? 4 * x + above))%bool.

(** The decimal of fewest significant digits that is read as [x], the
    closest to [x] among those; [d] is the number of digits of [x] and
    [ks] the numbers of significant digits to try, in order. *)
Fixpoint shortest (x d : Z) (ks : list Z) : Z :=
  match ks with
  | [] => x
  | k :: r =>
      if d <=? k then x
      else
        let unit := 10 ^ (d - k) in
        let lo := x / unit * unit in
        let hi := lo + unit in
        match reads_as x lo, reads_as x hi with
        | true, true =>
            if x - lo <? hi - x then lo
            else if hi - x <? x - lo then hi
            else if Z.even (x / unit) then lo else hi
        | true, false => lo
        | false, true => hi
        | false, false => shortest x d r
        end
  end.

Fixpoint drop_trailing_zeros (s : string) : string :=
  match s with
  | EmptyString => EmptyString
  | String c r =>
      match drop_trailing_zeros r with
      | EmptyString => if Ascii.eqb c "0" then EmptyString else String c EmptyString
      | r' => String c r'
      end
  end.

(** [Number.prototype.toString] on an integer-valued double outside the
    safe range: the shortest digits that read back as the number,
    followed by zeros up to 21 digits and in exponent notation beyond. *)
Definition number_toString (n : Z) : string :=
  let x := Z.abs n in
  let d := Z.of_nat (String.length (Z_to_string x)) in
  let digits := Z_to_string (shortest x d (map Z.of_nat (seq 1 17))) in
  let text :=
    if (String.length digits <=? 21)%nat then digits
    else
      match drop_trailing_zeros digits with
      | String c EmptyString =>
          String c ("e+" ++ Z_to_string (Z.of_nat (String.length digits) - 1))
      | String c r =>
          String c ("." ++ r ++ "e+" ++ Z_to_string (Z.of_nat (String.length digits) - 1))
      | EmptyString => digits
      end in
  if n <? 0 then ("-" ++ text)%string else text.

Definition quote : string := String (ascii_of_nat 34) EmptyString.

Fixpoint escape (s : string) : string :=
  match s with
  | EmptyString => EmptyString
  | String c r =>
      if (Nat.eqb (nat_of_ascii c) 34 || Nat.eqb (nat_of_ascii c) 92)%bool
      then String (ascii_of_nat 92) (String c (escape r))
      else String c (escape r)
  end.

(** [JSON.stringify] on the values of the model; it does not throw on
    them. *)
Fixpoint stringify (v : JSValue) : string :=
  match v with
  | JUndefined | JNull | JNaN => "null"
  | JBool true => "true"
  | JBool false => "false"
  | JNum n => Number_text number_toString n
  | JStr s => (quote ++ escape s ++ quote)%string
  | JDate t => (quote ++ toISOString t ++ quote)%string
  | JArr xs =>
      ("[" ++ join ","
                ((fix go (l : list JSValue) : list string :=
                    match l with
                    | [] => []
                    | x :: r => stringify x :: go r
                    end) xs) ++ "]")%string
  | JObj ps =>
      ("{" ++ join ","
                ((fix go (l : list (string * JSValue)) : list string :=
                    match l with
                    | [] => []
                    | (k, JUndefined) :: r => go r
                    | (k, x) :: r =>
                        (quote ++ escape k ++ quote ++ ":" ++ stringify x)%string :: go r
                    end) ps) ++ "}")%string
  | JHost _ _ => "{}"
  end.

(** [new URL(s)] accepts the absolute http and https addresses. *)
Definition new_URL (s : string) : option URL :=
  if (startsWith "http://" s || startsWith "https://" s)%bool
  then Some {| href := s; searchParams := [] |}
  else None.

Definition host : Host :=
  {| URL_parse := new_URL;
     JSON_stringify := fun v => Some (stringify v);
     Number_toString := number_toString;
     Date_toString := toString;
     bodiless_message := "Request with GET/HEAD method cannot have body." |}.

(** A server that answers every request with [r]. *)
Definition answers (r : Response) : Network := fun _ => [Responds r].

(** A JSON response. *)
Definition json_response (st : Z) (hs : Headers.t) (v : JSValue) : Response :=
  {| status := st; statusText := "";
     resp_headers := ("content-type", "application/json") :: hs;
     json := inr v; text := inr (stringify v) |}.

(** A client configuration with a base address only. *)
Definition bare_config : HttpClientConfig :=
  {| baseURL := "https://api.example.com"; apiKey := None; authToken := None;
     organizationId := None; defaultHeaders := None; timeout := None |}.

Definition get_options : RequestOptions :=
  {| method := None; queryParams := None; body := JUndefined;
     headers := None; signal := None; expectedStatus := None |}.

(** A stand-in for the wallet schemas: the creation input must be an
    object with string fields [blockchain], [name] and [organizationId];
    the issues are the names of the fields that are not. *)
Definition is_string_field (k : string) (v : JSValue) : bool :=
  match prop k v with JStr _ => true | _ => false end.

Definition create_schema : ZodSchema :=
  {| safeParse := fun v =>
       match filter (fun k => negb (is_string_field k v))
               ["blockchain"; "name"; "organizationId"] with
       | [] => ParseSuccess
                 (JObj [("blockchain", prop "blockchain" v); ("name", prop "name" v);
                        ("user_id", prop "userId" v);
                        ("organization_id", prop "organizationId" v);
                        ("metadata", prop "metadata" v)])
       | missing => ParseFailure (JArr (map JStr missing))
       end |}.

Definition schemas : WalletSchemas :=
  {| WalletCreateRequestSchema := create_schema;
     WalletSchema := {| safeParse := ParseSuccess |} |}.

End Node.

(* ================================================================= *)
(** ** Notions used in the statements *)

(** [only keep m]: whatever [m] adds to the trace satisfies [keep]. *)
Definition only {A} (keep : Effect -> bool) (m : Eff A) : Prop :=
  forall w, exists new,
    trace (snd (m w)) = trace w ++ new /\ forallb keep new = true.

(** [keeps m]: [m] leaves the abort signals as they are. *)
Definition keeps {A} (m : Eff A) : Prop :=
  forall w, signals (snd (m w)) = signals w.

Definition is_warn (e : Effect) : bool :=
  match e with ConsoleWarn _ => true | _ => false end.

(** A response gets past "Handle error response" when it is 2xx or has the
    expected status. *)
Definition accepted (expected : option Z) (r : Response) : bool :=
  (ok r || is_expected expected r)%bool.

(** The type guard throws exactly on an object whose [success] is true and
    which has an own property named [hasOwnProperty]. *)
Definition guard_throws (v : JSValue) : bool :=
  (match prop "success" v with JBool true => true | _ => false end
   && shadows_hasOwnProperty v)%bool.

(** The result of interpreting an accepted response whose body parses. *)
Definition parsed_result (expected : option Z) (r : Response) (v : JSValue)
  : Completion JSValue :=
  if envelope_shape v then Normal (prop "data" v)
  else if (is_expected expected r || (ok r && negb (truthy_num expected)))%bool
  then Normal v
  else Throws (SDKError ("Unexpected successful response structure or status mismatch. Status: "
                         ++ Z_to_string (status r) ++ ", Expected: "
                         ++ expected_text expected)%string).

(** The body that [request] parses on the success path: none for a
    no-content response or when [response.json()] rejects. *)
Definition parsed_body (r : Response) : option JSValue :=
  if no_content r then None
  else match json r with inr v => Some v | inl _ => None end.

(** The same options without a body. *)
Definition without_body (options : RequestOptions) : RequestOptions :=
  {| method := method options; queryParams := queryParams options;
     body := JUndefined; headers := headers options; signal := signal options;
     expectedStatus := expectedStatus options |}.

(** The same host with another [JSON.stringify]. *)
Definition with_stringify (H : Host) (f : JSValue -> option string) : Host :=
  {| URL_parse := URL_parse H; JSON_stringify := f;
     Number_toString := Number_toString H; Date_toString := Date_toString H;
     bodiless_message := bodiless_message H |}.

(** An entry is kept when its value is neither [undefined] nor [null]. *)
Definition kept (kv : string * JSValue) : bool := not_nullish (snd kv).

(** What [formatQueryParams] makes of a kept entry. *)
Definition format_entry (kv : string * JSValue) : string * JSValue :=
  match snd kv with
  | JDate t => (fst kv, JStr (toISOString t))
  | _ => kv
  end.

(** [String(v)], for a value that converts. *)
Definition String_text (H : Host) (v : JSValue) : string :=
  match js_String (Number_toString H) (Date_toString H) v with
  | Some s => s
  | None => ""
  end.


Definition controller_of (l : Listener) : nat :=
  match l with onAbort c _ => c end.

(** The aborted flag and the reason of signal [i]. *)
Definition view (st : Signals) (i : nat) : option (bool * option HostError) :=
  option_map (fun s => (aborted s, reason s)) (nth_error st i).

(** The store after [getCombinedSignal] merged the caller's signal [s],
    the request's own controller and the timeout signal, the three new
    signals being the last of the store. *)
Definition armed (st : Signals) (s : nat) : Signals :=
  let n := List.length st in
  let l := onAbort (S (S n)) [s; n; S n] in
  update (S n) (addEventListener l)
    (update n (addEventListener l)
       (update s (addEventListener l)
          (st ++ [fresh_signal; fresh_signal; fresh_signal]))).

(* ================================================================= *)
(** ** Sample calls *)

Definition sample_client : HttpClient := {| config := Node.bare_config |}.

(** Options that declare an expected status. *)
Definition expecting (e : Z) : RequestOptions :=
  {| method := None; queryParams := None; body := JUndefined;
     headers := None; signal := None; expectedStatus := Some e |}.

(** Response bodies: a bare payload, the same payload in an envelope, an
    envelope that reports a failure, an error body whose message has an own
    [toString]. *)
Definition bare_wallet : JSValue := JObj [("id", JStr "1")].


Definition failure_envelope : JSValue :=
  JObj [("success", JBool false); ("error", JStr "insufficient funds")].

Definition unprintable_message : JSValue :=
  JObj [("message", JObj [("toString", JNum 0)])].

(** A response with an empty body, which does not parse as JSON. *)
Definition SyntaxError : HostError :=
  {| isDOMException := false; name := "SyntaxError";
     message := "Unexpected end of JSON input" |}.

Definition empty_response (st : Z) (reason_phrase : string) (hs : Headers.t) : Response :=
  {| status := st; statusText := reason_phrase; resp_headers := hs;
     json := inl SyntaxError; text := inr "" |}.

(** A wallet-creation input without its [name]. *)
Definition nameless_wallet : JSValue :=
  JObj [("blockchain", JStr "polygon");
        ("organizationId", JStr "7f1c2d3e-0000-4000-8000-000000000001")].

(** A client with an API key, an organization and a bearer token, default
    headers with an Authorization header, and a call that supplies another
    one; the call [request] makes of them. *)
Definition keyed_config : HttpClientConfig :=
  {| baseURL := "https://api.example.com"; apiKey := Some "k-123";
     authToken := Some "jwt"; organizationId := Some "org-9";
     defaultHeaders := Some [("Content-Type", "application/json");
                             ("Authorization", "Basic dXNlcg==")];
     timeout := None |}.

Definition keyed_options : RequestOptions :=
  {| method := Some POST; queryParams := None; body := JObj [("n", JNum 1)];
     headers := Some [("authorization", "Bearer other")]; signal := None;
     expectedStatus := None |}.

Definition keyed_call : FetchCall :=
  {| f_url := {| href := "https://api.example.com/wallets"; searchParams := [] |};
     f_method := POST;
     f_headers := [("content-type", "application/json"); ("x-api-key", "k-123");
                   ("x-organization-id", "org-9")];
     f_body := Some (JsonText (Node.stringify (JObj [("n", JNum 1)])));
     f_signal := Some 0%nat |}.

(** A POST whose body is the empty string. *)
Definition empty_string_options : RequestOptions :=
  {| method := Some POST; queryParams := None; body := JStr "";
     headers := None; signal := None; expectedStatus := None |}.

(** The query parameters of the specification's example, the Date being
    the epoch. *)
Definition epoch_params : Rec JSValue :=
  [("a", JUndefined); ("b", JNull); ("c", JDate 0); ("d", JStr "x")].



(** A client with a timeout of five seconds, a call with the caller's
    signal 0, and the call [request] makes of them. *)
Definition timed_config : HttpClientConfig :=
  {| baseURL := "https://api.example.com"; apiKey := None; authToken := Some "jwt";
     organizationId := None; defaultHeaders := None; timeout := Some 5000 |}.

Definition cancellable_options : RequestOptions :=
  {| method := None; queryParams := None; body := JUndefined;
     headers := None; signal := Some 0%nat; expectedStatus := None |}.

Definition timed_call : FetchCall :=
  {| f_url := {| href := "https://api.example.com/wallets"; searchParams := [] |};
     f_method := GET; f_headers := [("authorization", "Bearer jwt")];
     f_body := None; f_signal := Some 3%nat |}.

(* ================================================================= *)
(** ** Further resource methods

    [WalletsAPI.update], [WalletsAPI.signData] and [WalletsAPI.signMessage]
    ([src/resources/wallets.ts]), [AuthAPI.login] ([src/resources/auth.ts]),
    [ContractsAPI.listContractFunctions] and the construction part of
    [ContractsAPI.executeContractFunctionByName]
    ([src/resources/contracts.ts]), [OrganizationsAPI.list]
    ([src/resources/organizations.ts]).  The schemas of the validation
    library are parameters. *)

(** [v.k] for a key that no prototype defines; reading a property of
    [undefined] or [null] throws a TypeError. *)
Definition member (k : string) (v : JSValue) : Eff JSValue :=
  match v with
  | JUndefined =>
      throw (HostThrow (TypeError ("Cannot read properties of undefined (reading '"
                                   ++ k ++ "')")%string))
  | JNull =>
      throw (HostThrow (TypeError ("Cannot read properties of null (reading '"
                                   ++ k ++ "')")%string))
  | _ => ret (prop k v)
  end.

(** The index keys ["0"], ..., of an array or a string of length [n]. *)
Definition indices (n : nat) : list string :=
  map (fun i => Z_to_string (Z.of_nat i)) (seq 0 n).

(** [Object.keys(v)] *)
Definition Object_keys (v : JSValue) : Eff (list string) :=
  match v with
  | JUndefined | JNull =>
      throw (HostThrow (TypeError "Cannot convert undefined or null to object"))
  | JObj ps => ret (keys ps)
  | JArr xs => ret (indices (List.length xs))
  | JStr s => ret (indices (String.length s))
  | _ => ret []
  end.

(** [delete o[k]] *)
Definition rec_delete {T} (k : string) (o : Rec T) : Rec T :=
  filter (fun kv => negb (String.eqb (fst kv) k)) o.

(** The options of a call with a method and a body only. *)
Definition with_body (m : Method) (b : JSValue) : RequestOptions :=
  {| method := Some m; queryParams := None; body := b;
     headers := None; signal := None; expectedStatus := None |}.

(** [WalletsAPI.update(walletId, updateData)] *)
Definition WalletsAPI_update (H : Host) (net : Network)
    (WalletUpdateRequestSchema WalletSchema' : ZodSchema) (this : WalletsAPI.t)
    (walletId : string) (updateData : JSValue) : Eff JSValue :=
  if String.eqb walletId "" then throw (ValidationError "Wallet ID is required" None)
  else
    match safeParse WalletUpdateRequestSchema updateData with
    | ParseFailure issues =>
        throw (ValidationError "Invalid wallet update data" (Some issues))
    | ParseSuccess data =>
        ks <- Object_keys data ;;
        if Nat.eqb (List.length ks) 0 then
          throw (ValidationError "At least one field must be provided for update" None)
        else
          response <- request H net (WalletsAPI.httpClient this)
                        (WalletsAPI.path ++ "/" ++ walletId)%string
                        (with_body PATCH data) ;;
          parse WalletSchema' response
    end.

(** [WalletsAPI.signData(walletId, signRequest)] *)
Definition WalletsAPI_signData (H : Host) (net : Network)
    (SignDataRequestBase64Schema SignDataResponseSchema : ZodSchema)
    (this : WalletsAPI.t) (walletId : string) (signRequest : JSValue) : Eff JSValue :=
  if String.eqb walletId "" then throw (ValidationError "Wallet ID is required" None)
  else
    match safeParse SignDataRequestBase64Schema signRequest with
    | ParseFailure issues =>
        throw (ValidationError "Invalid signing request data" (Some issues))
    | ParseSuccess data =>
        d <- member "data" data ;;
        bodyToSend <- (if truthy d then ret (JObj [("data", d)])
                       else m <- member "message" data ;;
                            ret (JObj [("message", m)])) ;;
        response <- request H net (WalletsAPI.httpClient this)
                      (WalletsAPI.path ++ "/" ++ walletId ++ "/sign")%string
                      (with_body POST bodyToSend) ;;
        parse SignDataResponseSchema response
    end.

(** [WalletsAPI.signMessage(walletId, message)] *)
Definition WalletsAPI_signMessage (H : Host) (net : Network)
    (SignDataRequestBase64Schema SignDataResponseSchema : ZodSchema)
    (this : WalletsAPI.t) (walletId : string) (message' : string) : Eff JSValue :=
  if String.eqb message' "" then
    throw (ValidationError "Message is required for signing" None)
  else WalletsAPI_signData H net SignDataRequestBase64Schema SignDataResponseSchema
         this walletId (JObj [("message", JStr message')]).

(** [AuthAPI.login(loginData)]; the endpoint is chosen on the caller's
    [loginData], the body is the validated data. *)
Definition AuthAPI_login (H : Host) (net : Network)
    (UserLoginRequestSchema TokenResponseSchema : ZodSchema)
    (httpClient : HttpClient) (loginData : JSValue) : Eff JSValue :=
  match safeParse UserLoginRequestSchema loginData with
  | ParseFailure issues => throw (ValidationError "Invalid login data" (Some issues))
  | ParseSuccess data =>
      mfaCode <- member "mfaCode" loginData ;;
      let endpoint := if truthy mfaCode then "/auth/mfa/verify" else "/auth/login" in
      response <- request H net httpClient endpoint (with_body POST data) ;;
      parse TokenResponseSchema response
  end.

(** The test on the verification headers that the three contract methods
    repeat; the headers are an object with string values. *)
Definition verification_rejected (verificationHeaders : Rec string) : bool :=
  let hasWalletId := hasOwn "X-Wallet-ID" verificationHeaders in
  let hasWalletAddress := hasOwn "X-Wallet-Address" verificationHeaders in
  ((negb hasWalletId && negb hasWalletAddress)
   || (hasWalletId && negb (truthy_str (rec_get "X-Wallet-ID" verificationHeaders)))
   || (hasWalletAddress
       && negb (truthy_str (rec_get "X-Wallet-Address" verificationHeaders))))%bool.

Definition verification_message : string :=
  "A valid X-Wallet-ID or X-Wallet-Address header is required for verification".

(** [ContractsAPI.listContractFunctions(contractAddress, network,
    verificationHeaders)]; [ContractFunctionsSchema] is the array schema of
    the response. *)
Definition ContractsAPI_listContractFunctions (H : Host) (net : Network)
    (ContractFunctionsSchema : ZodSchema) (httpClient : HttpClient)
    (contractAddress network : string) (verificationHeaders : Rec string)
  : Eff JSValue :=
  if String.eqb contractAddress "" then
    throw (ValidationError "Contract Address is required" None)
  else if String.eqb network "" then
    throw (ValidationError "Network query parameter is required" None)
  else if verification_rejected verificationHeaders then
    throw (ValidationError verification_message None)
  else
    response <- request H net httpClient
                  ("/contracts/abi/" ++ contractAddress ++ "/functions")%string
                  {| method := Some GET;
                     queryParams := Some [("network", JStr network)];
                     body := JUndefined; headers := Some verificationHeaders;
                     signal := None; expectedStatus := None |} ;;
    parse ContractFunctionsSchema response.

(** The part of [ContractsAPI.executeContractFunctionByName] that checks
    its arguments and builds the path and the options it then logs and
    hands to [request]. *)
Definition execute_request (contractAddress network functionName : string)
    (verificationHeaders : Rec string) (parameters : Rec JSValue)
  : JSError + (string * RequestOptions) :=
  if String.eqb contractAddress "" then
    inl (ValidationError "Contract Address is required" None)
  else if String.eqb network "" then inl (ValidationError "Network is required" None)
  else if String.eqb functionName "" then
    inl (ValidationError "Function Name is required" None)
  else if verification_rejected verificationHeaders then
    inl (ValidationError verification_message None)
  else
    let walletAddress :=
      match rec_get "walletAddress" parameters with
      | Some v => v
      | None => JUndefined
      end in
    let walletAddress :=
      if (negb (truthy walletAddress) && hasOwn "X-Wallet-Address" verificationHeaders)%bool
      then match rec_get "X-Wallet-Address" verificationHeaders with
           | Some a => JStr a
           | None => JUndefined
           end
      else walletAddress in
    if negb (truthy walletAddress) then
      inl (ValidationError "WalletAddress is required. Provide it in parameters.walletAddress or use X-Wallet-Address header" None)
    else
      let paramsCopy := rec_delete "walletAddress" (spread [] parameters) in
      let requestBody :=
        JObj [("network", JStr network); ("parameters", JObj paramsCopy);
              ("wallet_address", walletAddress)] in
      inr (("/contract-interactions/contracts/" ++ contractAddress
            ++ "/execute-by-name/" ++ functionName)%string,
           {| method := Some POST; queryParams := None; body := requestBody;
              headers := Some verificationHeaders; signal := None;
              expectedStatus := None |}).

(** The validated list parameters of [OrganizationListParamsSchema], as
    its inferred type has them. *)
Record OrganizationListParams := {
  page : option Z;
  limit : option Z;
  search : option string
}.

Definition opt_entry (k : string) (o : option JSValue) : Rec JSValue :=
  match o with Some v => [(k, v)] | None => [] end.

(** The validated data as an object, its keys in the order of the schema. *)
Definition list_params_object (d : OrganizationListParams) : Rec JSValue :=
  opt_entry "page" (option_map JNum (page d))
  ++ opt_entry "limit" (option_map JNum (limit d))
  ++ opt_entry "search" (option_map JStr (search d)).

(** [((queryParams.page || 1) - 1) * (queryParams.limit || 10)], on
    integers whose product is a safe integer. *)
Definition page_offset (p : Z) (l : option Z) : Z :=
  ((if p =? 0 then 1 else p) - 1)
  * (match l with Some n => if n =? 0 then 10 else n | None => 10 end).

(** [OrganizationsAPI.list(params)]; [validate] is the [safeParse] of
    [OrganizationListParamsSchema]. *)
Definition OrganizationsAPI_list (H : Host) (net : Network)
    (validate : JSValue -> JSValue + OrganizationListParams)
    (OrganizationListResponseSchema : ZodSchema) (httpClient : HttpClient)
    (params : JSValue) : Eff JSValue :=
  match validate (js_or params (JObj [])) with
  | inl issues => throw (ValidationError "Invalid list parameters" (Some issues))
  | inr data =>
      let queryParams := spread [] (list_params_object data) in
      let queryParams :=
        match page data with
        | Some p =>
            rec_delete "page"
              (rec_set "offset" (JNum (page_offset p (limit data))) queryParams)
        | None => queryParams
        end in
      let formattedParams := formatQueryParams queryParams in
      response <- request H net httpClient "/organizations"
                    {| method := Some GET; queryParams := Some formattedParams;
                       body := JUndefined; headers := None; signal := None;
                       expectedStatus := None |} ;;
      parse OrganizationListResponseSchema response
  end.

(* ================================================================= *)
(** ** Further notions used in the statements *)

(** The [fetch] calls of a trace. *)
Definition fetch_calls (t : list Effect) : list FetchCall :=
  flat_map (fun e => match e with Fetch c => [c] | _ => [] end) t.

(** The signals that [getCombinedSignal] keeps. *)
Definition valid_signals (sigs : list (option nat)) : list nat :=
  flat_map (fun s => match s with Some i => [i] | None => [] end) sigs.

(** The caller's signal is a signal of the store. *)
Definition caller_in_store (options : RequestOptions) (st : Signals) : Prop :=
  match signal options with
  | Some s => (s < List.length st)%nat
  | None => True
  end.

(** The caller's signal is already aborted. *)
Definition caller_aborted (options : RequestOptions) (st : Signals) : bool :=
  match signal options with
  | Some s => is_aborted s st
  | None => false
  end.

(** The response declares a JSON body. *)
Definition declares_json (r : Response) : bool :=
  match Headers.get "content-type" (resp_headers r) with
  | Some contentType =>
      (negb (String.eqb contentType "") && includes "application/json" contentType)%bool
  | None => false
  end.

(** The body that an error carries: the parsed JSON of a response that
    declares JSON, the text of any other, [null] when the read fails. *)
Definition error_body (r : Response) : JSValue :=
  if declares_json r
  then match json r with inr v => v | inl _ => JNull end
  else match text r with inr s => JStr s | inl _ => JNull end.

(** The value interpolated in the message of an error: the body's
    [message], else its [error], else the body if it is a string, else the
    status text. *)
Definition error_detail (r : Response) : JSValue :=
  js_or (js_or (prop "message" (error_body r)) (prop "error" (error_body r)))
    (match error_body r with
     | JStr _ => error_body r
     | _ => JStr (statusText r)
     end).

(** A configuration with a given base address. *)
Definition based_at (cfg : HttpClientConfig) (b : string) : HttpClientConfig :=
  {| baseURL := b; apiKey := apiKey cfg; authToken := authToken cfg;
     organizationId := organizationId cfg; defaultHeaders := defaultHeaders cfg;
     timeout := timeout cfg |}.

(** The last character of a string is a slash. *)
Fixpoint ends_with_slash (s : string) : bool :=
  match s with
  | EmptyString => false
  | String c EmptyString => Ascii.eqb c "/"
  | String _ r => ends_with_slash r
  end.

(* ================================================================= *)
(** ** Further sample calls and notions *)

(** The body of a 404 response. *)
Definition not_found_body : JSValue := JObj [("error", JStr "not found")].

(** A POST of a string body with a Content-Type of the caller, and the call
    made of it. *)
Definition text_options : RequestOptions :=
  {| method := Some POST; queryParams := None; body := JStr "a=1";
     headers := Some [("Content-Type", "text/plain")]; signal := None;
     expectedStatus := None |}.

Definition text_call : FetchCall :=
  {| f_url := {| href := "https://api.example.com/echo"; searchParams := [] |};
     f_method := POST; f_headers := []; f_body := Some (Passthrough (JStr "a=1"));
     f_signal := Some 0%nat |}.

(** A computation that ends normally or with a host error. *)
Definition host_failures {A} (m : Eff A) : Prop :=
  forall w, match fst (m w) with
            | Normal _ | Throws (HostThrow _) => True
            | _ => False
            end.

(** A host whose [JSON.stringify] throws on every value. *)
Definition mute_host : Host :=
  {| URL_parse := URL_parse Node.host; JSON_stringify := fun _ => None;
     Number_toString := Number_toString Node.host;
     Date_toString := Date_toString Node.host;
     bodiless_message := bodiless_message Node.host |}.

(** The call that the sample client makes of a GET without options. *)
Definition bare_call : FetchCall :=
  {| f_url := {| href := "https://api.example.com/wallets"; searchParams := [] |};
     f_method := GET; f_headers := []; f_body := None; f_signal := Some 0%nat |}.

(** Options with a body and no method, and the call made of them. *)
Definition get_with_body : RequestOptions :=
  {| method := None; queryParams := None; body := JObj [("n", JNum 1)];
     headers := None; signal := None; expectedStatus := None |}.

Definition bodied_get : FetchCall :=
  {| f_url := {| href := "https://api.example.com/wallets"; searchParams := [] |};
     f_method := GET; f_headers := [("content-type", "application/json")];
     f_body := Some (JsonText (Node.stringify (JObj [("n", JNum 1)])));
     f_signal := Some 0%nat |}.

(** The client that the constructor builds from the bare configuration, and
    its call for a GET without options. *)
Definition built_client : HttpClient :=
  {| config :=
       {| baseURL := "https://api.example.com"; apiKey := None; authToken := None;
          organizationId := None;
          defaultHeaders := Some [("Content-Type", "application/json")];
          timeout := None |} |}.

Definition built_call : FetchCall :=
  {| f_url := {| href := "https://api.example.com/wallets"; searchParams := [] |};
     f_method := GET; f_headers := [("content-type", "application/json")];
     f_body := None; f_signal := Some 0%nat |}.

(** A schema that accepts every input as it is. *)
Definition any_schema : ZodSchema := {| safeParse := ParseSuccess |}.

(** A signing request with both fields, and the call made of it. *)
Definition sign_both : JSValue :=
  JObj [("message", JStr "hello"); ("data", JStr "aGVsbG8=")].

Definition sign_call : FetchCall :=
  {| f_url := {| href := "https://api.example.com/wallets/w1/sign"; searchParams := [] |};
     f_method := POST; f_headers := [("content-type", "application/json")];
     f_body := Some (JsonText (Node.stringify (JObj [("data", JStr "aGVsbG8=")])));
     f_signal := Some 0%nat |}.

(** A login schema that keeps the e-mail address and the password only. *)
Definition credentials_schema : ZodSchema :=
  {| safeParse := fun v =>
       ParseSuccess (JObj [("email", prop "email" v); ("password", prop "password" v)]) |}.

(** A login with a second factor, and the call made of it. *)
Definition login_with_code : JSValue :=
  JObj [("email", JStr "a@b.c"); ("password", JStr "pw"); ("mfaCode", JStr "123456")].

Definition login_call : FetchCall :=
  {| f_url := {| href := "https://api.example.com/auth/mfa/verify"; searchParams := [] |};
     f_method := POST; f_headers := [("content-type", "application/json")];
     f_body := Some (JsonText (Node.stringify
                                 (JObj [("email", JStr "a@b.c"); ("password", JStr "pw")])));
     f_signal := Some 0%nat |}.

(** The call that lists the functions of a contract on polygon. *)
Definition functions_call : FetchCall :=
  {| f_url := {| href := "https://api.example.com/contracts/abi/0xabc/functions";
                 searchParams := [("network", "polygon")] |};
     f_method := GET; f_headers := [("x-wallet-id", "w1")]; f_body := None;
     f_signal := Some 0%nat |}.

(** The parameters of a transfer that name the sending wallet, and the
    request built of them. *)
Definition transfer_parameters : Rec JSValue :=
  [("to", JStr "0xdef"); ("walletAddress", JStr "0x123"); ("amount", JNum 5)].

Definition transfer_request : string * RequestOptions :=
  ("/contract-interactions/contracts/0xabc/execute-by-name/transfer",
   {| method := Some POST; queryParams := None;
      body := JObj [("network", JStr "polygon");
                    ("parameters", JObj [("to", JStr "0xdef"); ("amount", JNum 5)]);
                    ("wallet_address", JStr "0x123")];
      headers := Some [("X-Wallet-ID", "w1")]; signal := None;
      expectedStatus := None |}).

(** The third page of twenty-five entries, and the call made of it. *)
Definition third_page : OrganizationListParams :=
  {| page := Some 3; limit := Some 25; search := None |}.

Definition third_page_call : FetchCall :=
  {| f_url := {| href := "https://api.example.com/organizations";
                 searchParams := [("limit", "25"); ("offset", "50")] |};
     f_method := GET; f_headers := []; f_body := None; f_signal := Some 0%nat |}.

(** An update of the name of a wallet, and the call made of it. *)
Definition renaming : JSValue := JObj [("name", JStr "Treasury")].

Definition update_call : FetchCall :=
  {| f_url := {| href := "https://api.example.com/wallets/w1"; searchParams := [] |};
     f_method := PATCH; f_headers := [("content-type", "application/json")];
     f_body := Some (JsonText (Node.stringify renaming)); f_signal := Some 0%nat |}.

(** A client with an API key and no organization, and its call. *)
Definition lone_key_config : HttpClientConfig :=
  {| baseURL := "https://api.example.com"; apiKey := Some "k-123"; authToken := None;
     organizationId := None; defaultHeaders := None; timeout := None |}.

Definition lone_key_call : FetchCall :=
  {| f_url := {| href := "https://api.example.com/wallets"; searchParams := [] |};
     f_method := GET; f_headers := [("x-api-key", "k-123")]; f_body := None;
     f_signal := Some 0%nat |}.

(** The call that signs the message [hello]. *)
Definition message_call : FetchCall :=
  {| f_url := {| href := "https://api.example.com/wallets/w1/sign"; searchParams := [] |};
     f_method := POST; f_headers := [("content-type", "application/json")];
     f_body := Some (JsonText (Node.stringify (JObj [("message", JStr "hello")])));
     f_signal := Some 0%nat |}.

(* ================================================================= *)
(** * Properties *)

(** ** Records and headers *)

Lemma rec_get_set_same {T} (k : string) (v : T) (o : Rec T) :
  rec_get k (rec_set k v o) = Some v.
Proof.
  induction o as [|[k' v'] r IH]; simpl.
  - now rewrite String.eqb_refl.
  - destruct (String.eqb k' k) eqn:E; simpl; rewrite E; auto.
Qed.

Lemma rec_get_set_other {T} (k k' : string) (v : T) (o : Rec T) :
  k <> k' -> rec_get k (rec_set k' v o) = rec_get k o.
Proof.
  intros Hne. induction o as [|[k0 v0] r IH]; simpl.
  - destruct (String.eqb k' k) eqn:E; auto.
    apply String.eqb_eq in E. congruence.
  - destruct (String.eqb k0 k') eqn:E; simpl.
    + apply String.eqb_eq in E. subst k0.
      destruct (String.eqb k' k) eqn:E'; auto.
      apply String.eqb_eq in E'. congruence.
    + now rewrite IH.
Qed.

Lemma rec_get_filter_other {T} (k k' : string) (o : Rec T) :
  k <> k' ->
  rec_get k (filter (fun kv => negb (String.eqb (fst kv) k')) o) = rec_get k o.
Proof.
  intros Hne. induction o as [|[k0 v0] r IH]; simpl; auto.
  destruct (String.eqb k0 k') eqn:E; simpl.
  - apply String.eqb_eq in E. subst k0.
    destruct (String.eqb k' k) eqn:E'; auto.
    apply String.eqb_eq in E'. congruence.
  - now rewrite IH.
Qed.

Lemma rec_get_filter_same {T} (k : string) (o : Rec T) :
  rec_get k (filter (fun kv => negb (String.eqb (fst kv) k)) o) = None.
Proof.
  induction o as [|[k0 v0] r IH]; simpl; auto.
  destruct (String.eqb k0 k) eqn:E; simpl; auto.
  now rewrite E.
Qed.

Lemma headers_get_set_same (n v : string) (h h' : Headers.t) :
  Headers.set n v h = Some h' -> Headers.get n h' = Some (Headers.normalize v).
Proof.
  unfold Headers.set, Headers.get. intros Hs.
  destruct (Headers.valid_name n && Headers.valid_value (Headers.normalize v))%bool;
    [|discriminate].
  injection Hs as <-. apply rec_get_set_same.
Qed.

Lemma headers_get_set_other (n n' v : string) (h h' : Headers.t) :
  toLowerCase n <> toLowerCase n' ->
  Headers.set n' v h = Some h' -> Headers.get n h' = Headers.get n h.
Proof.
  unfold Headers.set, Headers.get. intros Hne Hs.
  destruct (Headers.valid_name n' && Headers.valid_value (Headers.normalize v))%bool;
    [|discriminate].
  injection Hs as <-. now apply rec_get_set_other.
Qed.

Lemma headers_get_delete_other (n n' : string) (h : Headers.t) :
  toLowerCase n <> toLowerCase n' ->
  Headers.get n (Headers.delete n' h) = Headers.get n h.
Proof.
  unfold Headers.delete, Headers.get. intros Hne. now apply rec_get_filter_other.
Qed.

Lemma headers_has_delete_same (n : string) (h : Headers.t) :
  Headers.has n (Headers.delete n h) = false.
Proof.
  unfold Headers.has, Headers.delete, hasOwn. now rewrite rec_get_filter_same.
Qed.

Lemma headers_has_get (n : string) (h : Headers.t) :
  Headers.has n h = match Headers.get n h with Some _ => true | None => false end.
Proof. reflexivity. Qed.

(** ** The effects of the phases of a call *)

Lemma only_ret {A} keep (a : A) : only keep (ret a).
Proof. intros w. exists []. simpl. now rewrite app_nil_r. Qed.

Lemma only_throw {A} keep e : only keep (@throw A e).
Proof. intros w. exists []. simpl. now rewrite app_nil_r. Qed.

Lemma only_host {A} keep (o : option A) msg : only keep (host o msg).
Proof. destruct o; [apply only_ret | apply only_throw]. Qed.

Lemma only_emit keep e : keep e = true -> only keep (emit e).
Proof. intros Hk w. exists [e]. simpl. now rewrite Hk. Qed.

Lemma only_bind {A B} keep (m : Eff A) (k : A -> Eff B) :
  only keep m -> (forall a, only keep (k a)) -> only keep (bind m k).
Proof.
  intros Hm Hk w. unfold bind.
  destruct (Hm w) as [n1 [E1 F1]].
  destruct (m w) as [[a|e|] w1]; simpl in *; try (exists n1; now split).
  destruct (Hk a w1) as [n2 [E2 F2]].
  exists (n1 ++ n2). rewrite E2, E1, app_assoc, forallb_app, F1, F2. now split.
Qed.

Lemma only_try_catch {A} keep (m : Eff A) (h : JSError -> Eff A) :
  only keep m -> (forall e, only keep (h e)) -> only keep (try_catch m h).
Proof.
  intros Hm Hh w. unfold try_catch.
  destruct (Hm w) as [n1 [E1 F1]].
  destruct (m w) as [[a|e|] w1]; simpl in *; try (exists n1; now split).
  destruct (Hh e w1) as [n2 [E2 F2]].
  exists (n1 ++ n2). rewrite E2, E1, app_assoc, forallb_app, F1, F2. now split.
Qed.

(** A computation that touches the abort signals only. *)
Lemma only_signals {A} keep (m : Eff A) :
  (forall w, trace (snd (m w)) = trace w) -> only keep m.
Proof. intros Hm w. exists []. rewrite Hm. now rewrite app_nil_r. Qed.

Ltac only_step :=
  first
    [ apply only_ret | apply only_throw | apply only_host
    | apply only_emit; reflexivity
    | apply only_bind; [|intro]
    | apply only_try_catch; [|intro]
    | apply only_signals; intro; reflexivity
    | match goal with
      | |- only _ (match ?x with _ => _ end) => destruct x
      | |- only _ (let (_, _) := ?x in _) => destruct x
      end ].

Lemma only_appendQueryParams keep H qp url : only keep (appendQueryParams H qp url).
Proof.
  revert url. induction qp as [|[k v] r IH]; intros url; simpl.
  - apply only_ret.
  - destruct (not_nullish v); [|apply IH].
    apply only_bind; [apply only_host|intro; apply IH].
Qed.

Lemma only_getCombinedSignal keep sigs : only keep (getCombinedSignal sigs).
Proof.
  unfold getCombinedSignal.
  destruct (flat_map _ sigs) as [|a [|b l]]; repeat only_step.
Qed.

Lemma only_prepare_request H this path options :
  only is_warn (prepare_request H this path options).
Proof.
  unfold prepare_request, construct_url, authenticate, prepare_body, set_header,
    AbortSignal_timeout.
  apply only_bind.
  { apply only_bind; [apply only_host|intro].
    destruct (queryParams options); [apply only_appendQueryParams|apply only_ret]. }
  intro. apply only_bind; [apply only_host|intro].
  apply only_bind; [repeat only_step|intro].
  apply only_bind; [repeat only_step|intro].
  apply only_bind; [repeat only_step|intro].
  apply only_bind; [repeat only_step|intro].
  apply only_bind; [apply only_getCombinedSignal|intro].
  apply only_ret.
Qed.

Lemma fetch_trace H net call timer w :
  trace (snd (fetch H net call timer w)) = trace w ++ [Fetch call].
Proof.
  unfold fetch, bind, emit. simpl.
  destruct (body_on_bodiless_method call); simpl; auto.
  destruct (flight _ _ _ _) as [[r|] st]; reflexivity.
Qed.

Lemma only_isSuccessWrapper keep v : only keep (isSuccessWrapper v).
Proof. unfold isSuccessWrapper, call_hasOwnProperty. repeat only_step. Qed.

Lemma only_interpret H this options ts settled :
  only is_read (interpret H this options ts settled).
Proof.
  unfold interpret, on_fetch_error, handle_error_response, handle_success,
    read_json, read_text, interpolate.
  apply only_bind; [repeat only_step|intro].
  apply only_bind; [repeat only_step|intro].
  apply only_try_catch; [|intro; repeat only_step].
  destruct (_ || _)%bool; [apply only_ret|].
  apply only_bind; [repeat only_step|intro].
  apply only_bind; [apply only_isSuccessWrapper|intro].
  repeat only_step.
Qed.

(** ** From [request] to the interpretation of a response *)

Lemma request_received H net this path options w r :
  response_received H net this path options w = Some r ->
  exists ts w2 call ws,
    request H net this path options w = interpret H this options ts (inr r) w2
    /\ trace w2 = trace w ++ ws ++ [Fetch call]
    /\ forallb is_warn ws = true.
Proof.
  unfold response_received, request, bind. intros Hr.
  destruct (only_prepare_request H this path options w) as [ws [Et Fw]].
  destruct (prepare_request H this path options w) as [[p|e|] w1]; try discriminate.
  pose proof (fetch_trace H net (fst p) (snd p) w1) as Ef.
  destruct (fetch H net (fst p) (snd p) w1) as [[[e|r']|e|] w2]; try discriminate.
  injection Hr as ->. simpl in *.
  exists (snd p), w2, (fst p), ws. repeat split; auto.
  now rewrite Ef, Et, app_assoc.
Qed.

Lemma isSuccessWrapper_total v w :
  guard_throws v = false -> isSuccessWrapper v w = (Normal (envelope_shape v), w).
Proof.
  unfold guard_throws, isSuccessWrapper, call_hasOwnProperty, envelope_shape.
  destruct v; simpl; try reflexivity.
  destruct (rec_get "success" props) as [[]|]; simpl; try reflexivity.
  destruct b; simpl; try reflexivity.
  intros ->. reflexivity.
Qed.

Lemma handle_error_response_accepted H expected r w :
  accepted expected r = true ->
  handle_error_response H expected r w = (Normal tt, w).
Proof.
  unfold accepted, handle_error_response. intros Ha.
  destruct (ok r); simpl in *; [reflexivity|]. now rewrite Ha.
Qed.

Lemma interpret_no_content H this options ts r w :
  accepted (expectedStatus options) r = true ->
  no_content r = true ->
  interpret H this options ts (inr r) w = (Normal JUndefined, w).
Proof.
  intros Ha Hn. unfold interpret, bind, ret.
  rewrite handle_error_response_accepted by assumption.
  unfold handle_success, try_catch. unfold no_content in Hn. now rewrite Hn.
Qed.

Lemma interpret_parsed H this options ts r v w :
  accepted (expectedStatus options) r = true ->
  no_content r = false ->
  json r = inr v ->
  guard_throws v = false ->
  fst (interpret H this options ts (inr r) w) = parsed_result (expectedStatus options) r v.
Proof.
  intros Ha Hn Hj Hg. unfold interpret, bind, ret.
  rewrite handle_error_response_accepted by assumption.
  unfold handle_success, try_catch, bind, read_json, emit, ret, parsed_result.
  unfold no_content in Hn. rewrite Hn, Hj. simpl.
  rewrite isSuccessWrapper_total by assumption.
  destruct (envelope_shape v); [reflexivity|].
  destruct (is_expected (expectedStatus options) r) eqn:Ee; [reflexivity|]. simpl.
  destruct (ok r) eqn:Eo; simpl; [|reflexivity].
  unfold is_expected, truthy_num in *.
  destruct (expectedStatus options) as [e|]; simpl in *; [|reflexivity].
  destruct (e =? 0); simpl in *; [reflexivity|].
  rewrite Ee. reflexivity.
Qed.

Lemma parsed_body_inv r v :
  parsed_body r = Some v -> no_content r = false /\ json r = inr v.
Proof.
  unfold parsed_body. destruct (no_content r); [discriminate|].
  destruct (json r); [discriminate|]. now intros [= ->].
Qed.

Lemma request_parsed H net this path options w r v :
  response_received H net this path options w = Some r ->
  accepted (expectedStatus options) r = true ->
  parsed_body r = Some v ->
  guard_throws v = false ->
  fst (request H net this path options w) = parsed_result (expectedStatus options) r v.
Proof.
  intros Hr Ha Hp Hg.
  destruct (request_received _ _ _ _ _ _ _ Hr) as (ts & w2 & call & ws & -> & _).
  apply parsed_body_inv in Hp as [Hn Hj].
  now apply interpret_parsed.
Qed.


(** ** C1: a body that is not an envelope *)




(** ** C4: the envelope is unwrapped, a bare body passes through *)




(** ** C9: an envelope that reports failure *)

(** C9, as amended.  For a 2xx response whose parsed body is an object with
    [success] equal to false, or with [success] equal to true but neither
    an own [data] property nor an own property named [hasOwnProperty]: if
    no [expectedStatus] was declared or the status equals it, [request]
    returns the whole object unchanged. *)
Theorem failed_envelope_passed_through :
  forall H net this path options w r ps,
    response_received H net this path options w = Some r ->
    ok r = true ->
    parsed_body r = Some (JObj ps) ->
    (rec_get "success" ps = Some (JBool false)
     \/ (rec_get "success" ps = Some (JBool true)
         /\ hasOwn "data" ps = false
         /\ hasOwn "hasOwnProperty" ps = false)) ->
    (negb (truthy_num (expectedStatus options))
     || is_expected (expectedStatus options) r)%bool = true ->
    fst (request H net this path options w) = Normal (JObj ps).
Proof.
  intros H net this path options w r ps Hr Ho Hp Hshape Hc.
  assert (Hg : guard_throws (JObj ps) = false /\ envelope_shape (JObj ps) = false).
  { unfold guard_throws, envelope_shape. simpl.
    destruct Hshape as [-> | (-> & -> & ->)]; auto. }
  destruct Hg as [Hg He].
  rewrite (request_parsed _ _ _ _ _ _ r (JObj ps)); auto.
  - unfold parsed_result. rewrite He, Ho. simpl.
    destruct (is_expected (expectedStatus options) r); simpl; [reflexivity|].
    rewrite orb_false_r in Hc. now rewrite Hc.
  - unfold accepted. now rewrite Ho.
Qed.

Lemma failed_envelope_passed_through_witness :
  fst (request Node.host (Node.answers (Node.json_response 200 [] failure_envelope))
         sample_client "/transactions" Node.get_options (start []))
  = Normal failure_envelope.
Proof.
  apply (failed_envelope_passed_through Node.host _ sample_client "/transactions"
           Node.get_options (start []) (Node.json_response 200 [] failure_envelope));
    try reflexivity.
  left. reflexivity.
Defined.

(** C9, as stated, fails: the 2xx response 200 carrying
    [{success: false, error: ...}] to a call that declared
    [expectedStatus: 201] is turned into an error by [request]. *)
Lemma failure_envelope_under_expected_201 :
  let r := Node.json_response 200 [] failure_envelope in
  response_received Node.host (Node.answers r) sample_client "/abis"
    (expecting 201) (start []) = Some r
  /\ ok r = true
  /\ parsed_body r = Some failure_envelope
  /\ prop "success" failure_envelope = JBool false
  /\ fst (request Node.host (Node.answers r) sample_client "/abis"
            (expecting 201) (start []))
     = Throws (SDKError "Unexpected successful response structure or status mismatch. Status: 200, Expected: 201")
  /\ fst (request Node.host (Node.answers r) sample_client "/abis"
            (expecting 201) (start []))
     <> Normal failure_envelope.
Proof. repeat split. discriminate. Qed.

(** ** C7: no-content responses *)

Lemma warnings_are_not_reads ws :
  forallb is_warn ws = true -> filter is_read ws = [].
Proof.
  induction ws as [|e r IH]; simpl; auto.
  destruct e; simpl; try discriminate. exact IH.
Qed.

(** C7, as amended.  For every response with status 204, and for every
    response with a 2xx status or the declared [expectedStatus] whose
    Content-Length header is [0], [request] returns [undefined] and never
    reads the body, whatever the body is. *)
Theorem no_content_skips_parsing :
  forall H net this path options w r,
    response_received H net this path options w = Some r ->
    (status r = 204
     \/ (accepted (expectedStatus options) r = true
         /\ Headers.get "Content-Length" (resp_headers r) = Some "0")) ->
    fst (request H net this path options w) = Normal JUndefined
    /\ filter is_read (trace (snd (request H net this path options w)))
       = filter is_read (trace w).
Proof.
  intros H net this path options w r Hr Hc.
  destruct (request_received _ _ _ _ _ _ _ Hr) as (ts & w2 & call & ws & -> & Et & Fw).
  rewrite interpret_no_content; simpl.
  - split; [reflexivity|].
    rewrite Et, !filter_app, (warnings_are_not_reads ws Fw). simpl.
    now rewrite app_nil_r.
  - destruct Hc as [Hs | [Ha _]]; [|exact Ha].
    unfold accepted, ok. now rewrite Hs.
  - unfold no_content. destruct Hc as [Hs | [_ Hl]].
    + now rewrite Hs.
    + rewrite Hl. simpl. apply orb_true_r.
Qed.

Lemma no_content_skips_parsing_witness :
  fst (request Node.host (Node.answers (empty_response 204 "No Content" []))
         sample_client "/wallets/1" Node.get_options (start []))
  = Normal JUndefined
  /\ filter is_read
       (trace (snd (request Node.host (Node.answers (empty_response 204 "No Content" []))
                      sample_client "/wallets/1" Node.get_options (start []))))
     = filter is_read (trace (start [])).
Proof.
  apply (no_content_skips_parsing Node.host _ sample_client "/wallets/1"
           Node.get_options (start []) (empty_response 204 "No Content" [])).
  - reflexivity.
  - left. reflexivity.
Defined.

(** C7, as stated, fails: a 404 response with [Content-Length: 0] does not
    yield [undefined]; "Handle error response" comes first, reads the body
    as text and throws an API error. *)
Lemma not_found_with_zero_length :
  let r := empty_response 404 "Not Found" [("content-length", "0")] in
  let run := request Node.host (Node.answers r) sample_client "/wallets/1"
               Node.get_options (start []) in
  response_received Node.host (Node.answers r) sample_client "/wallets/1"
    Node.get_options (start []) = Some r
  /\ Headers.get "Content-Length" (resp_headers r) = Some "0"
  /\ fst run = Throws (APIError "API request failed with status 404: " 404 (JStr "")
                         [("content-length", "0")])
  /\ fst run <> Normal JUndefined
  /\ In ReadText (trace (snd run)).
Proof. repeat split; [discriminate | right; left; reflexivity]. Qed.

(** ** C5: 401 and 403 *)

(** A response with status 401 or 403 that is not the expected status never
    yields a payload or an API error: [request] throws an Authentication
    error, unless the interpolation of the error message throws first. *)
Lemma unauthorized_outcome H this options ts r w :
  (status r = 401 \/ status r = 403) ->
  is_expected (expectedStatus options) r = false ->
  (exists m, fst (interpret H this options ts (inr r) w) = Throws (AuthenticationError m))
  \/ fst (interpret H this options ts (inr r) w)
     = Throws (HostThrow (TypeError "Cannot convert object to primitive value")).
Proof.
  intros Hs He.
  assert (Ho : ok r = false) by (unfold ok; destruct Hs as [-> | ->]; reflexivity).
  assert (Hu : ((status r =? 401) || (status r =? 403))%bool = true)
    by (destruct Hs as [-> | ->]; reflexivity).
  assert (Hx : exists v,
             fst (interpret H this options ts (inr r) w)
             = match js_String (Number_toString H) (Date_toString H) v with
               | Some m => Throws (AuthenticationError ("Authentication failed: " ++ m)%string)
               | None => Throws (HostThrow (TypeError "Cannot convert object to primitive value"))
               end).
  { unfold interpret, bind, ret, handle_error_response. rewrite Ho, He, Hu. simpl.
    unfold bind.
    destruct (try_catch _ _ w) as [[errorBody|e|] w1] eqn:Et.
    - unfold interpolate, host.
      match goal with
      | |- context [js_String ?n ?d ?v] => exists v; destruct (js_String n d v)
      end; reflexivity.
    - exfalso. unfold try_catch in Et.
      destruct (match Headers.get "content-type" (resp_headers r) with _ => _ end w)
        as [[a|e'|] w'] in Et; discriminate.
    - exfalso. unfold try_catch in Et.
      destruct (Headers.get "content-type" (resp_headers r)) as [ct|] in Et.
      + destruct (_ && _)%bool in Et; unfold read_json, read_text, bind, emit in Et;
          simpl in Et; [destruct (json r) | destruct (text r)]; discriminate.
      + unfold read_text, bind, emit in Et; simpl in Et; destruct (text r); discriminate. }
  destruct Hx as [v ->]. destruct (js_String _ _ v); eauto.
Qed.

(** C5 at a 401 response whose JSON body is
    [{message: {toString: 0}}]: the template literal that builds the
    message of the Authentication error throws a TypeError, and that is
    what [request] rejects with. *)
Lemma unauthorized_with_unprintable_message :
  fst (request Node.host (Node.answers (Node.json_response 401 [] unprintable_message))
         sample_client "/wallets" Node.get_options (start []))
  = Throws (HostThrow (TypeError "Cannot convert object to primitive value")).
Proof. reflexivity. Qed.

(** ** C6: validation before dispatch *)

(** C6.  When the wallet-creation input fails the creation schema,
    [WalletsAPI.create] throws a Validation error carrying the schema's
    issues and leaves the world as it was: the transport is not invoked,
    nothing is logged, no signal is created. *)
Theorem create_rejects_invalid_input :
  forall H net S this walletData issues w,
    safeParse (WalletCreateRequestSchema S) walletData = ParseFailure issues ->
    WalletsAPI.create H net S this walletData w
    = (Throws (ValidationError "Invalid wallet creation data" (Some issues)), w).
Proof.
  intros H net S this walletData issues w Hf.
  unfold WalletsAPI.create. now rewrite Hf.
Qed.

Lemma create_rejects_invalid_input_witness :
  WalletsAPI.create Node.host (Node.answers (Node.json_response 201 [] bare_wallet))
    Node.schemas {| WalletsAPI.httpClient := sample_client |} nameless_wallet (start [])
  = (Throws (ValidationError "Invalid wallet creation data" (Some (JArr [JStr "name"]))),
     start []).
Proof.
  apply (create_rejects_invalid_input Node.host _ Node.schemas
           {| WalletsAPI.httpClient := sample_client |} nameless_wallet
           (JArr [JStr "name"]) (start [])).
  reflexivity.
Defined.

(** ** The call that [request] dispatches *)

Lemma reads_are_not_fetches rs call :
  forallb is_read rs = true -> ~ In (Fetch call) rs.
Proof.
  induction rs as [|e r IH]; simpl; [tauto|].
  intros Hf [He | Hi].
  - subst e. discriminate.
  - apply andb_prop in Hf. tauto.
Qed.

Lemma warnings_are_not_fetches ws call :
  forallb is_warn ws = true -> ~ In (Fetch call) ws.
Proof.
  induction ws as [|e r IH]; simpl; [tauto|].
  intros Hf [He | Hi].
  - subst e. discriminate.
  - apply andb_prop in Hf. tauto.
Qed.

(** Started with an empty trace, [request] invokes the transport at most
    once, with the call that [prepare_request] built. *)
Lemma request_dispatches H net this path options st call :
  In (Fetch call) (trace (snd (request H net this path options (start st)))) ->
  exists ts w1,
    prepare_request H this path options (start st) = (Normal (call, ts), w1).
Proof.
  unfold request, bind.
  destruct (only_prepare_request H this path options (start st)) as [ws [Et Fw]].
  destruct (prepare_request H this path options (start st)) as [[[c ts]|e|] w1];
    simpl in *;
    try (rewrite Et; intros Hi; now apply warnings_are_not_fetches in Hi).
  pose proof (fetch_trace H net c ts w1) as Ef.
  destruct (fetch H net c ts w1) as [[s|e|] w2]; simpl in *;
    try (rewrite Ef, Et; intros Hi; apply in_app_or in Hi as [Hi | [Hi | []]];
         [now apply warnings_are_not_fetches in Hi | injection Hi as ->; eauto]).
  destruct (only_interpret H this options ts s w2) as [rs [Er Fr]].
  rewrite Er, Ef, Et. intros Hi.
  apply in_app_or in Hi as [Hi | Hi]; [|now apply reads_are_not_fetches in Hi].
  apply in_app_or in Hi as [Hi | [Hi | []]].
  - now apply warnings_are_not_fetches in Hi.
  - injection Hi as ->. eauto.
Qed.

Ltac names_differ := vm_compute; discriminate.

Ltac bind_step Hrun :=
  unfold bind in Hrun at 1;
  match type of Hrun with
  | (let (_, _) := ?m ?w in _) = _ =>
      let E := fresh "E" in
      destruct (m w) as [[?|?|] ?] eqn:E; try discriminate Hrun
  | match ?m ?w with _ => _ end = _ =>
      let E := fresh "E" in
      destruct (m w) as [[?|?|] ?] eqn:E; try discriminate Hrun
  end.

Lemma host_inv {A} (o : option A) msg w a w' :
  host o msg w = (Normal a, w') -> o = Some a /\ w' = w.
Proof.
  destruct o; simpl; intros Hx; [|discriminate].
  unfold ret in Hx. injection Hx as -> ->. auto.
Qed.

(** The phases of a successful [prepare_request]. *)
Lemma prepare_request_inv H this path options w call ts w' :
  prepare_request H this path options w = (Normal (call, ts), w') ->
  exists url h0 h1 bh wa wb wc,
    construct_url H this path options w = (Normal url, wa)
    /\ Headers.new (spread (or_empty (defaultHeaders (config this)))
                      (or_empty (headers options))) = Some h0
    /\ authenticate this path h0 wa = (Normal h1, wb)
    /\ prepare_body H (body options) h1 wb = (Normal bh, wc)
    /\ f_url call = url /\ f_headers call = snd bh /\ f_body call = fst bh.
Proof.
  unfold prepare_request. intros Hrun.
  bind_step Hrun. bind_step Hrun. bind_step Hrun. bind_step Hrun.
  bind_step Hrun. bind_step Hrun. bind_step Hrun.
  injection Hrun as <- _ _.
  apply host_inv in E0 as [E0 ->].
  repeat eexists; eauto.
Qed.

Lemma authenticate_api_key this path h w h' w' key :
  as_truthy (apiKey (config this)) = Some key ->
  authenticate this path h w = (Normal h', w') ->
  Headers.get "X-API-Key" h' = Some (Headers.normalize key)
  /\ (forall org, as_truthy (organizationId (config this)) = Some org ->
        Headers.get "X-Organization-ID" h' = Some (Headers.normalize org))
  /\ Headers.has "Authorization" h' = false.
Proof.
  intros Hk. unfold authenticate. rewrite Hk. intros Hrun.
  bind_step Hrun. apply host_inv in E as [E ->].
  bind_step Hrun. injection Hrun as <- _.
  assert (Hkey : Headers.get "X-API-Key" a0 = Some (Headers.normalize key)).
  { destruct (as_truthy (organizationId (config this))).
    - apply host_inv in E0 as [E0 _].
      rewrite (headers_get_set_other "X-API-Key" "X-Organization-ID" _ _ _
                 ltac:(names_differ) E0).
      now apply headers_get_set_same in E.
    - unfold bind, emit, ret in E0. injection E0 as <- _.
      now apply headers_get_set_same in E. }
  repeat split.
  - now rewrite headers_get_delete_other by names_differ.
  - intros org Ho. rewrite Ho in E0. apply host_inv in E0 as [E0 _].
    rewrite headers_get_delete_other by names_differ.
    now apply headers_get_set_same in E0.
  - apply headers_has_delete_same.
Qed.

(** "Prepare body" touches no header other than Content-Type. *)
Lemma prepare_body_headers H b h w bh w' n :
  prepare_body H b h w = (Normal bh, w') ->
  toLowerCase n <> "content-type" ->
  Headers.get n (snd bh) = Headers.get n h.
Proof.
  unfold prepare_body. intros Hrun Hn.
  destruct (truthy b); [|now injection Hrun as <- _].
  destruct (is_passthrough b).
  - injection Hrun as <- _. simpl. now apply headers_get_delete_other.
  - unfold try_catch in Hrun.
    destruct (bind _ _ w) as [[r|e|] w1] eqn:Eb; try discriminate.
    injection Hrun as <- _.
    bind_step Eb. bind_step Eb. injection Eb as <- _. simpl.
    destruct (Headers.has "Content-Type" h).
    + now injection E0 as <- _.
    + apply host_inv in E0 as [E0 _].
      now apply (headers_get_set_other n) in E0.
Qed.

(** ** C2: API-key authentication excludes the bearer header *)

(** C2.  When the client's configuration has an API key, every call that
    [request] hands to the transport carries the X-API-Key header with
    that key, carries the X-Organization-ID header if an organization
    identifier is configured, and carries no Authorization header,
    whatever bearer token the configuration holds and whatever the default
    and call-level headers are. *)
Theorem api_key_excludes_bearer :
  forall H net this path options st key call,
    as_truthy (apiKey (config this)) = Some key ->
    In (Fetch call) (trace (snd (request H net this path options (start st)))) ->
    Headers.get "X-API-Key" (f_headers call) = Some (Headers.normalize key)
    /\ (forall org, as_truthy (organizationId (config this)) = Some org ->
          Headers.get "X-Organization-ID" (f_headers call)
          = Some (Headers.normalize org))
    /\ Headers.has "Authorization" (f_headers call) = false.
Proof.
  intros H net this path options st key call Hk Hin.
  apply request_dispatches in Hin as (ts & w1 & Hp).
  apply prepare_request_inv in Hp
    as (url & h0 & h1 & bh & wa & wb & wc & _ & _ & Ha & Hb & _ & -> & _).
  destruct (authenticate_api_key _ _ _ _ _ _ _ Hk Ha) as (Hkey & Horg & Hauth).
  repeat split.
  - now rewrite (prepare_body_headers _ _ _ _ _ _ "X-API-Key" Hb) by names_differ.
  - intros org Ho.
    rewrite (prepare_body_headers _ _ _ _ _ _ "X-Organization-ID" Hb) by names_differ.
    auto.
  - rewrite headers_has_get in *.
    now rewrite (prepare_body_headers _ _ _ _ _ _ "Authorization" Hb) by names_differ.
Qed.

Lemma api_key_excludes_bearer_witness :
  Headers.get "X-API-Key" (f_headers keyed_call) = Some (Headers.normalize "k-123")
  /\ (forall org, as_truthy (Some "org-9") = Some org ->
        Headers.get "X-Organization-ID" (f_headers keyed_call)
        = Some (Headers.normalize org))
  /\ Headers.has "Authorization" (f_headers keyed_call) = false.
Proof.
  apply (api_key_excludes_bearer Node.host
           (Node.answers (Node.json_response 200 [] bare_wallet))
           {| config := keyed_config |} "/wallets" keyed_options [] "k-123" keyed_call).
  - reflexivity.
  - left. reflexivity.
Defined.

(** ** C10: a falsy body *)

Lemma authenticate_content_type this path h w h' w' :
  authenticate this path h w = (Normal h', w') ->
  Headers.get "Content-Type" h' = Headers.get "Content-Type" h.
Proof.
  unfold authenticate. intros Hrun.
  destruct (as_truthy (apiKey (config this))).
  - bind_step Hrun. apply host_inv in E as [E _].
    bind_step Hrun. injection Hrun as <- _.
    rewrite headers_get_delete_other by names_differ.
    apply (headers_get_set_other "Content-Type") in E; [|names_differ].
    rewrite <- E.
    destruct (as_truthy (organizationId (config this))).
    + apply host_inv in E0 as [E0 _].
      now apply (headers_get_set_other "Content-Type") in E0; [|names_differ].
    + unfold bind, emit, ret in E0. now injection E0 as <- _.
  - destruct (as_truthy (authToken (config this))); [|now injection Hrun as <- _].
    bind_step Hrun. apply host_inv in E as [E _].
    apply (headers_get_set_other "Content-Type") in E; [|names_differ].
    rewrite <- E.
    destruct (as_truthy (organizationId (config this))); [|now injection Hrun as <- _].
    destruct (Headers.has "X-Organization-ID" a); [now injection Hrun as <- _|].
    apply host_inv in Hrun as [E0 _].
    now apply (headers_get_set_other "Content-Type") in E0; [|names_differ].
Qed.

Lemma appendQueryParams_stringify H f qp :
  appendQueryParams (with_stringify H f) qp = appendQueryParams H qp.
Proof.
  induction qp as [|[k v] r IH]; simpl; [reflexivity|].
  rewrite IH. reflexivity.
Qed.

Lemma construct_url_stringify H f this path options :
  construct_url (with_stringify H f) this path options
  = construct_url H this path options.
Proof.
  unfold construct_url. destruct (queryParams options); [|reflexivity].
  rewrite appendQueryParams_stringify. reflexivity.
Qed.

(** C10.  When the body of the options is falsy, [request] behaves as it
    does without a body: the call handed to the transport has no body, its
    Content-Type is the one of the merged default and call-level headers,
    and [JSON.stringify] plays no part in the run. *)
Theorem falsy_body_is_dropped :
  forall H net this path options st,
    truthy (body options) = false ->
    request H net this path options (start st)
    = request H net this path (without_body options) (start st)
    /\ (forall f,
          request (with_stringify H f) net this path options (start st)
          = request H net this path options (start st))
    /\ (forall call,
          In (Fetch call) (trace (snd (request H net this path options (start st)))) ->
          f_body call = None
          /\ exists h0,
               Headers.new (spread (or_empty (defaultHeaders (config this)))
                              (or_empty (headers options))) = Some h0
               /\ Headers.get "Content-Type" (f_headers call)
                  = Headers.get "Content-Type" h0).
Proof.
  intros H net this path options st Hf. repeat split.
  - unfold request, prepare_request, prepare_body. rewrite Hf. reflexivity.
  - intros f. unfold request, prepare_request, prepare_body.
    rewrite Hf, construct_url_stringify. reflexivity.
  - apply request_dispatches in H0 as (ts & w1 & Hp).
    apply prepare_request_inv in Hp
      as (url & h0 & h1 & bh & wa & wb & wc & _ & _ & _ & Hb & _ & _ & ->).
    unfold prepare_body in Hb. rewrite Hf in Hb. now injection Hb as <- _.
  - apply request_dispatches in H0 as (ts & w1 & Hp).
    apply prepare_request_inv in Hp
      as (url & h0 & h1 & bh & wa & wb & wc & _ & Hn & Ha & Hb & _ & -> & _).
    exists h0. split; [exact Hn|].
    unfold prepare_body in Hb. rewrite Hf in Hb. injection Hb as <- _. simpl.
    eapply authenticate_content_type; eauto.
Qed.

Lemma falsy_body_is_dropped_witness :
  request Node.host (Node.answers (Node.json_response 200 [] bare_wallet))
    {| config := keyed_config |} "/echo" empty_string_options (start [])
  = request Node.host (Node.answers (Node.json_response 200 [] bare_wallet))
      {| config := keyed_config |} "/echo" (without_body empty_string_options) (start [])
  /\ (forall f,
        request (with_stringify Node.host f)
          (Node.answers (Node.json_response 200 [] bare_wallet))
          {| config := keyed_config |} "/echo" empty_string_options (start [])
        = request Node.host (Node.answers (Node.json_response 200 [] bare_wallet))
            {| config := keyed_config |} "/echo" empty_string_options (start []))
  /\ (forall call,
        In (Fetch call)
          (trace (snd (request Node.host
                         (Node.answers (Node.json_response 200 [] bare_wallet))
                         {| config := keyed_config |} "/echo" empty_string_options
                         (start [])))) ->
        f_body call = None
        /\ exists h0,
             Headers.new (spread (or_empty (defaultHeaders keyed_config))
                            (or_empty (headers empty_string_options))) = Some h0
             /\ Headers.get "Content-Type" (f_headers call)
                = Headers.get "Content-Type" h0).
Proof.
  apply (falsy_body_is_dropped Node.host
           (Node.answers (Node.json_response 200 [] bare_wallet))
           {| config := keyed_config |} "/echo" empty_string_options []).
  reflexivity.
Defined.

(** ** C3: query parameters *)

Lemma rec_get_first {T} (k : string) (v : T) (pre rest : Rec T) :
  ~ In k (keys pre) -> rec_get k (pre ++ (k, v) :: rest) = Some v.
Proof.
  induction pre as [|[k' v'] r IH]; simpl; intros Hn.
  - now rewrite String.eqb_refl.
  - destruct (String.eqb k' k) eqn:E.
    + apply String.eqb_eq in E. tauto.
    + apply IH. tauto.
Qed.

Lemma rec_set_new {T} (k : string) (v : T) (o : Rec T) :
  ~ In k (keys o) -> rec_set k v o = o ++ [(k, v)].
Proof.
  induction o as [|[k' v'] r IH]; simpl; intros Hn; [reflexivity|].
  destruct (String.eqb k' k) eqn:E.
  - apply String.eqb_eq in E. tauto.
  - rewrite IH; tauto.
Qed.

Lemma keys_format_entries l : keys (map format_entry (filter kept l)) = keys (filter kept l).
Proof.
  unfold keys. rewrite map_map. apply map_ext.
  intros [k v]. unfold format_entry. simpl. now destruct v.
Qed.

Lemma formatQueryParams_loop params rest pre acc :
  params = pre ++ rest ->
  NoDup (keys params) ->
  (forall k, In k (keys acc) -> In k (keys pre)) ->
  fold_left
    (fun formatted key =>
       match rec_get key params with
       | Some (JDate t) => rec_set key (JStr (toISOString t)) formatted
       | Some v => if not_nullish v then rec_set key v formatted else formatted
       | None => formatted
       end)
    (keys rest) acc
  = acc ++ map format_entry (filter kept rest).
Proof.
  revert pre acc. induction rest as [|[k v] rest IH]; intros pre acc Hp Hnd Hacc; simpl.
  - now rewrite app_nil_r.
  - assert (Hk : ~ In k (keys pre)).
    { subst params. unfold keys in *. rewrite map_app in Hnd. simpl in Hnd.
      apply NoDup_remove_2 in Hnd. intros Hi. apply Hnd.
      apply in_or_app. now left. }
    assert (Hget : rec_get k params = Some v) by (subst params; now apply rec_get_first).
    assert (Hnew : ~ In k (keys acc)) by (intros Hi; apply Hk; auto).
    assert (Hnext : params = (pre ++ [(k, v)]) ++ rest)
      by (now rewrite <- app_assoc).
    rewrite Hget. unfold kept at 1. simpl.
    assert (Hstep : forall x, (forall k0, In k0 (keys (rec_set k x acc)) ->
                               In k0 (keys (pre ++ [(k, v)])))).
    { intros x k0. rewrite (rec_set_new k x acc Hnew). unfold keys.
      rewrite !map_app. simpl. intros Hi. apply in_app_or in Hi.
      apply in_or_app. destruct Hi as [Hi | Hi]; [left; now apply Hacc | now right]. }
    assert (Hskip : forall k0, In k0 (keys acc) -> In k0 (keys (pre ++ [(k, v)]))).
    { intros k0 Hi. unfold keys. rewrite map_app. apply in_or_app. left.
      now apply Hacc. }
    destruct v; simpl;
      try (rewrite (IH _ _ Hnext Hnd (Hstep _)), (rec_set_new _ _ _ Hnew),
             <- app_assoc; reflexivity);
      rewrite (IH _ _ Hnext Hnd Hskip); reflexivity.
Qed.

(** [formatQueryParams] on a mapping with unique keys. *)
Lemma formatQueryParams_spec params :
  NoDup (keys params) ->
  formatQueryParams params = map format_entry (filter kept params).
Proof.
  intros Hnd. unfold formatQueryParams.
  now rewrite (formatQueryParams_loop params params [] []).
Qed.

Lemma appendQueryParams_ok H qp url w url' w' :
  appendQueryParams H qp url w = (Normal url', w') ->
  w' = w /\ href url' = href url
  /\ searchParams url'
     = searchParams url ++ map (fun kv => (fst kv, String_text H (snd kv))) (filter kept qp).
Proof.
  revert url. induction qp as [|[k v] r IH]; intros url; simpl.
  - intros [= <- <-]. now rewrite app_nil_r.
  - unfold kept at 1. simpl. destruct (not_nullish v); [|apply IH].
    intros Hrun. bind_step Hrun.
    unfold interpolate in E. apply host_inv in E as [E ->].
    apply IH in Hrun as (-> & -> & ->). simpl.
    unfold String_text at 2. rewrite E. now rewrite <- app_assoc.
Qed.


Lemma filter_kept_formatted l :
  filter kept (map format_entry (filter kept l)) = map format_entry (filter kept l).
Proof.
  induction l as [|[k v] r IH]; simpl; [reflexivity|].
  destruct (kept (k, v)) eqn:E; [|exact IH]. simpl.
  assert (Hk : kept (format_entry (k, v)) = true)
    by (destruct v; try discriminate E; reflexivity).
  now rewrite Hk, IH.
Qed.

(** [String(n)] on a number: its digits within the safe range, the host's
    rendering beyond it. *)
Lemma String_text_number H n :
  String_text H (JNum n)
  = if is_safe_integer n then Z_to_string n else Number_toString H n.
Proof. reflexivity. Qed.





(** ** Abort signals: what a store of signals shows *)

Lemma nth_error_update j f st i :
  nth_error (update j f st) i
  = if Nat.eqb i j then option_map f (nth_error st i) else nth_error st i.
Proof.
  revert j i.
  induction st as [|s r IH]; intros [|j] [|i]; simpl; auto;
    now destruct (Nat.eqb i j).
Qed.

Lemma view_update_other j f st i :
  i <> j -> view (update j f st) i = view st i.
Proof.
  intros Hn. unfold view. rewrite nth_error_update.
  apply Nat.eqb_neq in Hn. now rewrite Hn.
Qed.

Lemma view_update_quiet j f st i :
  (forall s, aborted (f s) = aborted s /\ reason (f s) = reason s) ->
  view (update j f st) i = view st i.
Proof.
  intros Hq. unfold view. rewrite nth_error_update.
  destruct (Nat.eqb i j); [|reflexivity].
  destruct (nth_error st i) as [s|]; simpl; [|reflexivity].
  destruct (Hq s) as [-> ->]. reflexivity.
Qed.

Lemma view_mark i r st x :
  view st i = Some (false, x) ->
  view (update i (mark_aborted r) st) i = Some (true, Some r).
Proof.
  unfold view. rewrite nth_error_update, Nat.eqb_refl.
  destruct (nth_error st i) as [s|]; simpl; [|discriminate].
  intros [= Ha _]. unfold mark_aborted. now rewrite Ha.
Qed.

Lemma view_cleanup l vs st i :
  view (fold_left (fun st' s => update s (removeEventListener l) st') vs st) i
  = view st i.
Proof.
  revert st. induction vs as [|v r IH]; intros st; simpl; [reflexivity|].
  rewrite IH. now apply view_update_quiet.
Qed.

Lemma view_run_listener_other l st i :
  controller_of l <> i -> view (run_listener l st) i = view st i.
Proof.
  destruct l as [c vs]. simpl. intros Hn.
  rewrite view_cleanup. apply view_update_other. auto.
Qed.

Lemma view_run_listener_same c vs st x :
  view st c = Some (false, x) ->
  view (run_listener (onAbort c vs) st) c = Some (true, Some AbortError).
Proof. intros Hv. simpl. rewrite view_cleanup. eapply view_mark; eauto. Qed.

Lemma view_run_listeners ls st i :
  Forall (fun l => controller_of l <> i) ls ->
  view (fold_left (fun st' l => run_listener l st') ls st) i = view st i.
Proof.
  revert st. induction ls as [|l r IH]; intros st Hf; simpl; [reflexivity|].
  inversion Hf; subst. rewrite IH by assumption.
  now apply view_run_listener_other.
Qed.

Lemma is_aborted_view i st :
  is_aborted i st = match view st i with Some (b, _) => b | None => false end.
Proof. unfold is_aborted, view. now destruct (nth_error st i). Qed.

Lemma reason_of_view i st :
  reason_of i st = match view st i with Some (_, r) => r | None => None end.
Proof. unfold reason_of, view. now destruct (nth_error st i). Qed.

Lemma abort_rejection_view sig st :
  abort_rejection (Some sig) st
  = match view st sig with
    | Some (true, Some r) => Some r
    | Some (true, None) => Some AbortError
    | _ => None
    end.
Proof.
  unfold abort_rejection. rewrite is_aborted_view, reason_of_view.
  destruct (view st sig) as [[[|] [r|]]|]; reflexivity.
Qed.

Lemma addEventListener_quiet l s :
  aborted (addEventListener l s) = aborted s /\ reason (addEventListener l s) = reason s.
Proof. split; reflexivity. Qed.

Lemma view_armed st s i :
  view (armed st s) i = view (st ++ [fresh_signal; fresh_signal; fresh_signal]) i.
Proof.
  unfold armed. cbv zeta.
  rewrite !view_update_quiet by apply addEventListener_quiet. reflexivity.
Qed.

Lemma view_armed_new st s k :
  (k < 3)%nat -> view (armed st s) (List.length st + k) = Some (false, None).
Proof.
  intros Hk. rewrite view_armed. unfold view.
  rewrite nth_error_app2 by lia.
  replace (List.length st + k - List.length st)%nat with k by lia.
  destruct k as [|[|[|k]]]; try reflexivity. lia.
Qed.

Lemma keeps_ret {A} (a : A) : keeps (ret a).
Proof. intros w. reflexivity. Qed.

Lemma keeps_throw {A} e : keeps (@throw A e).
Proof. intros w. reflexivity. Qed.

Lemma keeps_host {A} (o : option A) msg : keeps (host o msg).
Proof. destruct o; [apply keeps_ret | apply keeps_throw]. Qed.

Lemma keeps_emit e : keeps (emit e).
Proof. intros w. reflexivity. Qed.

Lemma keeps_bind {A B} (m : Eff A) (k : A -> Eff B) :
  keeps m -> (forall a, keeps (k a)) -> keeps (bind m k).
Proof.
  intros Hm Hk w. unfold bind. specialize (Hm w).
  destruct (m w) as [[a|e|] w1]; simpl in *; auto.
  now rewrite Hk.
Qed.

Lemma keeps_try_catch {A} (m : Eff A) (h : JSError -> Eff A) :
  keeps m -> (forall e, keeps (h e)) -> keeps (try_catch m h).
Proof.
  intros Hm Hh w. unfold try_catch. specialize (Hm w).
  destruct (m w) as [[a|e|] w1]; simpl in *; auto.
  now rewrite Hh.
Qed.

Ltac keeps_step :=
  first
    [ apply keeps_ret | apply keeps_throw | apply keeps_host | apply keeps_emit
    | apply keeps_bind; [|intro]
    | apply keeps_try_catch; [|intro]
    | match goal with
      | |- keeps (match ?x with _ => _ end) => destruct x
      end ].

Lemma keeps_appendQueryParams H qp url : keeps (appendQueryParams H qp url).
Proof.
  revert url. induction qp as [|[k v] r IH]; intros url; simpl.
  - apply keeps_ret.
  - destruct (not_nullish v); [|apply IH].
    apply keeps_bind; [apply keeps_host|intro; apply IH].
Qed.

Lemma keeps_construct_url H this path options : keeps (construct_url H this path options).
Proof.
  unfold construct_url. apply keeps_bind; [apply keeps_host|intro].
  destruct (queryParams options); [apply keeps_appendQueryParams|apply keeps_ret].
Qed.

Lemma keeps_authenticate this path h : keeps (authenticate this path h).
Proof. unfold authenticate, set_header. repeat keeps_step. Qed.

Lemma keeps_prepare_body H b h : keeps (prepare_body H b h).
Proof. unfold prepare_body, set_header. repeat keeps_step. Qed.

Lemma view_new st k :
  (k < 3)%nat ->
  view (st ++ [fresh_signal; fresh_signal; fresh_signal]) (List.length st + k)
  = Some (false, None).
Proof. intros Hk. rewrite <- (view_armed st 0). now apply view_armed_new. Qed.

Lemma view_new0 st :
  view (st ++ [fresh_signal; fresh_signal; fresh_signal]) (List.length st)
  = Some (false, None).
Proof.
  pose proof (view_new st 0 ltac:(lia)) as Hv.
  now rewrite Nat.add_0_r in Hv.
Qed.

Lemma view_new1 st :
  view (st ++ [fresh_signal; fresh_signal; fresh_signal]) (S (List.length st))
  = Some (false, None).
Proof.
  replace (S (List.length st)) with (List.length st + 1)%nat by lia.
  apply view_new. lia.
Qed.

Lemma view_new2 st :
  view (st ++ [fresh_signal; fresh_signal; fresh_signal]) (S (S (List.length st)))
  = Some (false, None).
Proof.
  replace (S (S (List.length st))) with (List.length st + 2)%nat by lia.
  apply view_new. lia.
Qed.

Lemma view_old st ext i :
  (i < List.length st)%nat -> view (st ++ ext) i = view st i.
Proof. intros Hi. unfold view. now rewrite nth_error_app1. Qed.

Lemma getCombinedSignal_arms tr st s sg :
  nth_error st s = Some sg -> aborted sg = false ->
  getCombinedSignal
    [Some s; Some (List.length st); Some (List.length (st ++ [fresh_signal]))]
    {| trace := tr; signals := (st ++ [fresh_signal]) ++ [fresh_signal] |}
  = (Normal (Some (S (S (List.length st)))), {| trace := tr; signals := armed st s |}).
Proof.
  intros Hsg Hab.
  assert (Hlt : (s < List.length st)%nat) by (apply nth_error_Some; congruence).
  assert (L1 : List.length (st ++ [fresh_signal]) = S (List.length st))
    by (rewrite length_app; simpl; lia).
  assert (L2 : List.length ((st ++ [fresh_signal]) ++ [fresh_signal])
               = S (S (List.length st)))
    by (rewrite length_app, L1; simpl; lia).
  rewrite L1. unfold getCombinedSignal. cbn [flat_map app].
  unfold bind, new_AbortController, get_signals, put_signals, ret.
  cbn [signals trace fst snd]. rewrite L2, <- !app_assoc. cbn [app fold_left].
  set (X := st ++ [fresh_signal; fresh_signal; fresh_signal]).
  set (l := onAbort (S (S (List.length st))) [s; List.length st; S (List.length st)]).
  assert (A1 : is_aborted s X = false).
  { rewrite is_aborted_view. unfold X. rewrite view_old by assumption.
    unfold view. now rewrite Hsg, <- Hab. }
  rewrite A1.
  assert (A2 : is_aborted (List.length st) (update s (addEventListener l) X) = false).
  { rewrite is_aborted_view, view_update_quiet by apply addEventListener_quiet.
    unfold X. now rewrite view_new0. }
  rewrite A2.
  assert (A3 : is_aborted (S (List.length st))
                 (update (List.length st) (addEventListener l)
                    (update s (addEventListener l) X)) = false).
  { rewrite is_aborted_view, !view_update_quiet by apply addEventListener_quiet.
    unfold X. now rewrite view_new1. }
  rewrite A3. reflexivity.
Qed.

(** With a timeout configured and a live caller signal [s], a prepared
    request observes a fresh combined signal, the last of the store, that
    listens to [s], to the request's controller and to the timeout
    signal. *)
Lemma prepare_request_arms H this path options w call timer w1 ms s sg :
  prepare_request H this path options w = (Normal (call, timer), w1) ->
  timeout (config this) = Some ms -> 0 < ms ->
  signal options = Some s ->
  nth_error (signals w) s = Some sg -> aborted sg = false ->
  timer = Some (S (List.length (signals w)))
  /\ f_signal call = Some (S (S (List.length (signals w))))
  /\ signals w1 = armed (signals w) s.
Proof.
  unfold prepare_request. intros Hrun Ht Hms Hs Hsg Hab.
  bind_step Hrun. bind_step Hrun. bind_step Hrun. bind_step Hrun.
  assert (Hw : signals w4 = signals w).
  { pose proof (keeps_construct_url H this path options w) as K1. rewrite E in K1.
    apply host_inv in E0 as [_ ->].
    pose proof (keeps_authenticate this path a0 w0) as K2. rewrite E1 in K2.
    pose proof (keeps_prepare_body H (body options) a1 w3) as K3. rewrite E2 in K3.
    simpl in *. congruence. }
  assert (Hz : (ms =? 0) = false) by (apply Z.eqb_neq; lia).
  assert (Hn : (ms <? 0) = false) by (apply Z.ltb_ge; lia).
  rewrite Ht, Hs in Hrun.
  bind_step Hrun. bind_step Hrun. bind_step Hrun.
  injection Hrun as <- <- <-. cbn [f_signal].
  unfold new_AbortController in E3. injection E3 as <- <-.
  unfold truthy_num in E4. rewrite Hz in E4.
  unfold bind, AbortSignal_timeout in E4. rewrite Hn in E4.
  unfold new_AbortController, ret in E4. cbn [signals trace] in E4.
  injection E4 as <- <-.
  rewrite Hw in E5. rewrite Hw.
  rewrite (getCombinedSignal_arms _ _ _ _ Hsg Hab) in E5.
  injection E5 as <- <-.
  rewrite length_app. simpl. repeat split. f_equal. lia.
Qed.

(** ** C8: timeout and cancellation *)

Lemma flight_aborted sig timer script st e :
  abort_rejection sig st = Some e ->
  flight sig timer script st = (Some (inl e), st).
Proof. intros Ha. destruct script; simpl; now rewrite Ha. Qed.

Lemma nth_error_armed_caller st s sg :
  nth_error st s = Some sg ->
  nth_error (armed st s) s
  = Some (addEventListener
            (onAbort (S (S (List.length st))) [s; List.length st; S (List.length st)]) sg).
Proof.
  intros Hsg.
  assert (Hlt : (s < List.length st)%nat) by (apply nth_error_Some; congruence).
  unfold armed. cbv zeta. rewrite !nth_error_update.
  replace (Nat.eqb s (S (List.length st))) with false by (symmetry; apply Nat.eqb_neq; lia).
  replace (Nat.eqb s (List.length st)) with false by (symmetry; apply Nat.eqb_neq; lia).
  rewrite Nat.eqb_refl, nth_error_app1, Hsg by assumption. reflexivity.
Qed.

Lemma nth_error_armed_timer st s :
  (s < List.length st)%nat ->
  nth_error (armed st s) (S (List.length st))
  = Some (addEventListener
            (onAbort (S (S (List.length st))) [s; List.length st; S (List.length st)])
            fresh_signal).
Proof.
  intros Hlt. unfold armed. cbv zeta. rewrite !nth_error_update.
  rewrite Nat.eqb_refl.
  replace (Nat.eqb (S (List.length st)) (List.length st)) with false
    by (symmetry; apply Nat.eqb_neq; lia).
  replace (Nat.eqb (S (List.length st)) s) with false
    by (symmetry; apply Nat.eqb_neq; lia).
  rewrite nth_error_app2 by lia.
  replace (S (List.length st) - List.length st)%nat with 1%nat by lia.
  reflexivity.
Qed.

(** The timer runs out first: the transport is rejected with the combined
    signal's AbortError, and the timeout signal is aborted. *)
Lemma flight_timer_expires st s sg rest :
  nth_error st s = Some sg ->
  exists st',
    flight (Some (S (S (List.length st)))) (Some (S (List.length st)))
      (TimerExpires :: rest) (armed st s)
    = (Some (inl AbortError), st')
    /\ is_aborted (S (List.length st)) st' = true.
Proof.
  intros Hsg.
  assert (Hlt : (s < List.length st)%nat) by (apply nth_error_Some; congruence).
  cbn [flight]. rewrite abort_rejection_view, view_armed, view_new2.
  unfold fire. rewrite nth_error_armed_timer by assumption.
  cbn [aborted addEventListener fresh_signal listeners app fold_left].
  set (l := onAbort _ _).
  set (st1 := update (S (List.length st)) (mark_aborted TimeoutError) (armed st s)).
  assert (V1 : view st1 (S (S (List.length st))) = Some (false, None)).
  { unfold st1. rewrite view_update_other by lia. now rewrite view_armed, view_new2. }
  assert (V2 : view st1 (S (List.length st)) = Some (true, Some TimeoutError)).
  { unfold st1. eapply view_mark. now rewrite view_armed, view_new1. }
  exists (run_listener l st1). split.
  - apply flight_aborted. rewrite abort_rejection_view.
    unfold l. now rewrite (view_run_listener_same _ _ _ _ V1).
  - rewrite is_aborted_view, view_run_listener_other by (unfold l; simpl; lia).
    now rewrite V2.
Qed.

(** The caller aborts first: the transport is rejected with the same
    AbortError, and the timeout signal is not aborted. *)
Lemma flight_caller_aborts st s sg r rest :
  nth_error st s = Some sg -> aborted sg = false ->
  Forall (fun l => (controller_of l < List.length st)%nat) (listeners sg) ->
  exists st',
    flight (Some (S (S (List.length st)))) (Some (S (List.length st)))
      (AbortBy s r :: rest) (armed st s)
    = (Some (inl AbortError), st')
    /\ is_aborted (S (List.length st)) st' = false.
Proof.
  intros Hsg Hab Hold.
  assert (Hlt : (s < List.length st)%nat) by (apply nth_error_Some; congruence).
  cbn [flight]. rewrite abort_rejection_view, view_armed, view_new2.
  unfold fire. rewrite (nth_error_armed_caller _ _ _ Hsg).
  cbn [aborted addEventListener listeners]. rewrite Hab, fold_left_app.
  cbn [fold_left].
  set (l := onAbort _ _).
  set (st1 := fold_left (fun st' l0 => run_listener l0 st') (listeners sg)
                (update s (mark_aborted r) (armed st s))).
  assert (V : forall i, (List.length st <= i)%nat -> view st1 i = view (armed st s) i).
  { intros i Hi. unfold st1. rewrite view_run_listeners.
    - apply view_update_other. lia.
    - eapply Forall_impl; [|exact Hold]. simpl. intros. lia. }
  exists (run_listener l st1). split.
  - apply flight_aborted. rewrite abort_rejection_view.
    unfold l. erewrite view_run_listener_same; [reflexivity|].
    rewrite V by lia. now rewrite view_armed, view_new2.
  - rewrite is_aborted_view, view_run_listener_other by (unfold l; simpl; lia).
    rewrite V by lia. now rewrite view_armed, view_new1.
Qed.

(** C8.  Take a client with a timeout and a call with a live caller signal,
    prepared into [call].  If, while [call] is in flight, the timer runs
    out first, [request] throws a Network error whose message reports the
    timeout; if the caller's signal is aborted first, [request] throws the
    SDK's "Request aborted" error.  Both reach [request] as the same
    AbortError of the combined signal. *)
Theorem timeout_and_cancellation_told_apart :
  forall H net_t net_c this path options w call timer w1 ms s sg r rest_t rest_c,
    timeout (config this) = Some ms -> 0 < ms ->
    signal options = Some s ->
    nth_error (signals w) s = Some sg -> aborted sg = false ->
    Forall (fun l => (controller_of l < List.length (signals w))%nat) (listeners sg) ->
    prepare_request H this path options w = (Normal (call, timer), w1) ->
    body_on_bodiless_method call = false ->
    net_t call = TimerExpires :: rest_t ->
    net_c call = AbortBy s r :: rest_c ->
    fst (request H net_t this path options w)
    = Throws (NetworkError ("Request timed out after " ++ Z_to_string ms ++ "ms")%string
                AbortError)
    /\ fst (request H net_c this path options w)
       = Throws (SDKError ("Request aborted: " ++ message AbortError)%string).
Proof.
  intros H net_t net_c this path options w call timer w1 ms s sg r rest_t rest_c
    Ht Hms Hs Hsg Hab Hold Hprep Hbody Hnt Hnc.
  destruct (prepare_request_arms _ _ _ _ _ _ _ _ _ _ _ Hprep Ht Hms Hs Hsg Hab)
    as (-> & Hsig & Hst).
  split.
  - destruct (flight_timer_expires (signals w) s sg rest_t Hsg) as (st' & Hfl & Ha').
    unfold request, bind. rewrite Hprep. cbn [fst snd].
    unfold fetch, bind, emit. cbn [fst snd trace signals].
    rewrite Hbody, Hsig, Hnt. cbn beta iota. cbn [signals trace].
    rewrite Hst, Hfl.
    unfold interpret, on_fetch_error, get_signals. unfold bind.
    cbn beta iota. cbn [fst snd trace signals].
    rewrite Ha'. unfold timeout_text. rewrite Ht. reflexivity.
  - destruct (flight_caller_aborts (signals w) s sg r rest_c Hsg Hab Hold)
      as (st' & Hfl & Ha').
    unfold request, bind. rewrite Hprep. cbn [fst snd].
    unfold fetch, bind, emit. cbn [fst snd trace signals].
    rewrite Hbody, Hsig, Hnc. cbn beta iota. cbn [signals trace].
    rewrite Hst, Hfl.
    unfold interpret, on_fetch_error, get_signals. unfold bind.
    cbn beta iota. cbn [fst snd trace signals].
    rewrite Ha'. reflexivity.
Qed.

Lemma timeout_and_cancellation_told_apart_witness :
  fst (request Node.host (fun _ => [TimerExpires]) {| config := timed_config |}
         "/wallets" cancellable_options (start [fresh_signal]))
  = Throws (NetworkError "Request timed out after 5000ms" AbortError)
  /\ fst (request Node.host (fun _ => [AbortBy 0 AbortError; TimerExpires])
            {| config := timed_config |} "/wallets" cancellable_options
            (start [fresh_signal]))
     = Throws (SDKError "Request aborted: This operation was aborted").
Proof.
  apply (timeout_and_cancellation_told_apart Node.host
           (fun _ => [TimerExpires]) (fun _ => [AbortBy 0 AbortError; TimerExpires])
           {| config := timed_config |} "/wallets" cancellable_options
           (start [fresh_signal]) timed_call (Some 2%nat)
           {| trace := []; signals := armed [fresh_signal] 0 |}
           5000 0%nat fresh_signal AbortError [] [TimerExpires]);
    try reflexivity.
  constructor.
Defined.

(* ================================================================= *)
(** * Further properties of the engine *)

(** ** One transport call per request *)

Lemma fetch_calls_app a b : fetch_calls (a ++ b) = fetch_calls a ++ fetch_calls b.
Proof. unfold fetch_calls. apply flat_map_app. Qed.

Lemma fetch_calls_warnings ws : forallb is_warn ws = true -> fetch_calls ws = [].
Proof.
  induction ws as [|e r IH]; simpl; auto.
  destruct e; simpl; try discriminate. exact IH.
Qed.

Lemma fetch_calls_reads rs : forallb is_read rs = true -> fetch_calls rs = [].
Proof.
  induction rs as [|e r IH]; simpl; auto.
  destruct e; simpl; try discriminate; exact IH.
Qed.

(** X1.  [request] invokes the transport exactly once when the preparation
    of the call succeeds, with the prepared call, and never otherwise:
    whatever the transport answers, nothing is sent a second time. *)
Theorem request_fetches_once :
  forall H net this path options w,
    fetch_calls (trace (snd (request H net this path options w)))
    = fetch_calls (trace w)
      ++ match prepare_request H this path options w with
         | (Normal p, _) => [fst p]
         | _ => []
         end.
Proof.
  intros H net this path options w. unfold request, bind.
  destruct (only_prepare_request H this path options w) as [ws [Et Fw]].
  destruct (prepare_request H this path options w) as [[[c ts]|e|] w1];
    simpl in *;
    try (rewrite Et, fetch_calls_app, (fetch_calls_warnings _ Fw); reflexivity).
  pose proof (fetch_trace H net c ts w1) as Ef.
  destruct (fetch H net c ts w1) as [[s|e|] w2]; simpl in *.
  - destruct (only_interpret H this options ts s w2) as [rs [Er Fr]].
    rewrite Er, Ef, Et, !fetch_calls_app, (fetch_calls_warnings _ Fw),
      (fetch_calls_reads _ Fr).
    simpl. now rewrite !app_nil_r.
  - rewrite Ef, Et, !fetch_calls_app, (fetch_calls_warnings _ Fw).
    simpl. now rewrite !app_nil_r.
  - rewrite Ef, Et, !fetch_calls_app, (fetch_calls_warnings _ Fw).
    simpl. now rewrite !app_nil_r.
Qed.

(** ** A body that does not parse *)

(** X2.  When an accepted response that is not a no-content response has a
    body that does not parse as JSON, [request] throws the SDK's error
    "Failed to parse response body as JSON or unexpected structure" with
    the parser's message; it never returns an empty result. *)
Theorem unparsable_body_is_an_error :
  forall H net this path options w r e,
    response_received H net this path options w = Some r ->
    accepted (expectedStatus options) r = true ->
    no_content r = false ->
    json r = inl e ->
    fst (request H net this path options w)
    = Throws (SDKError ("Failed to parse response body as JSON or unexpected structure: "
                        ++ message e)%string).
Proof.
  intros H net this path options w r e Hr Ha Hn Hj.
  destruct (request_received _ _ _ _ _ _ _ Hr) as (ts & w2 & call & ws & -> & _).
  unfold interpret, bind, ret.
  rewrite handle_error_response_accepted by assumption.
  unfold handle_success, try_catch, bind, read_json, emit, ret.
  unfold no_content in Hn. rewrite Hn, Hj. reflexivity.
Qed.

Lemma unparsable_body_is_an_error_witness :
  fst (request Node.host (Node.answers (empty_response 200 "OK" []))
         sample_client "/wallets" Node.get_options (start []))
  = Throws (SDKError ("Failed to parse response body as JSON or unexpected structure: "
                      ++ message SyntaxError)%string).
Proof.
  apply (unparsable_body_is_an_error Node.host _ sample_client "/wallets"
           Node.get_options (start []) (empty_response 200 "OK" []) SyntaxError);
    reflexivity.
Defined.

(** ** Error responses *)

Lemma read_error_body r w :
  exists w',
    try_catch
      (match Headers.get "content-type" (resp_headers r) with
       | Some contentType =>
           if (negb (String.eqb contentType "")
               && includes "application/json" contentType)%bool
           then read_json r
           else read_text r
       | None => read_text r
       end)
      (fun _ => ret JNull) w
    = (Normal (error_body r), w').
Proof.
  unfold error_body, declares_json, try_catch, read_json, read_text, bind, emit, ret.
  destruct (Headers.get "content-type" (resp_headers r)) as [ct|]; simpl.
  - destruct (negb (String.eqb ct "") && includes "application/json" ct)%bool; simpl;
      [destruct (json r) | destruct (text r)]; simpl; eauto.
  - destruct (text r); simpl; eauto.
Qed.

(** X3.  A response that is neither 2xx nor the expected status is turned
    into an error that carries the detail found in the body (its
    [message], else its [error], else the text, else the status text): an
    Authentication error for 401 and 403, and for any other status an API
    error with the status, the body (parsed if the response declares JSON,
    raw text otherwise, [null] if it cannot be read) and the response
    headers. *)
Theorem error_response_outcome :
  forall H net this path options w r m,
    response_received H net this path options w = Some r ->
    accepted (expectedStatus options) r = false ->
    js_String (Number_toString H) (Date_toString H) (error_detail r) = Some m ->
    fst (request H net this path options w)
    = if ((status r =? 401) || (status r =? 403))%bool
      then Throws (AuthenticationError ("Authentication failed: " ++ m)%string)
      else Throws (APIError ("API request failed with status "
                             ++ Z_to_string (status r) ++ ": " ++ m)%string
                     (status r) (error_body r) (resp_headers r)).
Proof.
  intros H net this path options w r m Hr Ha Hm.
  destruct (request_received _ _ _ _ _ _ _ Hr) as (ts & w2 & call & ws & -> & _).
  unfold accepted in Ha. apply orb_false_elim in Ha as [Ho He].
  unfold interpret, bind, ret, handle_error_response. rewrite Ho, He. simpl.
  unfold bind. destruct (read_error_body r w2) as [w' ->].
  assert (Hd : js_or (js_or (prop "message" (error_body r)) (prop "error" (error_body r)))
                 (if String.eqb (js_typeof (error_body r)) "string"
                  then error_body r else JStr (statusText r))
               = error_detail r).
  { unfold error_detail. now destruct (error_body r). }
  rewrite Hd. unfold interpolate, host. rewrite Hm.
  destruct ((status r =? 401) || (status r =? 403))%bool; reflexivity.
Qed.

Lemma error_response_outcome_witness :
  fst (request Node.host (Node.answers (Node.json_response 404 [] not_found_body))
         sample_client "/wallets/9" Node.get_options (start []))
  = Throws (APIError "API request failed with status 404: not found" 404 not_found_body
              [("content-type", "application/json")]).
Proof.
  apply (error_response_outcome Node.host _ sample_client "/wallets/9"
           Node.get_options (start []) (Node.json_response 404 [] not_found_body)
           "not found"); reflexivity.
Defined.

(** ** The body of the call *)

(** X4.  A truthy body reaches the transport in one of two ways.  A string,
    FormData, URLSearchParams or Blob body is passed as it is and the call
    carries no Content-Type header at all, not even one the caller
    supplied.  Any other body is sent as the text [JSON.stringify] gives
    and the call carries a Content-Type: the one of the merged default and
    call-level headers if there is one, [application/json] otherwise. *)
Theorem body_is_passed_or_serialized :
  forall H net this path options st call,
    truthy (body options) = true ->
    In (Fetch call) (trace (snd (request H net this path options (start st)))) ->
    if is_passthrough (body options)
    then f_body call = Some (Passthrough (body options))
         /\ Headers.has "Content-Type" (f_headers call) = false
    else exists s h0,
        JSON_stringify H (body options) = Some s
        /\ f_body call = Some (JsonText s)
        /\ Headers.new (spread (or_empty (defaultHeaders (config this)))
                          (or_empty (headers options))) = Some h0
        /\ Headers.get "Content-Type" (f_headers call)
           = Some (match Headers.get "Content-Type" h0 with
                   | Some v => v
                   | None => "application/json"
                   end).
Proof.
  intros H net this path options st call Ht Hin.
  apply request_dispatches in Hin as (ts & w1 & Hp).
  apply prepare_request_inv in Hp
    as (url & h0 & h1 & bh & wa & wb & wc & _ & Hn & Ha & Hb & _ & -> & ->).
  apply authenticate_content_type in Ha.
  unfold prepare_body in Hb. rewrite Ht in Hb.
  destruct (is_passthrough (body options)).
  - injection Hb as <- _. simpl. split; [reflexivity|].
    apply headers_has_delete_same.
  - unfold try_catch in Hb.
    destruct (bind _ _ wb) as [[r|e|] w2] eqn:Eb; try discriminate.
    injection Hb as <- _.
    bind_step Eb. apply host_inv in E as [E _].
    bind_step Eb. injection Eb as <- _. simpl.
    exists a, h0. repeat split; auto.
    rewrite <- Ha. rewrite headers_has_get in E0.
    destruct (Headers.get "Content-Type" h1) as [v|] eqn:Eg.
    + injection E0 as <- _. exact Eg.
    + apply host_inv in E0 as [E0 _].
      now apply headers_get_set_same in E0.
Qed.

Lemma body_is_passed_or_serialized_witness :
  f_body text_call = Some (Passthrough (JStr "a=1"))
  /\ Headers.has "Content-Type" (f_headers text_call) = false.
Proof.
  apply (body_is_passed_or_serialized Node.host
           (Node.answers (Node.json_response 200 [] bare_wallet))
           sample_client "/echo" text_options [] text_call).
  - reflexivity.
  - left. reflexivity.
Defined.

Lemma host_failures_ret {A} (a : A) : host_failures (ret a).
Proof. intros w. exact I. Qed.

Lemma host_failures_host {A} (o : option A) msg : host_failures (host o msg).
Proof. intros w. destruct o; exact I. Qed.

Lemma host_failures_bind {A B} (m : Eff A) (k : A -> Eff B) :
  host_failures m -> (forall a, host_failures (k a)) -> host_failures (bind m k).
Proof.
  intros Hm Hk w. unfold bind. specialize (Hm w).
  destruct (m w) as [[a|e|] w1]; simpl in *; auto. apply Hk.
Qed.

Lemma host_failures_appendQueryParams H qp url :
  host_failures (appendQueryParams H qp url).
Proof.
  revert url. induction qp as [|[k v] r IH]; intros url; simpl.
  - apply host_failures_ret.
  - destruct (not_nullish v); [|apply IH].
    apply host_failures_bind; [apply host_failures_host|intro; apply IH].
Qed.

Lemma host_failures_construct_url H this path options :
  host_failures (construct_url H this path options).
Proof.
  unfold construct_url. apply host_failures_bind; [apply host_failures_host|intro].
  destruct (queryParams options);
    [apply host_failures_appendQueryParams | apply host_failures_ret].
Qed.

Lemma host_failures_authenticate this path h : host_failures (authenticate this path h).
Proof.
  unfold authenticate, set_header.
  repeat first
    [ apply host_failures_ret | apply host_failures_host
    | apply host_failures_bind; [|intro]
    | intros w; exact I
    | match goal with
      | |- host_failures (match ?x with _ => _ end) => destruct x
      end ].
Qed.

(** X5.  When [JSON.stringify] throws on a truthy body that is not passed
    through, [request] never invokes the transport, and the error it
    throws, if it is one of the SDK's, is the SDK's "Failed to stringify
    request body as JSON" (a host TypeError of the URL or the headers may
    come first). *)
Theorem unserializable_body_is_not_sent :
  forall H net this path options w,
    truthy (body options) = true ->
    is_passthrough (body options) = false ->
    JSON_stringify H (body options) = None ->
    fetch_calls (trace (snd (request H net this path options w)))
    = fetch_calls (trace w)
    /\ exists e,
         fst (request H net this path options w) = Throws e
         /\ (instanceof_SDKError e = true ->
             e = SDKError "Failed to stringify request body as JSON").
Proof.
  intros H net this path options w Ht Hp Hs.
  assert (Hprep : exists e w1,
             prepare_request H this path options w = (Throws e, w1)
             /\ (instanceof_SDKError e = true ->
                 e = SDKError "Failed to stringify request body as JSON")).
  { unfold prepare_request. unfold bind at 1.
    pose proof (host_failures_construct_url H this path options w) as F1.
    destruct (construct_url H this path options w) as [[url|[]|] w0];
      simpl in F1; try contradiction; [|do 2 eexists; split; [reflexivity|discriminate]].
    unfold bind at 1.
    destruct (Headers.new _) as [h0|]; simpl;
      [|do 2 eexists; split; [reflexivity|discriminate]].
    unfold bind at 1.
    pose proof (host_failures_authenticate this path h0 w0) as F2.
    destruct (authenticate this path h0 w0) as [[h1|[]|] w2];
      simpl in F2; try contradiction; [|do 2 eexists; split; [reflexivity|discriminate]].
    unfold bind at 1. unfold prepare_body. rewrite Ht, Hp, Hs. simpl.
    do 2 eexists. split; [reflexivity|auto]. }
  destruct Hprep as (e & w1 & Hprep & He).
  split.
  - destruct (only_prepare_request H this path options w) as [ws [Et Fw]].
    unfold request, bind. rewrite Hprep in *. simpl in *.
    rewrite Et, fetch_calls_app, (fetch_calls_warnings _ Fw). apply app_nil_r.
  - exists e. unfold request, bind. rewrite Hprep. auto.
Qed.

Lemma unserializable_body_is_not_sent_witness :
  fetch_calls (trace (snd (request mute_host
                             (Node.answers (Node.json_response 200 [] bare_wallet))
                             sample_client "/wallets" keyed_options (start []))))
  = fetch_calls (trace (start []))
  /\ exists e,
       fst (request mute_host (Node.answers (Node.json_response 200 [] bare_wallet))
              sample_client "/wallets" keyed_options (start [])) = Throws e
       /\ (instanceof_SDKError e = true ->
           e = SDKError "Failed to stringify request body as JSON").
Proof.
  apply (unserializable_body_is_not_sent mute_host
           (Node.answers (Node.json_response 200 [] bare_wallet))
           sample_client "/wallets" keyed_options (start [])); reflexivity.
Defined.

(** ** Bearer authentication *)

Lemma authenticate_bearer this path h w h' w' token :
  as_truthy (apiKey (config this)) = None ->
  as_truthy (authToken (config this)) = Some token ->
  authenticate this path h w = (Normal h', w') ->
  Headers.get "Authorization" h' = Some (Headers.normalize ("Bearer " ++ token))
  /\ Headers.get "X-API-Key" h' = Headers.get "X-API-Key" h
  /\ Headers.get "X-Organization-ID" h'
     = match Headers.get "X-Organization-ID" h, as_truthy (organizationId (config this)) with
       | Some v, _ => Some v
       | None, Some org => Some (Headers.normalize org)
       | None, None => None
       end.
Proof.
  intros Hk Ht. unfold authenticate. rewrite Hk, Ht. intros Hrun.
  bind_step Hrun. apply host_inv in E as [E ->].
  pose proof (headers_get_set_same _ _ _ _ E) as Hauth.
  pose proof (headers_get_set_other "X-API-Key" "Authorization" _ _ _
                ltac:(names_differ) E) as Hkey.
  pose proof (headers_get_set_other "X-Organization-ID" "Authorization" _ _ _
                ltac:(names_differ) E) as Horg.
  rewrite <- Hkey, <- Horg.
  destruct (as_truthy (organizationId (config this))) as [org|].
  - rewrite headers_has_get in Hrun.
    destruct (Headers.get "X-Organization-ID" a) as [v|] eqn:Eg.
    + injection Hrun as <- _. auto.
    + apply host_inv in Hrun as [E0 _].
      rewrite (headers_get_set_other "Authorization" "X-Organization-ID" _ _ _
                 ltac:(names_differ) E0),
        (headers_get_set_other "X-API-Key" "X-Organization-ID" _ _ _
           ltac:(names_differ) E0).
      repeat split; auto.
      now apply headers_get_set_same in E0.
  - injection Hrun as <- _. repeat split; auto.
    now destruct (Headers.get "X-Organization-ID" a).
Qed.

(** X6.  When the client has no API key but a bearer token, every call
    handed to the transport carries [Authorization: Bearer <token>],
    replacing any Authorization header of the default or call-level
    headers; the engine adds no X-API-Key header of its own; and the
    X-Organization-ID header is the one of the default or call-level
    headers if there is one, the configured organization otherwise. *)
Theorem bearer_token_headers :
  forall H net this path options st token call,
    as_truthy (apiKey (config this)) = None ->
    as_truthy (authToken (config this)) = Some token ->
    In (Fetch call) (trace (snd (request H net this path options (start st)))) ->
    exists h0,
      Headers.new (spread (or_empty (defaultHeaders (config this)))
                     (or_empty (headers options))) = Some h0
      /\ Headers.get "Authorization" (f_headers call)
         = Some (Headers.normalize ("Bearer " ++ token))
      /\ Headers.get "X-API-Key" (f_headers call) = Headers.get "X-API-Key" h0
      /\ Headers.get "X-Organization-ID" (f_headers call)
         = match Headers.get "X-Organization-ID" h0,
                 as_truthy (organizationId (config this)) with
           | Some v, _ => Some v
           | None, Some org => Some (Headers.normalize org)
           | None, None => None
           end.
Proof.
  intros H net this path options st token call Hk Ht Hin.
  apply request_dispatches in Hin as (ts & w1 & Hp).
  apply prepare_request_inv in Hp
    as (url & h0 & h1 & bh & wa & wb & wc & _ & Hn & Ha & Hb & _ & -> & _).
  destruct (authenticate_bearer _ _ _ _ _ _ _ Hk Ht Ha) as (Hauth & Hkey & Horg).
  exists h0. split; [exact Hn|].
  rewrite (prepare_body_headers _ _ _ _ _ _ "Authorization" Hb) by names_differ.
  rewrite (prepare_body_headers _ _ _ _ _ _ "X-API-Key" Hb) by names_differ.
  rewrite (prepare_body_headers _ _ _ _ _ _ "X-Organization-ID" Hb) by names_differ.
  auto.
Qed.

Lemma bearer_token_headers_witness :
  exists h0,
    Headers.new (spread (or_empty (defaultHeaders timed_config))
                   (or_empty (headers cancellable_options))) = Some h0
    /\ Headers.get "Authorization" (f_headers timed_call)
       = Some (Headers.normalize ("Bearer " ++ "jwt"))
    /\ Headers.get "X-API-Key" (f_headers timed_call) = Headers.get "X-API-Key" h0
    /\ Headers.get "X-Organization-ID" (f_headers timed_call)
       = match Headers.get "X-Organization-ID" h0,
               as_truthy (organizationId timed_config) with
         | Some v, _ => Some v
         | None, Some org => Some (Headers.normalize org)
         | None, None => None
         end.
Proof.
  apply (bearer_token_headers Node.host (fun _ => [TimerExpires])
           {| config := timed_config |} "/wallets" cancellable_options
           [fresh_signal] "jwt" timed_call).
  - reflexivity.
  - reflexivity.
  - left. reflexivity.
Defined.

(** ** Merging abort signals *)

Lemma length_update i f st : List.length (update i f st) = List.length st.
Proof.
  revert i. induction st as [|s r IH]; intros [|i]; simpl; auto.
Qed.

Lemma view_mark_again i r st :
  view st i = Some (true, Some r) ->
  view (update i (mark_aborted r) st) i = Some (true, Some r).
Proof.
  unfold view. rewrite nth_error_update, Nat.eqb_refl.
  destruct (nth_error st i) as [s|]; simpl; [|discriminate].
  intros [= Ha Hr]. unfold mark_aborted. now rewrite Ha, Ha, Hr.
Qed.

Lemma existsb_is_aborted vs st st' :
  (forall i, view st' i = view st i) ->
  existsb (fun s => is_aborted s st') vs = existsb (fun s => is_aborted s st) vs.
Proof.
  intros Hv. induction vs as [|v r IH]; simpl; [reflexivity|].
  now rewrite IH, !is_aborted_view, Hv.
Qed.

(** The loop of [getCombinedSignal] over the signals it merges, [c] being
    the new controller and [b] telling whether it is aborted already. *)
Lemma combine_fold c l vs : forall st (b : bool),
  Forall (fun s => s <> c) vs ->
  view st c = Some (if b then (true, Some AbortError) else (false, None)) ->
  let st' := fold_left
               (fun st' s =>
                  if is_aborted s st'
                  then update c (mark_aborted AbortError) st'
                  else update s (addEventListener l) st')
               vs st in
  List.length st' = List.length st
  /\ (forall i, i <> c -> view st' i = view st i)
  /\ view st' c
     = Some (if (b || existsb (fun s => is_aborted s st) vs)%bool
             then (true, Some AbortError) else (false, None)).
Proof.
  induction vs as [|s r IH]; intros st b Hvs Hc; cbn [fold_left existsb].
  - rewrite orb_false_r. auto.
  - inversion Hvs as [|? ? Hs Hr]; subst.
    destruct (is_aborted s st) eqn:Ea.
    + assert (Hc1 : view (update c (mark_aborted AbortError) st) c
                    = Some (true, Some AbortError)).
      { destruct b; [now apply view_mark_again | eapply view_mark; eauto]. }
      destruct (IH _ true Hr Hc1) as (Hl & Ho & Hn).
      rewrite length_update in Hl. repeat split.
      * exact Hl.
      * intros i Hi. rewrite Ho by assumption. now apply view_update_other.
      * rewrite Hn. simpl. now rewrite orb_true_r.
    + assert (Hq : forall i, view (update s (addEventListener l) st) i = view st i).
      { intros i. apply view_update_quiet, addEventListener_quiet. }
      assert (Hc1 : view (update s (addEventListener l) st) c
                    = Some (if b then (true, Some AbortError) else (false, None))).
      { now rewrite Hq. }
      destruct (IH _ b Hr Hc1) as (Hl & Ho & Hn).
      rewrite length_update in Hl. repeat split.
      * exact Hl.
      * intros i Hi. now rewrite Ho, Hq.
      * rewrite Hn, (existsb_is_aborted r st _ Hq). reflexivity.
Qed.

Lemma view_fresh st :
  view (st ++ [fresh_signal]) (List.length st) = Some (false, None).
Proof.
  unfold view. rewrite nth_error_app2, Nat.sub_diag by lia. reflexivity.
Qed.

(** [getCombinedSignal] on two or more signals of the store. *)
Lemma getCombinedSignal_many sigs w :
  (2 <= List.length (valid_signals sigs))%nat ->
  Forall (fun s => (s < List.length (signals w))%nat) (valid_signals sigs) ->
  exists w',
    getCombinedSignal sigs w = (Normal (Some (List.length (signals w))), w')
    /\ trace w' = trace w
    /\ List.length (signals w') = S (List.length (signals w))
    /\ (forall i, (i < List.length (signals w))%nat ->
          view (signals w') i = view (signals w) i)
    /\ view (signals w') (List.length (signals w))
       = Some (if existsb (fun s => is_aborted s (signals w)) (valid_signals sigs)
               then (true, Some AbortError) else (false, None)).
Proof.
  intros Hlen Hin. unfold getCombinedSignal.
  change (flat_map (fun s => match s with Some i => [i] | None => [] end) sigs)
    with (valid_signals sigs).
  destruct (valid_signals sigs) as [|a [|b r]] eqn:Ev; simpl in Hlen; try lia.
  unfold bind, new_AbortController, get_signals, put_signals, ret.
  cbn [signals trace].
  set (c := List.length (signals w)).
  set (l := onAbort c (a :: b :: r)).
  assert (Hne : Forall (fun s => s <> c) (a :: b :: r)).
  { eapply Forall_impl; [|exact Hin]. simpl. intros. unfold c. lia. }
  destruct (combine_fold c l (a :: b :: r) (signals w ++ [fresh_signal]) false Hne
              (view_fresh _)) as (Hl & Ho & Hn).
  eexists. split; [reflexivity|]. cbn [signals trace]. repeat split.
  - rewrite Hl, length_app. simpl. lia.
  - intros i Hi. rewrite Ho by (unfold c; lia). now apply view_old.
  - rewrite Hn. rewrite orb_false_l.
    replace (existsb (fun s => is_aborted s (signals w ++ [fresh_signal])) (a :: b :: r))
      with (existsb (fun s => is_aborted s (signals w)) (a :: b :: r)); [reflexivity|].
    clear - Hin. induction Hin as [|x xs Hx _ IH]; simpl; [reflexivity|].
    rewrite IH. f_equal. unfold is_aborted. now rewrite nth_error_app1.
Qed.

(** X7.  Given two or more signals of the store, [getCombinedSignal]
    returns a new signal, emits nothing and changes neither the flag nor
    the reason of any other signal.  The new signal is aborted from the
    start exactly when one of the given signals is, and its reason is then
    the default AbortError, not the reason of the given signal. *)
Theorem combined_signal_starts_aborted :
  forall sigs w,
    (2 <= List.length (valid_signals sigs))%nat ->
    (forall s, In (Some s) sigs -> (s < List.length (signals w))%nat) ->
    exists w',
      getCombinedSignal sigs w = (Normal (Some (List.length (signals w))), w')
      /\ trace w' = trace w
      /\ (forall i, (i < List.length (signals w))%nat ->
            view (signals w') i = view (signals w) i)
      /\ view (signals w') (List.length (signals w))
         = if existsb (fun s => is_aborted s (signals w)) (valid_signals sigs)
           then Some (true, Some AbortError)
           else Some (false, None).
Proof.
  intros sigs w Hlen Hin.
  assert (Hf : Forall (fun s => (s < List.length (signals w))%nat) (valid_signals sigs)).
  { apply Forall_forall. intros s Hs. apply Hin.
    unfold valid_signals in Hs. apply in_flat_map in Hs as [[x|] [Hx Hs]];
      simpl in Hs; [|tauto].
    destruct Hs as [->|[]]. exact Hx. }
  destruct (getCombinedSignal_many sigs w Hlen Hf) as (w' & Hrun & Ht & _ & Ho & Hn).
  exists w'. repeat split; auto.
  rewrite Hn. now destruct (existsb _ _).
Qed.

Lemma combined_signal_starts_aborted_witness :
  exists w',
    getCombinedSignal [Some 0%nat; None; Some 1%nat]
      (start [mark_aborted TimeoutError fresh_signal; fresh_signal])
    = (Normal (Some 2%nat), w')
    /\ trace w' = []
    /\ (forall i, (i < 2)%nat ->
          view (signals w') i
          = view [mark_aborted TimeoutError fresh_signal; fresh_signal] i)
    /\ view (signals w') 2 = Some (true, Some AbortError).
Proof.
  apply (combined_signal_starts_aborted [Some 0%nat; None; Some 1%nat]
           (start [mark_aborted TimeoutError fresh_signal; fresh_signal])).
  - simpl. lia.
  - simpl. intros s [Hs | [Hs | [Hs | []]]]; try discriminate;
      injection Hs as <-; lia.
Defined.

(** ** The signal of a prepared call *)

(** What a prepared call observes: the request's controller [c] is new
    and live, the timeout signal, if a timeout is configured, is the next
    one and live, the signals of the caller's store are as they were, and
    the signal handed to the transport is aborted, with the default
    AbortError, exactly when the caller's signal was. *)
Lemma prepare_request_signals H this path options w call timer w1 :
  prepare_request H this path options w = (Normal (call, timer), w1) ->
  caller_in_store options (signals w) ->
  timer = (if truthy_num (timeout (config this))
           then Some (S (List.length (signals w))) else None)
  /\ (forall i, (i < List.length (signals w))%nat ->
        view (signals w1) i = view (signals w) i)
  /\ (forall t, timer = Some t -> view (signals w1) t = Some (false, None))
  /\ exists g,
       f_signal call = Some g
       /\ view (signals w1) g
          = Some (if caller_aborted options (signals w)
                  then (true, Some AbortError) else (false, None)).
Proof.
  unfold prepare_request, caller_in_store, caller_aborted. intros Hrun Hin.
  bind_step Hrun. bind_step Hrun. bind_step Hrun. bind_step Hrun.
  assert (Hw : signals w4 = signals w).
  { pose proof (keeps_construct_url H this path options w) as K1. rewrite E in K1.
    apply host_inv in E0 as [_ ->].
    pose proof (keeps_authenticate this path a0 w0) as K2. rewrite E1 in K2.
    pose proof (keeps_prepare_body H (body options) a1 w3) as K3. rewrite E2 in K3.
    simpl in *. congruence. }
  bind_step Hrun. bind_step Hrun. bind_step Hrun.
  injection Hrun as <- <- <-. cbn [f_signal].
  unfold new_AbortController in E3. injection E3 as <- <-.
  rewrite Hw in *. clear Hw.
  set (st := signals w) in *.
  destruct (truthy_num (timeout (config this))) eqn:Et.
  - (* a timeout is configured *)
    bind_step E4. unfold ret in E4. injection E4 as <- <-.
    unfold AbortSignal_timeout in E3.
    destruct (_ <? 0); [discriminate|].
    unfold new_AbortController in E3. cbn [signals trace] in E3.
    injection E3 as <- <-.
    rewrite length_app in *. cbn [List.length] in *.
    replace (List.length st + 1)%nat with (S (List.length st)) in * by lia.
    set (w' := {| trace := trace w4; signals := (st ++ [fresh_signal]) ++ [fresh_signal] |}) in *.
    assert (L : List.length (signals w') = S (S (List.length st))).
    { unfold w'. cbn [signals]. rewrite !length_app. simpl. lia. }
    assert (Hold : forall i, (i < List.length st)%nat -> view (signals w') i = view st i).
    { intros i Hi. unfold w'. cbn [signals]. rewrite <- app_assoc. now apply view_old. }
    assert (Hc : view (signals w') (List.length st) = Some (false, None)).
    { unfold w'. cbn [signals]. rewrite view_old by (rewrite length_app; simpl; lia).
      apply view_fresh. }
    assert (Ht : view (signals w') (S (List.length st)) = Some (false, None)).
    { unfold w'. cbn [signals].
      pose proof (view_fresh (st ++ [fresh_signal])) as V.
      rewrite length_app in V. simpl in V.
      now replace (List.length st + 1)%nat with (S (List.length st)) in V by lia. }
    assert (Hvs : Forall (fun s => (s < List.length (signals w'))%nat)
                    (valid_signals [signal options; Some (List.length st);
                                    Some (S (List.length st))])).
    { rewrite L. destruct (signal options); simpl; repeat constructor; lia. }
    assert (Hlen : (2 <= List.length (valid_signals
                                        [signal options; Some (List.length st);
                                         Some (S (List.length st))]))%nat).
    { destruct (signal options); simpl; lia. }
    destruct (getCombinedSignal_many _ w' Hlen Hvs) as (w'' & Hrun & _ & _ & Ho & Hn).
    rewrite Hrun in E5. injection E5 as <- <-.
    split; [reflexivity|]. split; [|split].
    + intros i Hi. rewrite Ho by (rewrite L; lia). now apply Hold.
    + intros t [= <-]. rewrite Ho by (rewrite L; lia). exact Ht.
    + exists (List.length (signals w')). split; [reflexivity|]. rewrite Hn.
      assert (A1 : is_aborted (List.length st) (signals w') = false)
        by now rewrite is_aborted_view, Hc.
      assert (A2 : is_aborted (S (List.length st)) (signals w') = false)
        by now rewrite is_aborted_view, Ht.
      destruct (signal options) as [s|]; cbn [valid_signals flat_map app existsb].
      * rewrite A1, A2, !orb_false_r.
        now rewrite !is_aborted_view, Hold.
      * now rewrite A1, A2.
  - (* no timeout *)
    unfold ret in E4. injection E4 as <- <-.
    set (w' := {| trace := trace w4; signals := st ++ [fresh_signal] |}) in *.
    assert (L : List.length (signals w') = S (List.length st)).
    { unfold w'. cbn [signals]. rewrite length_app. simpl. lia. }
    assert (Hold : forall i, (i < List.length st)%nat -> view (signals w') i = view st i).
    { intros i Hi. unfold w'. cbn [signals]. now apply view_old. }
    assert (Hc : view (signals w') (List.length st) = Some (false, None)).
    { unfold w'. cbn [signals]. apply view_fresh. }
    split; [reflexivity|].
    destruct (signal options) as [s|].
    + assert (Hvs : Forall (fun s => (s < List.length (signals w'))%nat)
                      (valid_signals [Some s; Some (List.length st); None])).
      { rewrite L. simpl. repeat constructor; lia. }
      assert (Hlen : (2 <= List.length (valid_signals
                                          [Some s; Some (List.length st); None]))%nat)
        by (simpl; lia).
      destruct (getCombinedSignal_many _ w' Hlen Hvs) as (w'' & Hrun & _ & _ & Ho & Hn).
      rewrite Hrun in E5. injection E5 as <- <-.
      split; [|split].
      * intros i Hi. rewrite Ho by (rewrite L; lia). now apply Hold.
      * discriminate.
      * exists (List.length (signals w')). split; [reflexivity|]. rewrite Hn.
        cbn [valid_signals flat_map app existsb].
        assert (A1 : is_aborted (List.length st) (signals w') = false)
          by now rewrite is_aborted_view, Hc.
        rewrite A1, !orb_false_r. now rewrite !is_aborted_view, Hold.
    + unfold getCombinedSignal in E5. cbn [flat_map app] in E5.
      unfold ret in E5. injection E5 as <- <-.
      split; [|split].
      * intros i Hi. now apply Hold.
      * discriminate.
      * eexists. split; [reflexivity|]. exact Hc.
Qed.

Lemma flight_fails g timer e rest st :
  view st g = Some (false, None) ->
  flight (Some g) timer (Fails e :: rest) st = (Some (inl e), st).
Proof. intros Hv. cbn [flight]. now rewrite abort_rejection_view, Hv. Qed.

(** X8.  When nothing is aborted and the transport fails with error [e],
    [request] throws: a Network error "Request timed out after <timeout>ms"
    if [e] is named TimeoutError (the text of the timeout being
    "undefined" when none is configured), the SDK error "Request aborted"
    if [e] is a DOMException named AbortError, and a Network error
    "Network request failed" in every other case; the Network errors carry
    [e] as their cause. *)
Theorem transport_failure_outcome :
  forall H net this path options w call timer w1 e rest,
    prepare_request H this path options w = (Normal (call, timer), w1) ->
    caller_in_store options (signals w) ->
    caller_aborted options (signals w) = false ->
    body_on_bodiless_method call = false ->
    net call = Fails e :: rest ->
    fst (request H net this path options w)
    = Throws
        (if String.eqb (name e) "TimeoutError"
         then NetworkError ("Request timed out after " ++ timeout_text this ++ "ms")%string e
         else if (isDOMException e && String.eqb (name e) "AbortError")%bool
         then SDKError ("Request aborted: " ++ message e)%string
         else NetworkError ("Network request failed: " ++ message e)%string e).
Proof.
  intros H net this path options w call timer w1 e rest Hprep Hin Hlive Hbody Hnet.
  destruct (prepare_request_signals _ _ _ _ _ _ _ _ Hprep Hin)
    as (Ht & _ & Hfresh & g & Hg & Hv).
  rewrite Hlive in Hv.
  unfold request, bind. rewrite Hprep. cbn [fst snd].
  unfold fetch, bind, emit. cbn [fst snd trace signals].
  rewrite Hbody, Hg, Hnet. cbn beta iota. cbn [signals trace].
  rewrite (flight_fails _ _ _ _ _ Hv).
  unfold interpret, on_fetch_error, get_signals. unfold bind.
  cbn beta iota. cbn [fst snd trace signals].
  assert (Hta : match timer with Some t => is_aborted t (signals w1) | None => false end
                = false).
  { destruct timer as [t|]; [|reflexivity].
    now rewrite is_aborted_view, (Hfresh t eq_refl). }
  rewrite Hta, andb_false_r, orb_false_r.
  destruct (String.eqb (name e) "TimeoutError"); [reflexivity|].
  destruct (isDOMException e && String.eqb (name e) "AbortError")%bool; reflexivity.
Qed.

Lemma transport_failure_outcome_witness :
  fst (request Node.host (fun _ => [Fails TimeoutError]) sample_client "/wallets"
         Node.get_options (start []))
  = Throws
      (if String.eqb (name TimeoutError) "TimeoutError"
       then NetworkError ("Request timed out after " ++ timeout_text sample_client ++ "ms")%string
              TimeoutError
       else if (isDOMException TimeoutError && String.eqb (name TimeoutError) "AbortError")%bool
       then SDKError ("Request aborted: " ++ message TimeoutError)%string
       else NetworkError ("Network request failed: " ++ message TimeoutError)%string
              TimeoutError).
Proof.
  refine (transport_failure_outcome Node.host (fun _ => [Fails TimeoutError])
            sample_client "/wallets" Node.get_options (start [])
            bare_call None
            (snd (prepare_request Node.host sample_client "/wallets" Node.get_options
                    (start [])))
            TimeoutError [] _ _ _ _ _).
  - vm_compute. reflexivity.
  - vm_compute. exact I.
  - reflexivity.
  - reflexivity.
  - reflexivity.
Defined.

(** X9.  When the caller's signal is aborted before the call, [request]
    still invokes the transport, with a signal that is aborted already,
    and throws the SDK error "Request aborted: This operation was
    aborted", whatever the reason the caller's signal was aborted with,
    whatever the network does, and with or without a timeout. *)
Theorem aborted_before_the_call :
  forall H net this path options w call timer w1,
    prepare_request H this path options w = (Normal (call, timer), w1) ->
    caller_in_store options (signals w) ->
    caller_aborted options (signals w) = true ->
    body_on_bodiless_method call = false ->
    (exists g, f_signal call = Some g /\ is_aborted g (signals w1) = true)
    /\ fst (request H net this path options w)
       = Throws (SDKError "Request aborted: This operation was aborted").
Proof.
  intros H net this path options w call timer w1 Hprep Hin Hab Hbody.
  destruct (prepare_request_signals _ _ _ _ _ _ _ _ Hprep Hin)
    as (Ht & _ & Hfresh & g & Hg & Hv).
  rewrite Hab in Hv. split.
  - exists g. split; [exact Hg|]. now rewrite is_aborted_view, Hv.
  - unfold request, bind. rewrite Hprep. cbn [fst snd].
    unfold fetch, bind, emit. cbn [fst snd trace signals].
    rewrite Hbody, Hg. cbn beta iota. cbn [signals trace].
    rewrite (flight_aborted (Some g) timer (net call) (signals w1) AbortError)
      by now rewrite abort_rejection_view, Hv.
    unfold interpret, on_fetch_error, get_signals. unfold bind.
    cbn beta iota. cbn [fst snd trace signals].
    assert (Hta : match timer with Some t => is_aborted t (signals w1) | None => false end
                  = false).
    { destruct timer as [t|]; [|reflexivity].
      now rewrite is_aborted_view, (Hfresh t eq_refl). }
    rewrite Hta. reflexivity.
Qed.

Lemma aborted_before_the_call_witness :
  (exists g, f_signal timed_call = Some g
             /\ is_aborted g
                  (signals (snd (prepare_request Node.host {| config := timed_config |}
                                   "/wallets" cancellable_options
                                   (start [mark_aborted TimeoutError fresh_signal]))))
                = true)
  /\ fst (request Node.host (Node.answers (Node.json_response 200 [] bare_wallet))
            {| config := timed_config |} "/wallets" cancellable_options
            (start [mark_aborted TimeoutError fresh_signal]))
     = Throws (SDKError "Request aborted: This operation was aborted").
Proof.
  refine (aborted_before_the_call Node.host
            (Node.answers (Node.json_response 200 [] bare_wallet))
            {| config := timed_config |} "/wallets" cancellable_options
            (start [mark_aborted TimeoutError fresh_signal])
            timed_call (Some 2%nat)
            (snd (prepare_request Node.host {| config := timed_config |}
                    "/wallets" cancellable_options
                    (start [mark_aborted TimeoutError fresh_signal])))
            _ _ _ _).
  - vm_compute. reflexivity.
  - vm_compute. lia.
  - reflexivity.
  - reflexivity.
Defined.

(** ** A body on a GET or HEAD request *)

Lemma prepare_request_method H this path options w call ts w' :
  prepare_request H this path options w = (Normal (call, ts), w') ->
  f_method call = match method options with Some m => m | None => GET end.
Proof.
  unfold prepare_request. intros Hrun.
  bind_step Hrun. bind_step Hrun. bind_step Hrun. bind_step Hrun.
  bind_step Hrun. bind_step Hrun. bind_step Hrun.
  now injection Hrun as <- _ _.
Qed.

Lemma prepare_body_some H b h w bh w' :
  prepare_body H b h w = (Normal bh, w') ->
  truthy b = true -> exists sent, fst bh = Some sent.
Proof.
  unfold prepare_body. intros Hrun Ht. rewrite Ht in Hrun.
  destruct (is_passthrough b).
  - injection Hrun as <- _. simpl. eauto.
  - unfold try_catch in Hrun.
    destruct (bind _ _ w) as [[r|e|] w1] eqn:Eb; try discriminate.
    injection Hrun as <- _.
    bind_step Eb. bind_step Eb. injection Eb as <- _. simpl. eauto.
Qed.

(** X10.  A call with a truthy body and the method GET, HEAD or none
    (GET being the default) is handed to the transport with that method
    and with its body: [request] does not hold it back.  The transport
    refuses such a call with a TypeError, as the Fetch standard requires,
    and [request] throws a Network error "Network request failed:
    <message>" whose cause is that TypeError, the message being the one
    the host gives. *)
Theorem body_on_get_is_a_network_error :
  forall H net this path options w call timer w1,
    prepare_request H this path options w = (Normal (call, timer), w1) ->
    truthy (body options) = true ->
    match method options with
    | None | Some GET | Some HEAD => True
    | _ => False
    end ->
    (f_method call = GET \/ f_method call = HEAD)
    /\ (exists sent, f_body call = Some sent)
    /\ fst (request H net this path options w)
       = Throws (NetworkError ("Network request failed: " ++ bodiless_message H)%string
                   (TypeError (bodiless_message H))).
Proof.
  intros H net this path options w call timer w1 Hprep Hb Hm.
  pose proof (prepare_request_method _ _ _ _ _ _ _ _ Hprep) as Hmeth.
  destruct (prepare_request_inv _ _ _ _ _ _ _ _ Hprep)
    as (url & h0 & h1 & bh & wa & wb & wc & _ & _ & _ & Hbody & _ & _ & Hfb).
  destruct (prepare_body_some _ _ _ _ _ _ Hbody Hb) as [sent Hsent].
  rewrite Hsent in Hfb.
  assert (Hget : f_method call = GET \/ f_method call = HEAD).
  { rewrite Hmeth. destruct (method options) as [[]|]; simpl in *; tauto. }
  assert (Hbad : body_on_bodiless_method call = true).
  { unfold body_on_bodiless_method. rewrite Hfb.
    destruct Hget as [-> | ->]; reflexivity. }
  split; [exact Hget|]. split; [eauto|].
  unfold request, bind. rewrite Hprep. cbn [fst snd].
  unfold fetch, bind, emit. cbn [fst snd trace signals].
  rewrite Hbad. reflexivity.
Qed.

Lemma body_on_get_is_a_network_error_witness :
  (f_method bodied_get = GET \/ f_method bodied_get = HEAD)
  /\ (exists sent, f_body bodied_get = Some sent)
  /\ fst (request Node.host (Node.answers (Node.json_response 200 [] bare_wallet))
            sample_client "/wallets" get_with_body (start []))
     = Throws (NetworkError
                 ("Network request failed: " ++ bodiless_message Node.host)%string
                 (TypeError (bodiless_message Node.host))).
Proof.
  refine (body_on_get_is_a_network_error Node.host
            (Node.answers (Node.json_response 200 [] bare_wallet))
            sample_client "/wallets" get_with_body (start []) bodied_get None
            (snd (prepare_request Node.host sample_client "/wallets" get_with_body
                    (start []))) _ _ _).
  - vm_compute. reflexivity.
  - reflexivity.
  - exact I.
Defined.

(** ** Reading the body of a response *)

Lemma read_error_body_reads r w :
  exists w',
    try_catch
      (match Headers.get "content-type" (resp_headers r) with
       | Some contentType =>
           if (negb (String.eqb contentType "")
               && includes "application/json" contentType)%bool
           then read_json r
           else read_text r
       | None => read_text r
       end)
      (fun _ => ret JNull) w
    = (Normal (error_body r), w')
    /\ trace w' = trace w ++ [if declares_json r then ReadJson else ReadText].
Proof.
  unfold error_body, declares_json, try_catch, read_json, read_text, bind, emit, ret.
  destruct (Headers.get "content-type" (resp_headers r)) as [ct|]; simpl.
  - destruct (negb (String.eqb ct "") && includes "application/json" ct)%bool; simpl;
      [destruct (json r) | destruct (text r)]; simpl; eauto.
  - destruct (text r); simpl; eauto.
Qed.

(** "Handle error response" either lets the response through untouched or
    reads its body once and throws. *)
Lemma handle_error_response_reads H expected r w :
  handle_error_response H expected r w = (Normal tt, w)
  \/ (accepted expected r = false
      /\ exists e w',
           handle_error_response H expected r w = (Throws e, w')
           /\ trace w' = trace w ++ [if declares_json r then ReadJson else ReadText]).
Proof.
  unfold handle_error_response, accepted.
  destruct (ok r); simpl; [now left|].
  destruct (is_expected expected r); [now left|]. right. split; [reflexivity|].
  unfold bind at 1. destruct (read_error_body_reads r w) as (w' & -> & Ht).
  unfold interpolate, host, bind, throw, ret.
  destruct (js_String _ _ _); destruct (_ || _)%bool; simpl; eauto.
Qed.

Lemma isSuccessWrapper_trace v w : trace (snd (isSuccessWrapper v w)) = trace w.
Proof.
  unfold isSuccessWrapper, call_hasOwnProperty, ret, throw.
  destruct (_ && _)%bool; [|reflexivity].
  destruct v; try reflexivity. now destruct (hasOwn _ _).
Qed.

Lemma handle_success_reads expected r w :
  trace (snd (handle_success expected r w))
  = trace w ++ (if no_content r then [] else [ReadJson]).
Proof.
  unfold handle_success, try_catch, no_content.
  destruct (_ || _)%bool; [simpl; now rewrite app_nil_r|].
  unfold bind at 1. unfold read_json, bind, emit, ret, throw.
  cbn [fst snd trace signals].
  destruct (json r) as [e|v]; [reflexivity|].
  unfold bind.
  pose proof (isSuccessWrapper_trace v
                {| trace := trace w ++ [ReadJson]; signals := signals w |}) as Hi.
  destruct (isSuccessWrapper v _) as [[[|]|e|] w1]; simpl in *;
    try (destruct (instanceof_SDKError e)); try assumption.
  destruct (is_expected expected r); [assumption|].
  destruct (_ && _)%bool; assumption.
Qed.

(** The reads of [interpret]: none when the transport failed, one of the
    error body when the response is not accepted, one of the JSON body
    when it is accepted and has content. *)
Lemma interpret_reads H this options timer settled w :
  trace (snd (interpret H this options timer settled w))
  = trace w
    ++ match settled with
       | inl _ => []
       | inr r =>
           if accepted (expectedStatus options) r
           then (if no_content r then [] else [ReadJson])
           else [if declares_json r then ReadJson else ReadText]
       end.
Proof.
  unfold interpret. destruct settled as [e|r].
  - unfold bind at 1. unfold on_fetch_error, bind, get_signals, throw.
    rewrite app_nil_r. now destruct (_ || _)%bool; [|destruct (_ && _)%bool].
  - unfold bind at 1. unfold ret at 1. unfold bind.
    destruct (handle_error_response_reads H (expectedStatus options) r w)
      as [Hok | (Hacc & e & w' & Hthrow & Ht)].
    + rewrite Hok. rewrite handle_success_reads.
      replace (accepted (expectedStatus options) r) with true; [reflexivity|].
      unfold handle_error_response in Hok. unfold accepted.
      destruct (ok r); [reflexivity|]. simpl in *.
      destruct (is_expected (expectedStatus options) r); [reflexivity|].
      exfalso. unfold bind at 1 in Hok.
      destruct (read_error_body_reads r w) as (w' & Hr & _). rewrite Hr in Hok.
      unfold interpolate, host, bind, throw, ret in Hok.
      destruct (js_String _ _ _); destruct (_ || _)%bool; discriminate.
    + rewrite Hthrow, Hacc. exact Ht.
Qed.

(** X11.  A call reads the body of a response at most once.  When the
    transport gives a response that is not accepted, its error body is
    read, as JSON if it declares JSON and as text otherwise; an accepted
    response is read as JSON unless it is a no-content response; when no
    response is received, nothing is read. *)
Theorem body_is_read_at_most_once :
  forall H net this path options w,
    exists new,
      trace (snd (request H net this path options w)) = trace w ++ new
      /\ (List.length (filter is_read new) <= 1)%nat
      /\ filter is_read new
         = match response_received H net this path options w with
           | Some r =>
               if accepted (expectedStatus options) r
               then (if no_content r then [] else [ReadJson])
               else [if declares_json r then ReadJson else ReadText]
           | None => []
           end.
Proof.
  intros H net this path options w. unfold response_received, request, bind.
  destruct (only_prepare_request H this path options w) as [ws [Et Fw]].
  pose proof (warnings_are_not_reads ws Fw) as Hws.
  destruct (prepare_request H this path options w) as [[p|e|] w1]; simpl in *;
    try (exists ws; rewrite Hws; repeat split; [assumption | simpl; lia]).
  pose proof (fetch_trace H net (fst p) (snd p) w1) as Ef.
  destruct (fetch H net (fst p) (snd p) w1) as [[s|e|] w2]; simpl in *;
    try (exists (ws ++ [Fetch (fst p)]);
         rewrite filter_app, Hws, Ef, Et, app_assoc; repeat split; simpl; lia).
  rewrite interpret_reads, Ef, Et.
  eexists. rewrite <- !app_assoc. split; [reflexivity|].
  rewrite !filter_app, Hws. cbn [filter is_read app].
  destruct s as [e|r]; [split; [simpl; lia | reflexivity]|].
  destruct (accepted _ _); [destruct (no_content r)|destruct (declares_json r)];
    split; simpl; auto; lia.
Qed.

(** ** formatQueryParams *)

Lemma format_entry_again kv : format_entry (format_entry kv) = format_entry kv.
Proof. destruct kv as [k v]. unfold format_entry. simpl. now destruct v. Qed.

Lemma NoDup_keys_filter {T} (f : string * T -> bool) (o : Rec T) :
  NoDup (keys o) -> NoDup (keys (filter f o)).
Proof.
  unfold keys. induction o as [|[k v] r IH]; simpl; intros Hnd; [constructor|].
  inversion Hnd as [|? ? Hn Hr]; subst.
  destruct (f (k, v)); simpl; [|auto].
  constructor; [|auto].
  intros Hi. apply Hn. apply in_map_iff in Hi as [[k' v'] [Hk Hi]].
  apply filter_In in Hi as [Hi _]. simpl in Hk. subst k'.
  apply in_map_iff. now exists (k, v').
Qed.

(** X12.  On parameters with unique keys, [formatQueryParams] returns a
    mapping without [undefined], [null] or Date values, and formatting the
    result again changes nothing. *)
Theorem formatQueryParams_idempotent :
  forall params,
    NoDup (keys params) ->
    formatQueryParams (formatQueryParams params) = formatQueryParams params
    /\ Forall (fun kv => match snd kv with
                         | JUndefined | JNull | JDate _ => False
                         | _ => True
                         end)
         (formatQueryParams params).
Proof.
  intros params Hnd.
  assert (Hnd' : NoDup (keys (formatQueryParams params))).
  { rewrite formatQueryParams_spec, keys_format_entries by assumption.
    now apply NoDup_keys_filter. }
  split.
  - rewrite (formatQueryParams_spec (formatQueryParams params) Hnd').
    rewrite (formatQueryParams_spec params Hnd).
    rewrite filter_kept_formatted, map_map.
    apply map_ext. intros kv. apply format_entry_again.
  - rewrite (formatQueryParams_spec params Hnd).
    apply Forall_forall. intros kv Hi.
    apply in_map_iff in Hi as [[k v] [<- Hi]].
    apply filter_In in Hi as [_ Hk]. unfold kept in Hk. simpl in Hk.
    unfold format_entry. simpl. destruct v; simpl; auto; discriminate.
Qed.

Lemma formatQueryParams_idempotent_witness :
  formatQueryParams (formatQueryParams epoch_params) = formatQueryParams epoch_params
  /\ Forall (fun kv => match snd kv with
                       | JUndefined | JNull | JDate _ => False
                       | _ => True
                       end)
       (formatQueryParams epoch_params).
Proof.
  apply (formatQueryParams_idempotent epoch_params).
  repeat constructor; simpl; intuition discriminate.
Defined.

(** ** The base address *)

Lemma strip_trailing_slash_added b : strip_trailing_slash (b ++ "/") = b.
Proof.
  induction b as [|c r IH]; [reflexivity|].
  change (String c r ++ "/")%string with (String c (r ++ "/")).
  cbn [strip_trailing_slash]. rewrite IH.
  destruct r; reflexivity.
Qed.

Lemma strip_trailing_slash_none b :
  ends_with_slash b = false -> strip_trailing_slash b = b.
Proof.
  induction b as [|c r IH]; [reflexivity|].
  cbn [strip_trailing_slash ends_with_slash].
  destruct r as [|c' r'].
  - now intros ->.
  - intros Hr. now rewrite IH.
Qed.

(** X13.  A client is constructed with its base address stripped of one
    trailing slash, so a base address given with or without a trailing
    slash, and a path given with or without a leading slash, address the
    same resource: the base, a slash, the path. *)
Theorem base_and_path_joined_by_one_slash :
  forall cfg b w c w' p,
    ends_with_slash b = false ->
    baseURL cfg = b \/ baseURL cfg = (b ++ "/")%string ->
    new_HttpClient cfg w = (Normal c, w') ->
    startsWith "/" p = false ->
    address c p = (b ++ "/" ++ p)%string
    /\ address c ("/" ++ p) = (b ++ "/" ++ p)%string.
Proof.
  intros cfg b w c w' p Hb Hbase Hnew Hp.
  unfold new_HttpClient in Hnew.
  destruct (String.eqb (baseURL cfg) ""); [discriminate|].
  bind_step Hnew. unfold ret in Hnew. injection Hnew as <- _.
  unfold address. cbn [config baseURL].
  assert (Hs : strip_trailing_slash (baseURL cfg) = b).
  { destruct Hbase as [-> | ->];
      [now apply strip_trailing_slash_none | apply strip_trailing_slash_added]. }
  rewrite Hs, Hp. split; [reflexivity|].
  replace (startsWith "/" ("/" ++ p)) with true; [reflexivity|].
  unfold startsWith. now destruct p.
Qed.

Lemma base_and_path_joined_by_one_slash_witness :
  address built_client "wallets" = ("https://api.example.com" ++ "/" ++ "wallets")%string
  /\ address built_client ("/" ++ "wallets")
     = ("https://api.example.com" ++ "/" ++ "wallets")%string.
Proof.
  refine (base_and_path_joined_by_one_slash
            (based_at Node.bare_config "https://api.example.com/")
            "https://api.example.com" (start []) built_client (start [])
            "wallets" _ _ _ _).
  - reflexivity.
  - right. reflexivity.
  - reflexivity.
  - reflexivity.
Defined.

(** ** The headers of a call *)

Lemma hasOwn_set {T} (k k' : string) (v : T) (o : Rec T) :
  hasOwn k (rec_set k' v o) = (String.eqb k' k || hasOwn k o)%bool.
Proof.
  unfold hasOwn. destruct (String.eqb k' k) eqn:E.
  - apply String.eqb_eq in E. subst k'. now rewrite rec_get_set_same.
  - rewrite rec_get_set_other; [reflexivity|].
    intros ->. now rewrite String.eqb_refl in E.
Qed.

Lemma in_keys_hasOwn {T} (k : string) (o : Rec T) :
  In k (keys o) <-> hasOwn k o = true.
Proof.
  unfold hasOwn, keys. induction o as [|[k' v] r IH]; simpl.
  - split; [tauto | discriminate].
  - destruct (String.eqb k' k) eqn:E.
    + apply String.eqb_eq in E. tauto.
    + rewrite <- IH. split; [|tauto].
      intros [-> | Hi]; [|exact Hi]. now rewrite String.eqb_refl in E.
Qed.

Lemma hasOwn_cons {T} (k k' : string) (v : T) (o : Rec T) :
  hasOwn k ((k', v) :: o) = (String.eqb k' k || hasOwn k o)%bool.
Proof. unfold hasOwn. simpl. now destruct (String.eqb k' k). Qed.

Lemma hasOwn_fold_set {T} (k : string) (b o : Rec T) :
  hasOwn k (fold_left (fun o kv => rec_set (fst kv) (snd kv) o) b o)
  = (hasOwn k o || hasOwn k b)%bool.
Proof.
  revert o. induction b as [|[k' v] r IH]; intros o; simpl.
  - now rewrite orb_false_r.
  - rewrite IH, hasOwn_set, hasOwn_cons.
    destruct (String.eqb k' k), (hasOwn k o), (hasOwn k r); reflexivity.
Qed.

Lemma hasOwn_spread {T} (k : string) (a b : Rec T) :
  hasOwn k (spread a b) = (hasOwn k a || hasOwn k b)%bool.
Proof. unfold spread. now rewrite !hasOwn_fold_set. Qed.

Lemma headers_has_append (n v m : string) (h h' : Headers.t) :
  Headers.append n v h = Some h' ->
  Headers.has m h'
  = (String.eqb (toLowerCase n) (toLowerCase m) || Headers.has m h)%bool.
Proof.
  unfold Headers.append, Headers.has. intros Ha.
  destruct (Headers.valid_name n && Headers.valid_value (Headers.normalize v))%bool;
    [|discriminate].
  destruct (Headers.get n h); injection Ha as <-; apply hasOwn_set.
Qed.

Lemma headers_has_fill (m : string) (init : Rec string) : forall h h',
  Headers.fill init h = Some h' ->
  Headers.has m h'
  = (Headers.has m h
     || existsb (fun k => String.eqb (toLowerCase k) (toLowerCase m)) (keys init))%bool.
Proof.
  induction init as [|[n v] r IH]; intros h h'; simpl.
  - intros [= <-]. now rewrite orb_false_r.
  - destruct (Headers.append n v h) as [h1|] eqn:Ea; [|discriminate].
    intros Hf. rewrite (IH _ _ Hf), (headers_has_append _ _ m _ _ Ea).
    destruct (String.eqb (toLowerCase n) (toLowerCase m)); simpl;
      [now rewrite orb_true_r | reflexivity].
Qed.

(** The headers initialised from a record have a name exactly when one of
    the record's keys is that name in some letter case. *)
Lemma headers_has_new (m : string) (init : Rec string) h :
  Headers.new init = Some h ->
  Headers.has m h
  = existsb (fun k => String.eqb (toLowerCase k) (toLowerCase m)) (keys init).
Proof. unfold Headers.new. intros Hf. now rewrite (headers_has_fill m _ _ _ Hf). Qed.

(** Authentication touches the three headers it is about and no other. *)
Lemma authenticate_other this path h w h' w' n :
  authenticate this path h w = (Normal h', w') ->
  toLowerCase n <> toLowerCase "X-API-Key" ->
  toLowerCase n <> toLowerCase "X-Organization-ID" ->
  toLowerCase n <> toLowerCase "Authorization" ->
  Headers.get n h' = Headers.get n h.
Proof.
  unfold authenticate. intros Hrun Hk Ho Ha.
  destruct (as_truthy (apiKey (config this))).
  - bind_step Hrun. apply host_inv in E as [E _].
    bind_step Hrun. injection Hrun as <- _.
    rewrite headers_get_delete_other by assumption.
    apply (headers_get_set_other n) in E; [|assumption].
    rewrite <- E.
    destruct (as_truthy (organizationId (config this))).
    + apply host_inv in E0 as [E0 _].
      now apply (headers_get_set_other n) in E0.
    + unfold bind, emit, ret in E0. now injection E0 as <- _.
  - destruct (as_truthy (authToken (config this))); [|now injection Hrun as <- _].
    bind_step Hrun. apply host_inv in E as [E _].
    apply (headers_get_set_other n) in E; [|assumption].
    rewrite <- E.
    destruct (as_truthy (organizationId (config this))); [|now injection Hrun as <- _].
    destruct (Headers.has "X-Organization-ID" a); [now injection Hrun as <- _|].
    apply host_inv in Hrun as [E0 _].
    now apply (headers_get_set_other n) in E0.
Qed.

Lemma prepare_body_keeps_content_type H b h w bh w' :
  prepare_body H b h w = (Normal bh, w') ->
  (truthy b && is_passthrough b)%bool = false ->
  Headers.has "Content-Type" h = true ->
  Headers.has "Content-Type" (snd bh) = true.
Proof.
  unfold prepare_body. intros Hrun Hp Hh.
  destruct (truthy b); [|now injection Hrun as <- _].
  simpl in Hp. rewrite Hp in Hrun.
  unfold try_catch in Hrun.
  destruct (bind _ _ w) as [[r|e|] w1] eqn:Eb; try discriminate.
  injection Hrun as <- _.
  bind_step Eb. bind_step Eb. injection Eb as <- _. simpl.
  rewrite Hh in E0. now injection E0 as <- _.
Qed.

(** X14.  Every call of a client built by the constructor carries a
    Content-Type header, also a call without a body such as a GET, unless
    its body is a string, FormData, URLSearchParams or Blob: the
    constructor puts Content-Type first in the default headers, and only
    the passing of such a body removes it. *)
Theorem built_client_declares_content_type :
  forall cfg w0 c w0' H net path options st call,
    new_HttpClient cfg w0 = (Normal c, w0') ->
    (truthy (body options) && is_passthrough (body options))%bool = false ->
    In (Fetch call) (trace (snd (request H net c path options (start st)))) ->
    Headers.has "Content-Type" (f_headers call) = true.
Proof.
  intros cfg w0 c w0' H net path options st call Hnew Hp Hin.
  unfold new_HttpClient in Hnew.
  destruct (String.eqb (baseURL cfg) ""); [discriminate|].
  bind_step Hnew. unfold ret in Hnew. injection Hnew as <- _.
  apply request_dispatches in Hin as (ts & w1 & Hprep).
  apply prepare_request_inv in Hprep
    as (url & h0 & h1 & bh & wa & wb & wc & _ & Hn & Ha & Hb & _ & -> & _).
  cbn [config defaultHeaders or_empty] in Hn.
  apply (prepare_body_keeps_content_type _ _ _ _ _ _ Hb Hp).
  rewrite headers_has_get,
    (authenticate_other _ _ _ _ _ _ "Content-Type" Ha) by names_differ.
  rewrite <- headers_has_get, (headers_has_new _ _ _ Hn).
  apply existsb_exists. exists "Content-Type". split; [|reflexivity].
  apply in_keys_hasOwn. rewrite !hasOwn_spread. reflexivity.
Qed.

Lemma built_client_declares_content_type_witness :
  Headers.has "Content-Type" (f_headers built_call) = true.
Proof.
  refine (built_client_declares_content_type Node.bare_config (start []) built_client
            (start []) Node.host (Node.answers (Node.json_response 200 [] bare_wallet))
            "/wallets" Node.get_options [] built_call _ _ _).
  - reflexivity.
  - reflexivity.
  - left. reflexivity.
Defined.

(** ** The calls of the resource methods *)

Lemma bind_ret {A B} (a : A) (k : A -> Eff B) w : bind (ret a) k w = k a w.
Proof. reflexivity. Qed.

Lemma bind_throw {A B} e (k : A -> Eff B) w : bind (throw e) k w = (Throws e, w).
Proof. reflexivity. Qed.

(** Parsing the response comes after the call and leaves the trace as it
    is. *)
Lemma bind_parse_world (m : Eff JSValue) S w :
  snd (bind m (fun response => parse S response) w) = snd (m w).
Proof.
  unfold bind, parse. destruct (m w) as [[v|e|] w1]; try reflexivity.
  now destruct (safeParse S v).
Qed.

Lemma prepare_body_json H b h w bh w' :
  prepare_body H b h w = (Normal bh, w') ->
  truthy b = true -> is_passthrough b = false ->
  exists s, JSON_stringify H b = Some s /\ fst bh = Some (JsonText s).
Proof.
  unfold prepare_body. intros Hrun Ht Hp. rewrite Ht, Hp in Hrun.
  unfold try_catch in Hrun.
  destruct (bind _ _ w) as [[r|e|] w1] eqn:Eb; try discriminate.
  injection Hrun as <- _.
  bind_step Eb. apply host_inv in E as [E _].
  bind_step Eb. injection Eb as <- _. simpl. eauto.
Qed.

(** The call that [request] hands to the transport: its method, its
    address and query, and the text of a body that is serialized. *)
Lemma dispatched_call H net this path options st call :
  In (Fetch call) (trace (snd (request H net this path options (start st)))) ->
  f_method call = match method options with Some m => m | None => GET end
  /\ (exists url0,
        URL_parse H (address this path) = Some url0
        /\ href (f_url call) = href url0
        /\ searchParams (f_url call)
           = searchParams url0
             ++ map (fun kv => (fst kv, String_text H (snd kv)))
                  (filter kept (or_empty (queryParams options))))
  /\ (truthy (body options) = false -> f_body call = None)
  /\ (truthy (body options) = true -> is_passthrough (body options) = false ->
      exists s, JSON_stringify H (body options) = Some s
                /\ f_body call = Some (JsonText s)).
Proof.
  intros Hin. apply request_dispatches in Hin as (ts & w1 & Hp).
  pose proof (prepare_request_method _ _ _ _ _ _ _ _ Hp) as Hm.
  apply prepare_request_inv in Hp
    as (url & h0 & h1 & bh & wa & wb & wc & Hu & _ & _ & Hb & -> & _ & ->).
  split; [exact Hm|]. split; [|split].
  - unfold construct_url in Hu. bind_step Hu. apply host_inv in E as [E ->].
    exists a. split; [exact E|].
    destruct (queryParams options) as [qp|]; simpl.
    + apply appendQueryParams_ok in Hu as (_ & Hh & Hs). auto.
    + injection Hu as <- _. now rewrite app_nil_r.
  - intros Hf. unfold prepare_body in Hb. rewrite Hf in Hb. now injection Hb as <- _.
  - intros Ht Hpass. exact (prepare_body_json _ _ _ _ _ _ Hb Ht Hpass).
Qed.

Lemma no_fetch_in_start {A} (e : JSError) st call :
  ~ In (Fetch call) (trace (snd (@throw A e (start st)))).
Proof. simpl. tauto. Qed.

Lemma member_value k v w :
  not_nullish v = true -> member k v w = (Normal (prop k v), w).
Proof. destruct v; try discriminate; reflexivity. Qed.

Lemma member_nullish k v w :
  not_nullish v = false -> exists e, member k v w = (Throws e, w).
Proof. destruct v; try discriminate; intros _; eexists; reflexivity. Qed.

(** X15.  [WalletsAPI.signData] calls the transport only with a wallet id
    that is not empty and a request that passes the schema, by POST on the
    wallet's [sign] address, and the body it sends has exactly one field:
    [data] when the validated request has a truthy [data], [message]
    otherwise, also when the request has both. *)
Theorem sign_request_sends_one_field :
  forall H net S1 S2 this walletId signRequest st call,
    In (Fetch call)
      (trace (snd (WalletsAPI_signData H net S1 S2 this walletId signRequest (start st)))) ->
    exists data url0 s,
      walletId <> ""%string
      /\ safeParse S1 signRequest = ParseSuccess data
      /\ f_method call = POST
      /\ URL_parse H (address (WalletsAPI.httpClient this)
                        ("/wallets/" ++ walletId ++ "/sign")) = Some url0
      /\ f_url call = url0
      /\ JSON_stringify H
           (JObj [if truthy (prop "data" data)
                  then ("data", prop "data" data)
                  else ("message", prop "message" data)]) = Some s
      /\ f_body call = Some (JsonText s).
Proof.
  intros H net S1 S2 this walletId signRequest st call.
  unfold WalletsAPI_signData.
  destruct (String.eqb walletId "") eqn:Ew; [intros []|].
  destruct (safeParse S1 signRequest) as [data|issues] eqn:Es; [|intros []].
  destruct (not_nullish data) eqn:En.
  - unfold bind at 1. rewrite (member_value "data" data _ En).
    set (bodyToSend := JObj [if truthy (prop "data" data)
                             then ("data", prop "data" data)
                             else ("message", prop "message" data)]).
    assert (Hb : (if truthy (prop "data" data)
                  then ret (JObj [("data", prop "data" data)])
                  else m <- member "message" data ;; ret (JObj [("message", m)]))
                   (start st)
                 = (Normal bodyToSend, start st)).
    { unfold bodyToSend. destruct (truthy (prop "data" data)); [reflexivity|].
      unfold bind. now rewrite (member_value "message" data _ En). }
    unfold bind at 1. rewrite Hb. rewrite bind_parse_world.
    intros Hin. apply dispatched_call in Hin as (Hm & (url0 & Hu & Hh & Hs) & _ & Hbody).
    destruct (Hbody eq_refl eq_refl) as (s & Hj & Hf).
    exists data, url0, s. repeat split; auto.
    + intros ->. discriminate.
    + destruct (f_url call) as [hr sp], url0 as [hr0 sp0]. simpl in *.
      rewrite app_nil_r in Hs. congruence.
  - unfold bind at 1.
    destruct (member_nullish "data" data (start st) En) as [e ->]. intros [].
Qed.

Lemma sign_request_sends_one_field_witness :
  exists data url0 s,
    "w1"%string <> ""%string
    /\ safeParse any_schema sign_both = ParseSuccess data
    /\ f_method sign_call = POST
    /\ URL_parse Node.host (address sample_client ("/wallets/" ++ "w1" ++ "/sign"))
       = Some url0
    /\ f_url sign_call = url0
    /\ JSON_stringify Node.host
         (JObj [if truthy (prop "data" data)
                then ("data", prop "data" data)
                else ("message", prop "message" data)]) = Some s
    /\ f_body sign_call = Some (JsonText s).
Proof.
  apply (sign_request_sends_one_field Node.host
           (Node.answers (Node.json_response 200 [] bare_wallet))
           any_schema any_schema {| WalletsAPI.httpClient := sample_client |}
           "w1" sign_both [] sign_call).
  left. reflexivity.
Defined.

(** X16.  [AuthAPI.login] chooses the endpoint on the [mfaCode] of the
    caller's input, [/auth/mfa/verify] when it is truthy and [/auth/login]
    otherwise, while the body it posts is the validated data, whatever the
    schema made of [mfaCode]. *)
Theorem login_endpoint_follows_input :
  forall H net S1 S2 httpClient loginData st call,
    (forall v d, safeParse S1 v = ParseSuccess d -> exists ps, d = JObj ps) ->
    In (Fetch call)
      (trace (snd (AuthAPI_login H net S1 S2 httpClient loginData (start st)))) ->
    exists data url0 s,
      safeParse S1 loginData = ParseSuccess data
      /\ f_method call = POST
      /\ URL_parse H (address httpClient
                        (if truthy (prop "mfaCode" loginData)
                         then "/auth/mfa/verify" else "/auth/login")) = Some url0
      /\ f_url call = url0
      /\ JSON_stringify H data = Some s
      /\ f_body call = Some (JsonText s).
Proof.
  intros H net S1 S2 httpClient loginData st call Hobj.
  unfold AuthAPI_login.
  destruct (safeParse S1 loginData) as [data|issues] eqn:Es; [|intros []].
  destruct (Hobj _ _ Es) as [ps ->].
  destruct (not_nullish loginData) eqn:En.
  - unfold bind at 1. rewrite (member_value "mfaCode" loginData _ En).
    rewrite bind_parse_world.
    intros Hin. apply dispatched_call in Hin as (Hm & (url0 & Hu & Hh & Hs) & _ & Hbody).
    destruct (Hbody eq_refl eq_refl) as (s & Hj & Hf).
    exists (JObj ps), url0, s. repeat split; auto.
    destruct (f_url call) as [hr sp], url0 as [hr0 sp0]. simpl in *.
    rewrite app_nil_r in Hs. congruence.
  - unfold bind at 1.
    destruct (member_nullish "mfaCode" loginData (start st) En) as [e ->]. intros [].
Qed.

Lemma login_endpoint_follows_input_witness :
  exists data url0 s,
    safeParse credentials_schema login_with_code = ParseSuccess data
    /\ f_method login_call = POST
    /\ URL_parse Node.host
         (address sample_client
            (if truthy (prop "mfaCode" login_with_code)
             then "/auth/mfa/verify" else "/auth/login")) = Some url0
    /\ f_url login_call = url0
    /\ JSON_stringify Node.host data = Some s
    /\ f_body login_call = Some (JsonText s).
Proof.
  apply (login_endpoint_follows_input Node.host
           (Node.answers (Node.json_response 200 [] bare_wallet))
           credentials_schema any_schema sample_client login_with_code [] login_call).
  - intros v d. unfold credentials_schema, safeParse. intros [= <-]. eauto.
  - left. reflexivity.
Defined.

Lemma verification_accepted vh :
  verification_rejected vh = false ->
  (hasOwn "X-Wallet-ID" vh || hasOwn "X-Wallet-Address" vh)%bool = true.
Proof.
  unfold verification_rejected. cbv zeta.
  destruct (hasOwn "X-Wallet-ID" vh), (hasOwn "X-Wallet-Address" vh);
    simpl; auto.
Qed.

(** A header of the call-level headers that authentication does not set
    is a header of the call. *)
Lemma call_level_header H net this path options st call n :
  In (Fetch call) (trace (snd (request H net this path options (start st)))) ->
  hasOwn n (or_empty (headers options)) = true ->
  toLowerCase n <> toLowerCase "X-API-Key" ->
  toLowerCase n <> toLowerCase "X-Organization-ID" ->
  toLowerCase n <> toLowerCase "Authorization" ->
  toLowerCase n <> "content-type"%string ->
  Headers.has n (f_headers call) = true.
Proof.
  intros Hin Hn Hk Ho Ha Hc.
  apply request_dispatches in Hin as (ts & w1 & Hprep).
  apply prepare_request_inv in Hprep
    as (url & h0 & h1 & bh & wa & wb & wc & _ & Hnew & Hauth & Hb & _ & -> & _).
  rewrite headers_has_get, (prepare_body_headers _ _ _ _ _ _ n Hb Hc),
    (authenticate_other _ _ _ _ _ _ n Hauth Hk Ho Ha), <- headers_has_get,
    (headers_has_new _ _ _ Hnew).
  apply existsb_exists. exists n. split; [|apply String.eqb_refl].
  apply in_keys_hasOwn. rewrite hasOwn_spread, Hn. apply orb_true_r.
Qed.

(** X17.  [ContractsAPI.listContractFunctions] calls the transport only
    with a contract address and a network that are not empty and with
    verification headers that pass its test; the call is a GET without a
    body on the contract's [functions] address, its query is the network,
    and it carries an X-Wallet-ID or an X-Wallet-Address header. *)
Theorem contract_functions_call :
  forall H net S httpClient contractAddress network vh st call,
    In (Fetch call)
      (trace (snd (ContractsAPI_listContractFunctions H net S httpClient
                     contractAddress network vh (start st)))) ->
    contractAddress <> ""%string /\ network <> ""%string
    /\ verification_rejected vh = false
    /\ f_method call = GET /\ f_body call = None
    /\ (exists url0,
          URL_parse H (address httpClient
                         ("/contracts/abi/" ++ contractAddress ++ "/functions"))
          = Some url0
          /\ href (f_url call) = href url0
          /\ searchParams (f_url call) = searchParams url0 ++ [("network", network)])
    /\ (Headers.has "X-Wallet-ID" (f_headers call)
        || Headers.has "X-Wallet-Address" (f_headers call))%bool = true.
Proof.
  intros H net S httpClient contractAddress network vh st call.
  unfold ContractsAPI_listContractFunctions.
  destruct (String.eqb contractAddress "") eqn:Ec; [intros []|].
  destruct (String.eqb network "") eqn:En; [intros []|].
  destruct (verification_rejected vh) eqn:Ev; [intros []|].
  rewrite bind_parse_world. intros Hin.
  pose proof Hin as Hd.
  apply dispatched_call in Hd as (Hm & (url0 & Hu & Hh & Hs) & Hnone & _).
  repeat split; auto.
  - intros ->. discriminate.
  - intros ->. discriminate.
  - exists url0. repeat split; auto.
  - apply verification_accepted in Ev. apply orb_true_iff in Ev as [Hi | Ha].
    + rewrite (call_level_header _ _ _ _ _ _ _ "X-Wallet-ID" Hin Hi)
        by names_differ. reflexivity.
    + rewrite (call_level_header _ _ _ _ _ _ _ "X-Wallet-Address" Hin Ha)
        by names_differ. apply orb_true_r.
Qed.

Lemma contract_functions_call_witness :
  "0xabc"%string <> ""%string /\ "polygon"%string <> ""%string
  /\ verification_rejected [("X-Wallet-ID", "w1")] = false
  /\ f_method functions_call = GET /\ f_body functions_call = None
  /\ (exists url0,
        URL_parse Node.host (address sample_client
                               ("/contracts/abi/" ++ "0xabc" ++ "/functions"))
        = Some url0
        /\ href (f_url functions_call) = href url0
        /\ searchParams (f_url functions_call)
           = searchParams url0 ++ [("network", "polygon"%string)])
  /\ (Headers.has "X-Wallet-ID" (f_headers functions_call)
      || Headers.has "X-Wallet-Address" (f_headers functions_call))%bool = true.
Proof.
  apply (contract_functions_call Node.host
           (Node.answers (Node.json_response 200 [] (JArr [])))
           any_schema sample_client "0xabc" "polygon" [("X-Wallet-ID", "w1")] []
           functions_call).
  left. reflexivity.
Defined.

(** ** The request of [executeContractFunctionByName] *)

Lemma fold_set_fresh {T} (b : Rec T) : forall acc,
  NoDup (keys (acc ++ b)) ->
  fold_left (fun o kv => rec_set (fst kv) (snd kv) o) b acc = acc ++ b.
Proof.
  induction b as [|[k v] r IH]; intros acc Hnd; simpl.
  - now rewrite app_nil_r.
  - assert (Hk : ~ In k (keys acc)).
    { unfold keys in *. rewrite map_app in Hnd. simpl in Hnd.
      apply NoDup_remove_2 in Hnd. intros Hi. apply Hnd. apply in_or_app. auto. }
    rewrite (rec_set_new k v acc Hk), IH, <- app_assoc; [reflexivity|].
    now rewrite <- app_assoc.
Qed.

(** Copying an object with unique keys gives the same object. *)
Lemma spread_copy {T} (b : Rec T) : NoDup (keys b) -> spread [] b = b.
Proof. intros Hnd. unfold spread. simpl. now apply (fold_set_fresh b []). Qed.

(** X18.  The request that [executeContractFunctionByName] builds is a
    POST with the verification headers whose body has the network, the
    parameters without their [walletAddress], and a [wallet_address] that
    is truthy: the [walletAddress] of the parameters if that is truthy,
    the X-Wallet-Address header otherwise.  With neither, no request is
    built, also when the verification headers name a wallet by
    X-Wallet-ID. *)
Theorem execute_body_names_the_wallet :
  forall contractAddress network functionName vh parameters path options,
    NoDup (keys parameters) ->
    execute_request contractAddress network functionName vh parameters
    = inr (path, options) ->
    exists walletAddress,
      walletAddress
      = (if truthy (prop "walletAddress" (JObj parameters))
         then prop "walletAddress" (JObj parameters)
         else match rec_get "X-Wallet-Address" vh with
              | Some a => JStr a
              | None => JUndefined
              end)
      /\ truthy walletAddress = true
      /\ method options = Some POST
      /\ headers options = Some vh
      /\ body options
         = JObj [("network", JStr network);
                 ("parameters", JObj (rec_delete "walletAddress" parameters));
                 ("wallet_address", walletAddress)].
Proof.
  intros contractAddress network functionName vh parameters path options Hnd.
  unfold execute_request.
  destruct (String.eqb contractAddress ""); [discriminate|].
  destruct (String.eqb network ""); [discriminate|].
  destruct (String.eqb functionName ""); [discriminate|].
  destruct (verification_rejected vh); [discriminate|].
  cbv zeta. rewrite (spread_copy parameters Hnd).
  change (match rec_get "walletAddress" parameters with
          | Some v => v
          | None => JUndefined
          end) with (prop "walletAddress" (JObj parameters)).
  set (p := prop "walletAddress" (JObj parameters)).
  set (wa := if (negb (truthy p) && hasOwn "X-Wallet-Address" vh)%bool
             then match rec_get "X-Wallet-Address" vh with
                  | Some a => JStr a
                  | None => JUndefined
                  end
             else p).
  destruct (truthy wa) eqn:Ew; [|discriminate]. simpl.
  intros [= <- <-]. exists wa. repeat split; auto.
  unfold wa in *. unfold hasOwn in *.
  destruct (truthy p) eqn:Ep; simpl in *; [reflexivity|].
  destruct (rec_get "X-Wallet-Address" vh); [reflexivity|].
  congruence.
Qed.

Lemma execute_body_names_the_wallet_witness :
  exists walletAddress,
    walletAddress
    = (if truthy (prop "walletAddress" (JObj transfer_parameters))
       then prop "walletAddress" (JObj transfer_parameters)
       else match rec_get "X-Wallet-Address" [("X-Wallet-ID", "w1")] with
            | Some a => JStr a
            | None => JUndefined
            end)
    /\ truthy walletAddress = true
    /\ method (snd transfer_request) = Some POST
    /\ headers (snd transfer_request) = Some [("X-Wallet-ID", "w1")]
    /\ body (snd transfer_request)
       = JObj [("network", JStr "polygon");
               ("parameters", JObj (rec_delete "walletAddress" transfer_parameters));
               ("wallet_address", walletAddress)].
Proof.
  apply (execute_body_names_the_wallet "0xabc" "polygon" "transfer"
           [("X-Wallet-ID", "w1")] transfer_parameters (fst transfer_request)
           (snd transfer_request)).
  - repeat constructor; simpl; intuition discriminate.
  - reflexivity.
Defined.

(** ** Paging *)

(** X19.  [OrganizationsAPI.list] turns a page into an offset: for
    validated parameters within the schema's bounds, the query of the call
    is the limit, if given, the search text, if given, and, when a page is
    given, an [offset] of the pages before it, each of [limit] entries or
    of 10 when no limit is given; the page itself is never sent. *)
Theorem page_is_sent_as_offset :
  forall H net validate S httpClient params data st call,
    validate (js_or params (JObj [])) = inr data ->
    match limit data with Some n => 1 <= n <= 100 | None => True end ->
    match page data with Some p => 1 <= p <= 90071992547409 | None => True end ->
    In (Fetch call)
      (trace (snd (OrganizationsAPI_list H net validate S httpClient params (start st)))) ->
    f_method call = GET
    /\ exists url0,
         URL_parse H (address httpClient "/organizations") = Some url0
         /\ href (f_url call) = href url0
         /\ searchParams (f_url call)
            = searchParams url0
              ++ match limit data with
                 | Some n => [("limit", Z_to_string n)]
                 | None => []
                 end
              ++ match search data with
                 | Some s => [("search", s)]
                 | None => []
                 end
              ++ match page data with
                 | Some p =>
                     [("offset",
                       Z_to_string ((p - 1) * match limit data with
                                                | Some n => n
                                                | None => 10
                                                end))]
                 | None => []
                 end.
Proof.
  intros H net validate S httpClient params data st call Hv Hl Hp.
  unfold OrganizationsAPI_list. rewrite Hv. cbv zeta.
  rewrite bind_parse_world. intros Hin.
  apply dispatched_call in Hin as (Hm & (url0 & Hu & Hh & Hs) & _).
  split; [exact Hm|]. exists url0. split; [exact Hu|]. split; [exact Hh|].
  rewrite Hs. f_equal. cbn [queryParams or_empty].
  assert (Hoff : forall p, page data = Some p ->
                   page_offset p (limit data)
                   = (p - 1) * match limit data with Some n => n | None => 10 end).
  { intros p Ep. rewrite Ep in Hp. unfold page_offset.
    replace (p =? 0) with false by (symmetry; apply Z.eqb_neq; lia).
    destruct (limit data) as [n|]; [|reflexivity].
    now replace (n =? 0) with false by (symmetry; apply Z.eqb_neq; lia). }
  assert (Hlim : forall n, limit data = Some n -> is_safe_integer n = true).
  { intros n En. rewrite En in Hl. unfold is_safe_integer. apply Z.leb_le. lia. }
  assert (Hsafe : forall p, page data = Some p ->
                    is_safe_integer
                      ((p - 1) * match limit data with Some n => n | None => 10 end)
                    = true).
  { intros p Ep. rewrite Ep in Hp. unfold is_safe_integer. apply Z.leb_le.
    destruct (limit data) as [n|]; nia. }
  unfold list_params_object.
  destruct (page data) as [p|];
    [rewrite (Hoff p eq_refl); specialize (Hsafe p eq_refl)|clear Hsafe];
    (destruct (limit data) as [n|]; [specialize (Hlim n eq_refl)|clear Hlim]);
    destruct (search data) as [s|];
    cbv -[Z_to_string is_safe_integer Z.mul Z.sub Number_toString];
    rewrite ?Hlim, ?Hsafe; reflexivity.
Qed.

Lemma page_is_sent_as_offset_witness :
  f_method third_page_call = GET
  /\ exists url0,
       URL_parse Node.host (address sample_client "/organizations") = Some url0
       /\ href (f_url third_page_call) = href url0
       /\ searchParams (f_url third_page_call)
          = searchParams url0
            ++ match limit third_page with
               | Some n => [("limit", Z_to_string n)]
               | None => []
               end
            ++ match search third_page with
               | Some s => [("search", s)]
               | None => []
               end
            ++ match page third_page with
               | Some p =>
                   [("offset",
                     Z_to_string ((p - 1) * match limit third_page with
                                              | Some n => n
                                              | None => 10
                                              end))]
               | None => []
               end.
Proof.
  apply (page_is_sent_as_offset Node.host
           (Node.answers (Node.json_response 200 [] (JArr [])))
           (fun _ => inr third_page) any_schema sample_client JUndefined third_page []
           third_page_call).
  - reflexivity.
  - simpl. lia.
  - simpl. lia.
  - left. reflexivity.
Defined.

(** ** Updating a wallet *)

Lemma Object_keys_truthy v w ks w' :
  Object_keys v w = (Normal ks, w') -> ks <> [] -> truthy v = true.
Proof.
  destruct v; simpl; try discriminate; try (intros [= <- _] Hn; now destruct Hn);
    try reflexivity.
  intros [= <- _] Hn. destruct s; [now destruct Hn | reflexivity].
Qed.

Lemma Object_keys_world v w : snd (Object_keys v w) = w.
Proof. now destruct v. Qed.

(** X20.  [WalletsAPI.update] calls the transport only with a wallet id
    that is not empty and update data that pass the schema and have at
    least one key; the call is a PATCH on the wallet's address and carries
    a body. *)
Theorem update_needs_a_field :
  forall H net S1 S2 this walletId updateData st call,
    In (Fetch call)
      (trace (snd (WalletsAPI_update H net S1 S2 this walletId updateData (start st)))) ->
    exists data ks url0 sent,
      walletId <> ""%string
      /\ safeParse S1 updateData = ParseSuccess data
      /\ Object_keys data (start st) = (Normal ks, start st)
      /\ ks <> []
      /\ f_method call = PATCH
      /\ URL_parse H (address (WalletsAPI.httpClient this) ("/wallets/" ++ walletId))
         = Some url0
      /\ f_url call = url0
      /\ f_body call = Some sent.
Proof.
  intros H net S1 S2 this walletId updateData st call.
  unfold WalletsAPI_update.
  destruct (String.eqb walletId "") eqn:Ew; [intros []|].
  destruct (safeParse S1 updateData) as [data|issues] eqn:Es; [|intros []].
  unfold bind at 1.
  pose proof (Object_keys_world data (start st)) as Hw.
  destruct (Object_keys data (start st)) as [[ks|e|] w1] eqn:Ek;
    simpl in Hw; subst w1; [|intros []|intros []].
  destruct (Nat.eqb (List.length ks) 0) eqn:El; [intros []|].
  assert (Hks : ks <> []) by (intros ->; discriminate).
  rewrite bind_parse_world. intros Hin.
  pose proof Hin as Hd.
  apply dispatched_call in Hd as (Hm & (url0 & Hu & Hh & Hs) & _).
  apply request_dispatches in Hin as (ts & w1 & Hprep).
  apply prepare_request_inv in Hprep
    as (url & h0 & h1 & bh & wa & wb & wc & _ & _ & _ & Hb & _ & _ & Hfb).
  destruct (prepare_body_some _ _ _ _ _ _ Hb (Object_keys_truthy _ _ _ _ Ek Hks))
    as [sent Hsent].
  exists data, ks, url0, sent. repeat split; auto.
  - intros ->. discriminate.
  - destruct (f_url call) as [hr sp], url0 as [hr0 sp0]. simpl in *.
    rewrite app_nil_r in Hs. congruence.
  - congruence.
Qed.

Lemma update_needs_a_field_witness :
  exists data ks url0 sent,
    "w1"%string <> ""%string
    /\ safeParse any_schema renaming = ParseSuccess data
    /\ Object_keys data (start []) = (Normal ks, start [])
    /\ ks <> []
    /\ f_method update_call = PATCH
    /\ URL_parse Node.host (address sample_client ("/wallets/" ++ "w1")) = Some url0
    /\ f_url update_call = url0
    /\ f_body update_call = Some sent.
Proof.
  apply (update_needs_a_field Node.host
           (Node.answers (Node.json_response 200 [] bare_wallet))
           any_schema any_schema {| WalletsAPI.httpClient := sample_client |}
           "w1" renaming [] update_call).
  left. reflexivity.
Defined.

(** ** Warnings *)

Lemma silent {A} (m : Eff A) :
  only (fun _ => false) m -> forall w, trace (snd (m w)) = trace w.
Proof.
  intros Hm w. destruct (Hm w) as [new [Et Hf]]. rewrite Et.
  destruct new; [apply app_nil_r | discriminate].
Qed.

Lemma authenticate_warns this path h w h' w' :
  authenticate this path h w = (Normal h', w') ->
  trace w'
  = trace w
    ++ (if (truthy_str (apiKey (config this))
            && negb (truthy_str (organizationId (config this))))%bool
        then [ConsoleWarn ("Making API Key request without X-Organization-ID header for path: "
                           ++ path ++ ". This may be required.")%string]
        else []).
Proof.
  unfold authenticate, as_truthy, truthy_str, set_header. intros Hrun.
  destruct (apiKey (config this)) as [key|].
  - destruct (String.eqb key ""); simpl.
    + destruct (authToken (config this)) as [tok|].
      * destruct (String.eqb tok ""); [injection Hrun as _ <-; now rewrite app_nil_r|].
        bind_step Hrun. apply host_inv in E as [_ ->].
        destruct (organizationId (config this)) as [org|];
          [|injection Hrun as _ <-; now rewrite app_nil_r].
        destruct (String.eqb org ""); [injection Hrun as _ <-; now rewrite app_nil_r|].
        destruct (Headers.has _ _); [injection Hrun as _ <-; now rewrite app_nil_r|].
        apply host_inv in Hrun as [_ ->]. now rewrite app_nil_r.
      * injection Hrun as _ <-. now rewrite app_nil_r.
    + bind_step Hrun. apply host_inv in E as [_ ->].
      bind_step Hrun. injection Hrun as _ <-.
      destruct (organizationId (config this)) as [org|].
      * destruct (String.eqb org ""); simpl.
        -- unfold bind, emit, ret in E. now injection E as _ <-.
        -- apply host_inv in E as [_ ->]. now rewrite app_nil_r.
      * unfold bind, emit, ret in E. now injection E as _ <-.
  - simpl. destruct (authToken (config this)) as [tok|].
    + destruct (String.eqb tok ""); [injection Hrun as _ <-; now rewrite app_nil_r|].
      bind_step Hrun. apply host_inv in E as [_ ->].
      destruct (organizationId (config this)) as [org|];
        [|injection Hrun as _ <-; now rewrite app_nil_r].
      destruct (String.eqb org ""); [injection Hrun as _ <-; now rewrite app_nil_r|].
      destruct (Headers.has _ _); [injection Hrun as _ <-; now rewrite app_nil_r|].
      apply host_inv in Hrun as [_ ->]. now rewrite app_nil_r.
    + injection Hrun as _ <-. now rewrite app_nil_r.
Qed.

Lemma prepare_request_trace H this path options w p w1 :
  prepare_request H this path options w = (Normal p, w1) ->
  trace w1
  = trace w
    ++ (if (truthy_str (apiKey (config this))
            && negb (truthy_str (organizationId (config this))))%bool
        then [ConsoleWarn ("Making API Key request without X-Organization-ID header for path: "
                           ++ path ++ ". This may be required.")%string]
        else []).
Proof.
  unfold prepare_request. intros Hrun.
  bind_step Hrun. bind_step Hrun. bind_step Hrun. bind_step Hrun.
  assert (S1 : trace w0 = trace w).
  { pose proof (silent (construct_url H this path options)) as Hs.
    rewrite <- (Hs ltac:(unfold construct_url; apply only_bind;
                         [apply only_host|intro];
                         destruct (queryParams options);
                         [apply only_appendQueryParams|apply only_ret]) w).
    now rewrite E. }
  apply host_inv in E0 as [_ ->].
  apply authenticate_warns in E1.
  assert (S2 : trace w4 = trace w3).
  { pose proof (silent (prepare_body H (body options) a1)) as Hs.
    rewrite <- (Hs ltac:(unfold prepare_body, set_header; repeat only_step) w3).
    now rewrite E2. }
  assert (S3 : trace w1 = trace w4).
  { match type of Hrun with ?m w4 = _ =>
      pose proof (silent m) as Hs; rewrite <- (fun Ho => Hs Ho w4);
        [now rewrite Hrun|]
    end.
    unfold AbortSignal_timeout.
    apply only_bind; [repeat only_step|intro].
    apply only_bind; [repeat only_step|intro].
    apply only_bind; [apply only_getCombinedSignal|intro].
    apply only_ret. }
  rewrite S3, S2, E1, S1. reflexivity.
Qed.

Lemma reads_are_not_warnings rs :
  forallb is_read rs = true -> filter is_warn rs = [].
Proof.
  induction rs as [|e r IH]; simpl; auto.
  destruct e; simpl; try discriminate; exact IH.
Qed.

(** X21.  A call that reaches the transport logs a warning exactly when
    the client has an API key and no organization: one warning, naming the
    path, and nothing else is ever logged by [request]. *)
Theorem keyed_call_without_organization_warns :
  forall H net this path options st call,
    In (Fetch call) (trace (snd (request H net this path options (start st)))) ->
    filter is_warn (trace (snd (request H net this path options (start st))))
    = if (truthy_str (apiKey (config this))
          && negb (truthy_str (organizationId (config this))))%bool
      then [ConsoleWarn ("Making API Key request without X-Organization-ID header for path: "
                         ++ path ++ ". This may be required.")%string]
      else [].
Proof.
  intros H net this path options st call Hin.
  apply request_dispatches in Hin as (ts & w1 & Hprep).
  pose proof (prepare_request_trace _ _ _ _ _ _ _ Hprep) as Ht. simpl in Ht.
  unfold request, bind. rewrite Hprep. cbn [fst snd].
  pose proof (fetch_trace H net call ts w1) as Ef.
  destruct (fetch H net call ts w1) as [[s|e|] w2]; simpl in *.
  - destruct (only_interpret H this options ts s w2) as [rs [Er Fr]].
    rewrite Er, Ef, Ht, !filter_app, (reads_are_not_warnings rs Fr). simpl.
    rewrite !app_nil_r. now destruct (_ && _)%bool.
  - rewrite Ef, Ht, filter_app. simpl. rewrite app_nil_r. now destruct (_ && _)%bool.
  - rewrite Ef, Ht, filter_app. simpl. rewrite app_nil_r. now destruct (_ && _)%bool.
Qed.

Lemma keyed_call_without_organization_warns_witness :
  filter is_warn
    (trace (snd (request Node.host (Node.answers (Node.json_response 200 [] bare_wallet))
                   {| config := lone_key_config |} "/wallets" Node.get_options (start []))))
  = if (truthy_str (apiKey lone_key_config)
        && negb (truthy_str (organizationId lone_key_config)))%bool
    then [ConsoleWarn ("Making API Key request without X-Organization-ID header for path: "
                       ++ "/wallets" ++ ". This may be required.")%string]
    else [].
Proof.
  apply (keyed_call_without_organization_warns Node.host
           (Node.answers (Node.json_response 200 [] bare_wallet))
           {| config := lone_key_config |} "/wallets" Node.get_options []
           lone_key_call).
  right. left. reflexivity.
Defined.

(** ** The listener of a completed call *)

Lemma keeps_interpret_response H this options timer r :
  keeps (interpret H this options timer (inr r)).
Proof.
  unfold interpret, handle_error_response, handle_success, read_json, read_text,
    interpolate, isSuccessWrapper, call_hasOwnProperty.
  repeat keeps_step.
Qed.

Lemma flight_responds g timer r rest st :
  view st g = Some (false, None) ->
  flight (Some g) timer (Responds r :: rest) st = (Some (inr r), st).
Proof. intros Hv. cbn [flight]. now rewrite abort_rejection_view, Hv. Qed.

(** X22.  [request] removes the listener it registers on the caller's
    signal only when one of the merged signals aborts: after a call that
    ends with a response, whether accepted or not, the caller's signal is
    still live and carries one more listener than before, the one of this
    call. *)
Theorem listener_is_left_on_the_caller_signal :
  forall H net this path options w call timer w1 ms s sg r rest,
    timeout (config this) = Some ms -> 0 < ms ->
    signal options = Some s ->
    nth_error (signals w) s = Some sg -> aborted sg = false ->
    prepare_request H this path options w = (Normal (call, timer), w1) ->
    body_on_bodiless_method call = false ->
    net call = Responds r :: rest ->
    exists sg',
      nth_error (signals (snd (request H net this path options w))) s = Some sg'
      /\ aborted sg' = false
      /\ listeners sg'
         = listeners sg
           ++ [onAbort (S (S (List.length (signals w))))
                 [s; List.length (signals w); S (List.length (signals w))]].
Proof.
  intros H net this path options w call timer w1 ms s sg r rest
    Ht Hms Hs Hsg Hab Hprep Hbody Hnet.
  destruct (prepare_request_arms _ _ _ _ _ _ _ _ _ _ _ Hprep Ht Hms Hs Hsg Hab)
    as (-> & Hsig & Hst).
  unfold request, bind. rewrite Hprep. cbn [fst snd].
  unfold fetch, bind, emit. cbn [fst snd trace signals].
  rewrite Hbody, Hsig, Hnet. cbn beta iota. cbn [signals trace].
  rewrite Hst, flight_responds by now rewrite view_armed, view_new2.
  match goal with
  | |- context [interpret H this options ?t (inr r) ?w2] =>
      rewrite (keeps_interpret_response H this options t r w2)
  end.
  cbn [signals]. rewrite (nth_error_armed_caller _ _ _ Hsg).
  eexists. split; [reflexivity|]. split; [exact Hab | reflexivity].
Qed.

Lemma listener_is_left_on_the_caller_signal_witness :
  exists sg',
    nth_error
      (signals (snd (request Node.host
                       (Node.answers (Node.json_response 200 [] bare_wallet))
                       {| config := timed_config |} "/wallets" cancellable_options
                       (start [fresh_signal])))) 0
    = Some sg'
    /\ aborted sg' = false
    /\ listeners sg' = listeners fresh_signal ++ [onAbort 3 [0; 1; 2]%nat].
Proof.
  apply (listener_is_left_on_the_caller_signal Node.host
           (Node.answers (Node.json_response 200 [] bare_wallet))
           {| config := timed_config |} "/wallets" cancellable_options
           (start [fresh_signal]) timed_call (Some 2%nat)
           {| trace := []; signals := armed [fresh_signal] 0 |}
           5000 0%nat fresh_signal (Node.json_response 200 [] bare_wallet) []);
    try reflexivity.
Defined.

(** ** Signing a message *)

(** X23.  [WalletsAPI.signMessage] calls the transport only with a message
    and a wallet id that are not empty; when the schema returns the
    request [{ message }] as it is, the body of the call is that request,
    a single [message] field, posted on the wallet's [sign] address. *)
Theorem sign_message_sends_the_message :
  forall H net S1 S2 this walletId m st call,
    safeParse S1 (JObj [("message", JStr m)]) = ParseSuccess (JObj [("message", JStr m)]) ->
    In (Fetch call)
      (trace (snd (WalletsAPI_signMessage H net S1 S2 this walletId m (start st)))) ->
    m <> ""%string /\ walletId <> ""%string
    /\ f_method call = POST
    /\ exists url0 s,
         URL_parse H (address (WalletsAPI.httpClient this)
                        ("/wallets/" ++ walletId ++ "/sign")) = Some url0
         /\ href (f_url call) = href url0
         /\ JSON_stringify H (JObj [("message", JStr m)]) = Some s
         /\ f_body call = Some (JsonText s).
Proof.
  intros H net S1 S2 this walletId m st call Hs.
  unfold WalletsAPI_signMessage.
  destruct (String.eqb m "") eqn:Em; [intros []|].
  unfold WalletsAPI_signData.
  destruct (String.eqb walletId "") eqn:Ew; [intros []|].
  rewrite Hs. unfold bind at 1. cbn [member prop rec_get String.eqb Ascii.eqb Bool.eqb].
  cbn beta iota. unfold ret at 1. cbn [truthy].
  unfold bind at 1. unfold bind at 1.
  cbn [member prop rec_get String.eqb Ascii.eqb Bool.eqb]. unfold ret at 1. unfold ret at 1.
  rewrite bind_parse_world. intros Hin.
  apply dispatched_call in Hin as (Hm & (url0 & Hu & Hh & _) & _ & Hbody).
  destruct (Hbody eq_refl eq_refl) as (s & Hj & Hf).
  repeat split; auto.
  - intros ->. discriminate.
  - intros ->. discriminate.
  - exists url0, s. auto.
Qed.

Lemma sign_message_sends_the_message_witness :
  "hello"%string <> ""%string /\ "w1"%string <> ""%string
  /\ f_method message_call = POST
  /\ exists url0 s,
       URL_parse Node.host (address sample_client ("/wallets/" ++ "w1" ++ "/sign"))
       = Some url0
       /\ href (f_url message_call) = href url0
       /\ JSON_stringify Node.host (JObj [("message", JStr "hello")]) = Some s
       /\ f_body message_call = Some (JsonText s).
Proof.
  apply (sign_message_sends_the_message Node.host
           (Node.answers (Node.json_response 200 [] bare_wallet))
           any_schema any_schema {| WalletsAPI.httpClient := sample_client |}
           "w1" "hello" [] message_call).
  - reflexivity.
  - left. reflexivity.
Defined.
